(** * CopyKAT dashboard: analysis-run orchestration and result resolution

    A shallow embedding of the non-stub Python code of the dashboard
    ([backend/api/r_executor.py], [backend/api/result_parser.py],
    [backend/api/status_monitor.py], [shared/utils.py], [shared/config.py],
    [frontend/utils/validators.py] and [frontend/utils/formatters.py])
    together with the properties the design document states about it and
    further properties of the code.

    Modelling conventions
    - A Python [str] is a Rocq [string]; the byte [n] of a Rocq string is
      read as the code point U+00[n], so the model covers the Latin-1
      strings.  Comparison, [len], [in], [replace], [split], [strip] and
      [isalnum] are written out on that reading.
    - A Python [dict] with string keys is a [gmap string _].
    - A Python [float] is idealised as a rational ([Q]) or NaN; rounding is
      not modelled.  An [int] is a [Z].
    - Exceptions are results: a computation that can raise returns [res A].
      [str] of an integer raises beyond CPython's limit of 4300 digits, and
      the conversion of an integer to a float raises beyond the range of
      the floats.
    - Everything the code asks of the outside (the file system, pandas'
      reader, the child process, the clock, pathlib's path arithmetic and
      [str] of a float or container) is a field of the [World] record, or
      of the [Host] record that extends it.  A question the system can
      refuse (an existence check, [stat()], a listing, starting a child,
      decoding its output) answers with the exception it raises then. *)

From Stdlib Require Import ZArith QArith String Ascii List Bool Lia.
From Stdlib Require Import DecimalString Sorted.
From stdpp Require Import base option list strings gmap.

Local Open Scope Z_scope.

(** ** Python values *)

Module Py.

Inductive pyfloat := FNum (q : Q) | FNaN.

#[warnings="-register-all"]
Inductive value :=
| VNone
| VBool (b : bool)
| VInt (z : Z)
| VFloat (f : pyfloat)
| VStr (s : string)
| VDict (d : gmap string value).

(** Exceptions of the [Exception] hierarchy, by class name and [str(e)].
    [subprocess.CalledProcessError] is kept apart, in [run_result] below,
    because the code handles it apart. *)
Record exn := PyError { exc_class : string; exc_str : string }.

Inductive res (A : Type) :=
| Ok (a : A)
| Raise (e : exn).
Arguments Ok {A} a.
Arguments Raise {A} e.

#[export] Instance res_ret : MRet res := fun A a => Ok a.
#[export] Instance res_bind : MBind res := fun A B f m =>
  match m with
  | Ok a => f a
  | Raise e => Raise e
  end.
#[export] Instance res_fmap : FMap res := fun A B f m =>
  match m with
  | Ok a => Ok (f a)
  | Raise e => Raise e
  end.

(** A list comprehension with a condition that can raise: the elements are
    tested in order, and the first test that raises ends it. *)
Fixpoint filter_res {A} (p : A -> res bool) (l : list A) : res (list A) :=
  match l with
  | [] => mret []
  | x :: l' =>
      b ← p x;
      rest ← filter_res p l';
      mret (if b : bool then x :: rest else rest)
  end.

(** A function that can raise, applied to the elements in order. *)
Fixpoint map_res {A B} (f : A -> res B) (l : list A) : res (list B) :=
  match l with
  | [] => mret []
  | x :: l' =>
      y ← f x;
      rest ← map_res f l';
      mret (y :: rest)
  end.

(** [type(v).__name__] *)
Definition type_name (v : value) : string :=
  match v with
  | VNone => "NoneType"
  | VBool _ => "bool"
  | VInt _ => "int"
  | VFloat _ => "float"
  | VStr _ => "str"
  | VDict _ => "dict"
  end.

(** [bool(v)]: Python truthiness. *)
Definition truthy (v : value) : bool :=
  match v with
  | VNone => false
  | VBool b => b
  | VInt z => negb (z =? 0)
  | VFloat (FNum q) => negb (Qeq_bool q 0)
  | VFloat FNaN => true
  | VStr s => negb (String.eqb s "")
  | VDict d => negb (bool_decide (size d = 0%nat))
  end.

(** The decimal numeral of an integer. *)
Definition string_of_Z (z : Z) : string := NilZero.string_of_int (Z.to_int z).

(** [sys.get_int_max_str_digits()], as CPython ships it. *)
Definition int_max_str_digits : Z := 4300.

(** [str(z)] and [f"{z}"] for an [int]: CPython refuses to convert an
    integer of more than [int_max_str_digits] digits. *)
Definition str_int (z : Z) : res string :=
  if int_max_str_digits <? Z.of_nat (String.length (string_of_Z (Z.abs z))) then
    Raise (PyError "ValueError"
             "Exceeds the limit (4300 digits) for integer string conversion; use sys.set_int_max_str_digits() to increase the limit")
  else Ok (string_of_Z z).

(** [str(v)] and [f"{v}"]; the rendering of a float is an oracle, and so
    is that of a dictionary, which raises when an integer inside it does. *)
Definition str_value (repr_float : pyfloat -> string)
    (repr_dict : gmap string value -> res string) (v : value) : res string :=
  match v with
  | VStr s => Ok s
  | VInt z => str_int z
  | VBool true => Ok "True"
  | VBool false => Ok "False"
  | VNone => Ok "None"
  | VFloat f => Ok (repr_float f)
  | VDict d => repr_dict d
  end.

(** [a / b]: true division, which raises on a zero divisor; the quotient
    is kept in lowest terms. *)
Definition truediv (a b : Q) : res Q :=
  if Qeq_bool b 0 then Raise (PyError "ZeroDivisionError" "division by zero")
  else Ok (Qred (a / b)).

(** *** String methods *)

Definition code (c : ascii) : N := N_of_ascii c.

Definition in_range (lo hi : N) (c : ascii) : bool :=
  ((lo <=? code c) && (code c <=? hi))%N.

(** [c.isalnum()] for a code point below U+0100: the ASCII letters and
    digits, and in the upper half the letters (feminine and masculine
    ordinal, micro sign, U+00C0..U+00FF but the two operators U+00D7 and
    U+00F7), the superscript digits and the vulgar fractions. *)
Definition char_isalnum (c : ascii) : bool :=
  in_range 48 57 c || in_range 65 90 c || in_range 97 122 c
  || in_range 170 170 c || in_range 178 179 c || in_range 181 181 c
  || in_range 185 186 c || in_range 188 190 c
  || in_range 192 214 c || in_range 216 246 c || in_range 248 255 c.

(** [c.isspace()] for a code point below U+0100. *)
Definition char_isspace (c : ascii) : bool :=
  in_range 9 13 c || in_range 28 32 c || in_range 133 133 c
  || in_range 160 160 c.

Fixpoint str_all (p : ascii -> bool) (s : string) : bool :=
  match s with
  | EmptyString => true
  | String c s' => p c && str_all p s'
  end.

(** [s.isalnum()]: false on the empty string. *)
Definition isalnum (s : string) : bool :=
  negb (String.eqb s "") && str_all char_isalnum s.

(** [s.replace(old, new)] for a one-character [old]. *)
Fixpoint replace (old : ascii) (new : string) (s : string) : string :=
  match s with
  | EmptyString => EmptyString
  | String c s' =>
      if Ascii.eqb c old then new +:+ replace old new s'
      else String c (replace old new s')
  end.

(** [needle in hay]. *)
Fixpoint contains (needle hay : string) : bool :=
  String.prefix needle hay ||
  match hay with
  | EmptyString => false
  | String _ hay' => contains needle hay'
  end.

(** [s.lstrip()], [s.rstrip()] and [s.strip()]. *)
Fixpoint lstrip (s : string) : string :=
  match s with
  | EmptyString => EmptyString
  | String c s' => if char_isspace c then lstrip s' else s
  end.

Fixpoint rstrip (s : string) : string :=
  match s with
  | EmptyString => EmptyString
  | String c s' =>
      match rstrip s' with
      | EmptyString => if char_isspace c then EmptyString else String c EmptyString
      | r => String c r
      end
  end.

Definition strip (s : string) : string := rstrip (lstrip s).

(** [s.split(sep, maxsplit)] for a one-character [sep]. *)
Fixpoint split (sep : ascii) (maxsplit : nat) (s : string) : list string :=
  match maxsplit with
  | O => [s]
  | S m =>
      (fix scan (acc : string -> string) (t : string) : list string :=
         match t with
         | EmptyString => [acc EmptyString]
         | String c t' =>
             if Ascii.eqb c sep then acc EmptyString :: split sep m t'
             else scan (fun r => acc (String c r)) t'
         end) (fun r => r) s
  end.

End Py.
Export Py.

(** ** pandas: the part of a DataFrame the code looks at *)

Module Pandas.

(** A cell read from a tab-separated file: a number, a string, or a
    missing value. *)
Inductive cell := CNum (q : Q) | CStr (s : string) | CNaN.

(** A frame is its header and its rows; a row shorter than the header is
    missing the remaining cells. *)
Record DataFrame := { df_columns : list string; df_rows : list (list cell) }.

(** [len(df)] *)
Definition len (df : DataFrame) : Z := Z.of_nat (length (df_rows df)).

(** [name in df.columns] *)
Definition has_column (name : string) (df : DataFrame) : bool :=
  existsb (String.eqb name) (df_columns df).

Fixpoint column_index (name : string) (cols : list string) : option nat :=
  match cols with
  | [] => None
  | c :: cols' =>
      if String.eqb name c then Some O
      else S <$> column_index name cols'
  end.

(** [df[name]], asked only for a name that is among the columns. *)
Definition column (name : string) (df : DataFrame) : list cell :=
  match column_index name (df_columns df) with
  | Some j => map (fun row => nth j row CNaN) (df_rows df)
  | None => []
  end.

Definition cell_is (label : string) (c : cell) : bool :=
  match c with
  | CStr s => String.eqb s label
  | _ => false
  end.

(** [series.value_counts().get(label, 0)]: how many cells hold [label]. *)
Definition value_counts_get (label : string) (series : list cell) : Z :=
  Z.of_nat (length (filter (fun c => cell_is label c = true) series)).

Definition is_str (c : cell) : bool :=
  match c with CStr _ => true | _ => false end.

(** The numbers of a series, missing values skipped. *)
Fixpoint numbers (series : list cell) : list Q :=
  match series with
  | [] => []
  | CNum q :: series' => q :: numbers series'
  | _ :: series' => numbers series'
  end.

Definition Qsum (l : list Q) : Q := fold_right Qplus 0%Q l.

(** [float(series.mean())]: missing values are skipped, a series with no
    number has mean NaN, and a string in the series is a [TypeError]
    (whose text is not modelled). *)
Definition mean (series : list cell) : res pyfloat :=
  if existsb is_str series then
    Raise (PyError "TypeError" "Could not convert string to numeric")
  else
    match numbers series with
    | [] => Ok FNaN
    | qs => Ok (FNum (Qred (Qsum qs / inject_Z (Z.of_nat (length qs)))))
    end.

End Pandas.
Export Pandas.

(** ** The outside world *)

Module Env.

(** An entry of a directory: its name and the [st_mtime] of its [stat()],
    or what [stat()] raises on it (the [FileNotFoundError] of a dangling
    symbolic link). *)
Record dirent := { d_name : string; d_mtime : res Q }.

(** A reading of [datetime.now()]: seconds since the epoch and its
    [isoformat()]. *)
Record datetime := { dt_seconds : Q; dt_iso : string }.

(** What becomes of a command line whose arguments the system takes:
    - no child runs, and [subprocess.run] raises (the engine is not
      installed, the working directory is missing);
    - the child runs to its end and its captured output is text;
    - the child runs to its end and its captured output is not valid text:
      [subprocess.run(..., text=True)] raises the [UnicodeDecodeError]. *)
Inductive proc_outcome :=
| NotStarted (e : exn)
| Exited (returncode : Z) (stdout stderr : string)
| Undecodable (returncode : Z) (e : exn).

Record World := {
  (** [str(x)] for a float *)
  repr_float : pyfloat -> string;
  (** [str(d)] for a dictionary, or what it raises *)
  repr_dict : gmap string value -> res string;
  (** [get_project_root()] of [r_executor.py] and of [shared/utils.py] *)
  executor_root : string;
  shared_root : string;
  (** [str(Path(a) / b)] *)
  joinpath : string -> string -> string;
  (** [Path(p).exists()], or the [OSError] it raises (a name that is too
      long, a directory that may not be searched) *)
  path_exists : string -> res bool;
  (** the entries [Path(p).glob] scans, in the order the system lists
      them: none when [p] is not a directory or may not be listed *)
  scandir : string -> list dirent;
  (** [list(Path(p).glob(pattern))] for a pattern outside the modelled
      ones (see [plain_pattern]), or what it raises *)
  glob_other : string -> string -> res (list dirent);
  (** [pd.read_csv(p, sep='\t')] *)
  read_csv : string -> res DataFrame;
  (** [open(p).readlines()] *)
  readlines : string -> res (list string);
  (** what becomes of a command line run in a directory *)
  spawn : list string -> string -> proc_outcome;
  (** the successive readings of the clock *)
  now : nat -> datetime
}.

(** [str(v)] in a world. *)
Definition py_str (w : World) (v : value) : res string :=
  str_value (repr_float w) (repr_dict w) v.

(** The [TypeError] of a value that is no path or program argument. *)
Definition not_pathlike (v : value) : exn :=
  PyError "TypeError"
    ("expected str, bytes or os.PathLike object, not " +:+ type_name v).

(** [Path(v)]: only a [str] is a path. *)
Definition Path (v : value) : res string :=
  match v with
  | VStr s => Ok s
  | _ => Raise (not_pathlike v)
  end.

(** Shell-style matching of one name against a pattern with [*] and [?];
    it is case-sensitive. *)
Fixpoint fnmatch (pat name : string) : bool :=
  match pat with
  | EmptyString => String.eqb name ""
  | String c pat' =>
      if Ascii.eqb c "*" then
        (fix star (n : string) : bool :=
           fnmatch pat' n ||
           match n with
           | EmptyString => false
           | String _ n' => star n'
           end) name
      else
        match name with
        | EmptyString => false
        | String d name' =>
            (Ascii.eqb c "?" || Ascii.eqb c d) && fnmatch pat' name'
        end
  end.

(** The patterns whose matching is modelled: one path component, not
    empty, without a character class and without [**].  pathlib rejects an
    empty pattern and a [**] inside a component, and reads [[...]] as a
    class and [/] as a separator. *)
Definition plain_pattern (pattern : string) : bool :=
  negb (String.eqb pattern "")
  && negb (contains "/" pattern) && negb (contains "[" pattern)
  && negb (contains "**" pattern).

(** [list(Path(dir).glob(pattern))], in listing order. *)
Definition glob (w : World) (dir pattern : string) : res (list dirent) :=
  if plain_pattern pattern then
    Ok (filter (fun e => fnmatch pattern (d_name e) = true) (scandir w dir))
  else glob_other w dir pattern.

(** [max(l, key=...)]: the keys are computed in order, once each, and the
    first element whose key no later element exceeds is kept; a key that
    raises ends it. *)
Fixpoint max_from {A} (key : A -> res Q) (best : A) (best_key : Q)
    (l : list A) : res A :=
  match l with
  | [] => mret best
  | x :: l' =>
      k ← key x;
      if Qle_bool k best_key then max_from key best best_key l'
      else max_from key x k l'
  end.

Definition py_max {A} (key : A -> res Q) (l : list A) : res (option A) :=
  match l with
  | [] => mret None
  | x :: l' => k ← key x; Some <$> max_from key x k l'
  end.

(** [d[k]] *)
Definition getitem (d : gmap string value) (k : string) : res value :=
  match d !! k with
  | Some v => Ok v
  | None => Raise (PyError "KeyError" ("'" +:+ k +:+ "'"))
  end.

End Env.
Export Env.

(** ** backend/api/r_executor.py *)

Module RExecutor.

(** The three ways [subprocess.run(..., check=True)] comes back. *)
Inductive run_result :=
| Completed (stdout stderr : string)
| CalledProcessError (returncode : Z) (stderr : string)
| Raised (e : exn).

(** A program argument as the system takes it: a [str] without a null
    character.  Anything else makes [subprocess.run] raise before a child
    exists. *)
Definition program_argument (v : value) : res string :=
  match v with
  | VStr s =>
      if contains (String "000" "") s then
        Raise (PyError "ValueError" "embedded null byte")
      else Ok s
  | _ => Raise (not_pathlike v)
  end.

(** A command line handed to the system, with its working directory. *)
Definition launch : Type := list string * string.

(** [subprocess.run(command, capture_output=True, text=True, check=True,
    cwd=cwd)]: how it comes back, and the child it started, if any. *)
Definition subprocess_run (w : World) (command : list value) (cwd : string)
  : run_result * list launch :=
  match map_res program_argument command with
  | Raise e => (Raised e, [])
  | Ok arguments =>
      match spawn w arguments cwd with
      | NotStarted e => (Raised e, [])
      | Exited rc out err =>
          (if rc =? 0 then Completed out err else CalledProcessError rc err,
           [(arguments, cwd)])
      | Undecodable _ e => (Raised e, [(arguments, cwd)])
      end
  end.

(** [if key in params: command.extend([flag, f(params[key])])] *)
Definition extend_if_present (params : gmap string value) (key flag : string)
    (f : value -> res value) (command : list value) : res (list value) :=
  match params !! key with
  | Some v => a ← f v; mret (command ++ [VStr flag; a])
  | None => mret command
  end.

Definition build_r_command (w : World) (script_path : string)
    (params : gmap string value) : res (list value) :=
  let str v := VStr <$> py_str w v in
  let command := [VStr "Rscript"; VStr script_path] in
  input_file ← getitem params "input_file";
  let command := command ++ [VStr "--input"; input_file] in
  output_dir ← getitem params "output_dir";
  let command := command ++ [VStr "--output"; output_dir] in
  sample_name ← getitem params "sample_name";
  let command := command ++ [VStr "--name"; sample_name] in
  genome ← getitem params "genome";
  let command := command ++ [VStr "--genome"; genome] in
  command ← extend_if_present params "ngene_chr" "--ngene_chr" str command;
  command ← extend_if_present params "win_size" "--win_size" str command;
  command ← extend_if_present params "n_cores" "--cores" str command;
  command ← extend_if_present params "LOW_DR" "--low_dr" str command;
  command ← extend_if_present params "UP_DR" "--up_dr" str command;
  command ← extend_if_present params "KS_cut" "--ks_cut" str command;
  command ← extend_if_present params "distance" "--distance" mret command;
  command ← extend_if_present params "cell_line" "--cell_line" mret command;
  mret command.

Definition find_output_directory (w : World) (base_dir sample_name : value)
  : res (option string) :=
  base_path ← Path base_dir;
  found ← path_exists w base_path;
  if negb found then mret None
  else
    name ← py_str w sample_name;
    matching_dirs ← glob w base_path (name +:+ "_*");
    latest ← py_max d_mtime matching_dirs;
    match latest with
    | Some p => mret (Some (joinpath w base_path (d_name p)))
    | None => mret None
    end.

(** The dictionary [files] of [locate_output_files], as the list of its
    items in insertion order. *)
Definition expected_files (w : World) (output_path sample : string)
  : list (string * string) :=
  [ ("predictions", joinpath w output_path (sample +:+ "_copykat_prediction.txt"));
    ("cna_results", joinpath w output_path (sample +:+ "_copykat_CNA_results.txt"));
    ("heatmap", joinpath w output_path (sample +:+ "_copykat_heatmap.jpeg"));
    ("log", joinpath w (joinpath w output_path "logs") "analysis.log");
    ("report", joinpath w output_path (sample +:+ "_report.html")) ].

Definition locate_output_files (w : World) (output_dir : string)
    (sample_name : value) : res (gmap string string) :=
  let output_path := output_dir in
  sample ← py_str w sample_name;
  let files := expected_files w output_path sample in
  existing_files ← filter_res (fun kv => path_exists w kv.2) files;
  mret (list_to_map existing_files).

Definition extract_summary_statistics (w : World) (files : gmap string string)
  : res (gmap string value) :=
  let summary : gmap string value :=
    {[ "n_cells" := VInt 0;
       "n_aneuploid" := VInt 0;
       "n_diploid" := VInt 0;
       "n_not_defined" := VInt 0;
       "aneuploid_fraction" := VFloat (FNum 0) ]} in
  match files !! "predictions" with
  | Some predictions_file =>
      found ←
        (if negb (String.eqb predictions_file "")
         then path_exists w predictions_file else mret false);
      if found : bool then
        match read_csv w predictions_file with
        | Ok df =>
            let n_cells := len df in
            let summary := <["n_cells" := VInt n_cells]> summary in
            if has_column "copykat.pred" df then
              let counts := column "copykat.pred" df in
              let n_aneuploid := value_counts_get "aneuploid" counts in
              let summary := <["n_aneuploid" := VInt n_aneuploid]> summary in
              let summary :=
                <["n_diploid" := VInt (value_counts_get "diploid" counts)]> summary in
              let summary :=
                <["n_not_defined" := VInt (value_counts_get "not.defined" counts)]> summary in
              if 0 <? n_cells then
                match truediv (inject_Z n_aneuploid) (inject_Z n_cells) with
                | Ok q => mret (<["aneuploid_fraction" := VFloat (FNum q)]> summary)
                | Raise _ => mret summary
                end
              else mret summary
            else mret summary
        | Raise _ => mret summary
        end
      else mret summary
  | None => mret summary
  end.

Definition required_params : list string :=
  ["input_file"; "sample_name"; "output_dir"; "genome"].

(** The first key of [keys] that is not in [params]. *)
Fixpoint first_missing (keys : list string) (params : gmap string value)
  : option string :=
  match keys with
  | [] => None
  | param :: keys' =>
      match params !! param with
      | None => Some param
      | Some _ => first_missing keys' params
      end
  end.

(** The dictionary every failing path returns. *)
Definition failure (error : string) (runtime_minutes : value)
  : gmap string value :=
  {[ "success" := VBool false;
     "error" := VStr error;
     "output_dir" := VNone;
     "files" := VDict ∅;
     "summary" := VDict ∅;
     "runtime_minutes" := runtime_minutes ]}.

Definition r_script_path : string := "backend/r_scripts/copykat_analysis.R".

(** What follows a completed child inside the [try]. *)
Definition parse_outputs (w : World) (params : gmap string value)
    (start_time : datetime) : res (gmap string value) :=
  let end_time := now w 1 in
  minutes ← truediv (dt_seconds end_time - dt_seconds start_time) 60;
  let runtime := VFloat (FNum minutes) in
  base_dir ← getitem params "output_dir";
  sample_name ← getitem params "sample_name";
  output_dir ← find_output_directory w base_dir sample_name;
  match output_dir with
  | Some dir =>
      if negb (String.eqb dir "") then
        sample_name ← getitem params "sample_name";
        files ← locate_output_files w dir sample_name;
        summary ← extract_summary_statistics w files;
        mret ({[ "success" := VBool true;
                 "output_dir" := VStr dir;
                 "files" := VDict (VStr <$> files);
                 "summary" := VDict summary;
                 "runtime_minutes" := runtime;
                 "error" := VNone;
                 "timestamp" := VStr (dt_iso (now w 2)) ]} : gmap string value)
      else mret (failure "Output directory not found" runtime)
  | None => mret (failure "Output directory not found" runtime)
  end.

(** The result (or the exception that leaves the function: the command is
    built outside the [try]) and the child processes started on the way. *)
Definition run_copykat_analysis (w : World) (params : gmap string value)
  : res (gmap string value) * list launch :=
  match first_missing required_params params with
  | Some param =>
      (Ok (failure ("Missing required parameter: " +:+ param) (VInt 0)), [])
  | None =>
      match build_r_command w r_script_path params with
      | Raise e => (Raise e, [])
      | Ok command =>
          let start_time := now w 0 in
          let cwd := executor_root w in
          let '(result, launched) := subprocess_run w command cwd in
          let result :=
            match result with
            | Completed _ _ =>
                match parse_outputs w params start_time with
                | Ok r => r
                | Raise e => failure ("Unexpected error: " +:+ exc_str e) (VInt 0)
                end
            | CalledProcessError _ stderr =>
                failure ("R script failed: " +:+ stderr) (VInt 0)
            | Raised e =>
                failure ("Unexpected error: " +:+ exc_str e) (VInt 0)
            end in
          (Ok result, launched)
      end
  end.

End RExecutor.
Export RExecutor.

(** ** backend/api/result_parser.py *)

Module ResultParser.

Definition parse_predictions (w : World) (file_path : string) : res DataFrame :=
  match read_csv w file_path with
  | Ok df => Ok df
  | Raise e =>
      Raise (PyError "ValueError"
               ("Error parsing predictions file: " +:+ exc_str e))
  end.

Definition generate_summary (predictions : DataFrame)
  : res (gmap string value) :=
  let n_cells := len predictions in
  let summary : gmap string value :=
    {[ "n_cells" := VInt n_cells;
       "n_aneuploid" := VInt 0;
       "n_diploid" := VInt 0;
       "n_not_defined" := VInt 0;
       "aneuploid_fraction" := VFloat (FNum 0);
       "mean_confidence" := VFloat (FNum 0) ]} in
  summary ←
    (if has_column "copykat.pred" predictions then
       let counts := column "copykat.pred" predictions in
       let n_aneuploid := value_counts_get "aneuploid" counts in
       let summary := <["n_aneuploid" := VInt n_aneuploid]> summary in
       let summary :=
         <["n_diploid" := VInt (value_counts_get "diploid" counts)]> summary in
       let summary :=
         <["n_not_defined" := VInt (value_counts_get "not.defined" counts)]> summary in
       if 0 <? n_cells then
         q ← truediv (inject_Z n_aneuploid) (inject_Z n_cells);
         mret (<["aneuploid_fraction" := VFloat (FNum q)]> summary)
       else mret summary
     else mret summary);
  if has_column "copykat.confidence" predictions then
    m ← mean (column "copykat.confidence" predictions);
    mret (<["mean_confidence" := VFloat m]> summary)
  else mret summary.

End ResultParser.
Export ResultParser.

(** ** backend/api/status_monitor.py *)

Module StatusMonitor.

(** A child process as the monitor sees it: what the [k]-th call of
    [process.poll()] returns, [None] while the child runs. *)
Record Process := { poll : nat -> option Z }.

Definition stages : list (Q * string) :=
  [ (1 # 10, "Loading and validating data...");
    (2 # 10, "Quality control assessment...");
    (3 # 10, "Preprocessing data...");
    (4 # 10, "Running CopyKAT analysis...");
    (9 # 10, "Processing results...");
    (1, "Complete!") ]%Q.

(** [lines[-n:]] *)
Definition last_lines (n : nat) (lines : list string) : list string :=
  drop (length lines - n) lines.

(** The [for] loop of [parse_log_for_progress]. *)
Fixpoint scan_lines (lines : list string) : option string :=
  match lines with
  | [] => None
  | line :: rest =>
      if contains "STEP" line || contains "INFO" line then
        match split ":" 2 line with
        | _ :: _ :: part :: _ => Some (strip part)
        | _ => scan_lines rest
        end
      else scan_lines rest
  end.

Definition parse_log_for_progress (w : World) (log_file : string)
  : option string :=
  match readlines w log_file with
  | Ok lines => scan_lines (rev (last_lines 10 lines))
  | Raise _ => None
  end.

(** The message of a checkpoint, refined from the log when there is one.
    The existence check of the log is not guarded: what it raises leaves
    the generator. *)
Definition stage_message (w : World) (log_file : option string)
    (message : string) : res string :=
  match log_file with
  | Some f =>
      found ← (if negb (String.eqb f "") then path_exists w f else mret false);
      if found : bool then
        match parse_log_for_progress w f with
        | Some detailed_message =>
            if negb (String.eqb detailed_message "") then mret detailed_message
            else mret message
        | None => mret message
        end
      else mret message
  | None => mret message
  end.

Definition stage_event (w : World) (log_file : option string)
    (current_stage : nat) (progress : Q) (message : string)
  : res (gmap string value) :=
  message ← stage_message w log_file message;
  number ← str_int (Z.of_nat current_stage + 1);
  total ← str_int (Z.of_nat (length stages));
  mret ({[ "progress" := VFloat (FNum progress);
           "message" := VStr message;
           "stage" := VStr ("Stage " +:+ number +:+ "/" +:+ total);
           "complete" := VBool false;
           "timestamp" := VStr (dt_iso (now w 0)) ]} : gmap string value).

(** The event after the loop; the return code is written into the message
    of a failure, which [str] refuses for an integer that is too long. *)
Definition final_event (w : World) (return_code : Z)
  : res (gmap string value) :=
  if return_code =? 0 then
    mret {[ "progress" := VFloat (FNum 1);
            "message" := VStr "Analysis completed successfully!";
            "stage" := VStr "Complete";
            "complete" := VBool true;
            "success" := VBool true;
            "timestamp" := VStr (dt_iso (now w 0)) ]}
  else
    code ← str_int return_code;
    mret {[ "progress" := VFloat (FNum 0);
            "message" := VStr ("Analysis failed with code " +:+ code);
            "stage" := VStr "Error";
            "complete" := VBool true;
            "success" := VBool false;
            "error_code" := VInt return_code;
            "timestamp" := VStr (dt_iso (now w 0)) ]}.

(** A finished run of the generator: the dictionaries it yielded, and the
    exception that ended it, if one did. *)
Record events := { yielded : list (gmap string value); died : option exn }.

Definition yield (event : gmap string value) (rest : events) : events :=
  {| yielded := event :: yielded rest; died := died rest |}.

(** The end of the generator once the child has exited. *)
Definition ending (w : World) (return_code : Z) : events :=
  match final_event w return_code with
  | Ok event => {| yielded := [event]; died := None |}
  | Raise e => {| yielded := []; died := Some e |}
  end.

(** The generator, run for at most [fuel] polls from the poll number
    [tick]; [worlds k] is the outside world at the [k]-th poll.  The
    result is [None] when the child is still running after [fuel]
    polls. *)
Fixpoint monitor_loop (worlds : nat -> World) (process : Process)
    (log_file : option string) (fuel tick current_stage : nat)
  : option events :=
  match fuel with
  | O => None
  | S fuel' =>
      match poll process tick with
      | None =>
          match stages !! current_stage with
          | Some (progress, message) =>
              match stage_event (worlds tick) log_file current_stage
                      progress message with
              | Ok event =>
                  yield event
                    <$> monitor_loop worlds process log_file fuel' (S tick)
                          (S current_stage)
              | Raise e => Some {| yielded := []; died := Some e |}
              end
          | None =>
              monitor_loop worlds process log_file fuel' (S tick) current_stage
          end
      | Some return_code => Some (ending (worlds tick) return_code)
      end
  end.

Definition monitor_analysis_progress (worlds : nat -> World)
    (process : Process) (log_file : option string) (fuel : nat)
  : option events :=
  monitor_loop worlds process log_file fuel 0 0.

End StatusMonitor.
Export StatusMonitor.

(** ** shared/utils.py *)

Module Utils.

Definition get_absolute_path (w : World) (relative_path : string) : string :=
  joinpath w (shared_root w) relative_path.

Definition validate_sample_name (name : string) : bool * string :=
  if String.eqb name "" then
    (false, "Sample name cannot be empty")
  else if negb (isalnum (replace "_" "" name)) then
    (false, "Sample name must be alphanumeric (underscores allowed)")
  else if (50 <? String.length name)%nat then
    (false, "Sample name too long (max 50 characters)")
  else (true, "").

Definition find_latest_result (w : World) (sample_name results_dir : string)
  : res (option string) :=
  let results_path := get_absolute_path w results_dir in
  found ← path_exists w results_path;
  if negb found then mret None
  else
    let pattern := sample_name +:+ "_*" in
    matches ← glob w results_path pattern;
    latest ← py_max d_mtime matches;
    match latest with
    | Some latest => mret (Some (joinpath w results_path (d_name latest)))
    | None => mret None
    end.

End Utils.
Export Utils.

(** ** frontend/utils/validators.py *)

Module Validators.

(** The sample-name rule of [validate_parameters]: the errors it appends,
    or the [AttributeError] of calling [replace] on a value that is not a
    [str]. *)
Definition validate_parameters_sample_name (params : gmap string value)
  : res (list string) :=
  let errors : list string := [] in
  let sample_name := default (VStr "") (params !! "sample_name") in
  if negb (truthy sample_name) then
    mret (errors ++ ["Sample name is required"])
  else
    match sample_name with
    | VStr s =>
        if negb (isalnum (replace "_" "" s)) then
          mret (errors ++ ["Sample name must be alphanumeric (underscores allowed)"])
        else mret errors
    | _ =>
        Raise (PyError "AttributeError"
                 ("'" +:+ type_name sample_name
                  +:+ "' object has no attribute 'replace'"))
    end.

End Validators.
Export Validators.

(** ** Python operators on values *)

Module PyOps.

(** A value as a number: a rational, NaN ([Some None]), or not a number.
    A [bool] counts as 0 or 1. *)
Definition as_number (v : value) : option (option Q) :=
  match v with
  | VInt z => Some (Some (inject_Z z))
  | VBool b => Some (Some (if b then 1%Q else 0%Q))
  | VFloat (FNum q) => Some (Some q)
  | VFloat FNaN => Some None
  | _ => None
  end.

Definition Qlt_bool (a b : Q) : bool := negb (Qle_bool b a).

(** The [TypeError] of an ordering between two values that have none. *)
Definition not_supported (op : string) (a b : value) : exn :=
  PyError "TypeError"
    ("'" +:+ op +:+ "' not supported between instances of '" +:+ type_name a
     +:+ "' and '" +:+ type_name b +:+ "'").

(** [a < b], [a <= b] and [a > b]: numbers compare by value (a NaN
    compares false), strings in code-point order, and any other pair is a
    [TypeError]. *)
Definition py_lt (a b : value) : res bool :=
  match as_number a, as_number b with
  | Some (Some x), Some (Some y) => Ok (Qlt_bool x y)
  | Some _, Some _ => Ok false
  | _, _ =>
      match a, b with
      | VStr s, VStr t => Ok (String.ltb s t)
      | _, _ => Raise (not_supported "<" a b)
      end
  end.

Definition py_le (a b : value) : res bool :=
  match as_number a, as_number b with
  | Some (Some x), Some (Some y) => Ok (Qle_bool x y)
  | Some _, Some _ => Ok false
  | _, _ =>
      match a, b with
      | VStr s, VStr t => Ok (String.leb s t)
      | _, _ => Raise (not_supported "<=" a b)
      end
  end.

Definition py_gt (a b : value) : res bool :=
  match as_number a, as_number b with
  | Some (Some x), Some (Some y) => Ok (Qlt_bool y x)
  | Some _, Some _ => Ok false
  | _, _ =>
      match a, b with
      | VStr s, VStr t => Ok (String.ltb t s)
      | _, _ => Raise (not_supported ">" a b)
      end
  end.

(** [x or y] and [x and y] on conditions that may raise: the second is
    evaluated only when the first does not decide. *)
Definition py_or (x y : res bool) : res bool :=
  b ← x; if b : bool then mret true else y.

Definition py_and (x y : res bool) : res bool :=
  b ← x; if b : bool then y else mret false.

(** [v in ["hg20", "mm10"]]: only a [str] equals a [str]. *)
Definition in_strings (v : value) (l : list string) : bool :=
  match v with
  | VStr s => existsb (String.eqb s) l
  | _ => false
  end.

(** [key in container] for a [str] key: membership in a [dict], substring
    of a [str], and a [TypeError] on a value that is not iterable. *)
Definition py_contains (key : string) (container : value) : res bool :=
  match container with
  | VDict d => Ok (bool_decide (is_Some (d !! key)))
  | VStr s => Ok (contains key s)
  | _ =>
      Raise (PyError "TypeError"
               ("argument of type '" +:+ type_name container
                +:+ "' is not iterable"))
  end.

(** [container[key]] for a [str] key. *)
Definition py_getitem (container : value) (key : string) : res value :=
  match container with
  | VDict d => getitem d key
  | VStr _ =>
      Raise (PyError "TypeError" "string indices must be integers, not 'str'")
  | _ =>
      Raise (PyError "TypeError"
               ("'" +:+ type_name container +:+ "' object is not subscriptable"))
  end.

End PyOps.
Export PyOps.

(** ** shared/config.py *)

Module Config.

(** [merge_configs(base, override)], by recursion on the override: every
    key of the override is written into a copy of the base, two
    dictionaries under one key being merged in turn.  (An override that is
    not a dictionary has no [items()]; the function is typed for
    dictionaries and [merge_configs] below is only called on them.) *)
Fixpoint merge_into (override : value) (base : gmap string value)
    {struct override} : gmap string value :=
  match override with
  | VDict o =>
      map_fold (fun key v merged =>
        match merged !! key with
        | Some (VDict b) =>
            match v with
            | VDict _ => <[key := VDict (merge_into v b)]> merged
            | _ => <[key := v]> merged
            end
        | _ => <[key := v]> merged
        end) base o
  | _ => base
  end.

Definition merge_configs (base_config override_config : gmap string value)
  : gmap string value :=
  merge_into (VDict override_config) base_config.

Definition get_default_config : gmap string value :=
  {[ "input" := VDict {[ "file" := VStr "";
                         "separator" := VStr "tab";
                         "header" := VBool true;
                         "row_names" := VBool true ]};
     "output" := VDict {[ "directory" := VStr "backend/results";
                          "sample_name" := VStr "sample";
                          "timestamp" := VBool true ]};
     "copykat" := VDict {[ "genome" := VStr "hg20";
                           "cell_line" := VStr "no";
                           "ngene_chr" := VInt 5;
                           "LOW_DR" := VFloat (FNum (5 # 100));
                           "UP_DR" := VFloat (FNum (10 # 100));
                           "win_size" := VInt 25;
                           "KS_cut" := VFloat (FNum (1 # 10));
                           "distance" := VStr "euclidean";
                           "n_cores" := VInt 4;
                           "plot_genes" := VBool true ]};
     "quality_control" := VDict {[ "auto_filter" := VBool false;
                                   "min_genes_per_cell" := VInt 200;
                                   "min_umi_per_cell" := VInt 500;
                                   "max_mt_percent" := VInt 20;
                                   "min_cells_per_gene" := VInt 3 ]};
     "preprocessing" := VDict {[ "detect_log_transform" := VBool true;
                                 "convert_to_counts" := VBool true;
                                 "log_base" := VInt 2 ]} ]}.

(** [if key in section: if field not in section[key]: errors.append(msg)] *)
Definition require_field (config : gmap string value) (section field msg : string)
    (errors : list string) : res (list string) :=
  match config !! section with
  | Some s =>
      present ← py_contains field s;
      mret (if present : bool then errors else errors ++ [msg])
  | None => mret errors
  end.

(** [if key in copykat: if not (0.0 < copykat[key] <= 0.5): ...] *)
Definition check_rate (copykat : value) (key msg : string)
    (errors : list string) : res (list string) :=
  present ← py_contains key copykat;
  if present : bool then
    rate ← py_getitem copykat key;
    ok ← py_and (py_lt (VFloat (FNum 0)) rate) (py_le rate (VFloat (FNum (1 # 2))));
    mret (if ok : bool then errors else errors ++ [msg])
  else mret errors.

Definition validate_config (w : World) (config : gmap string value)
  : res (bool * list string) :=
  let errors : list string := [] in
  let errors :=
    fold_left (fun errors key =>
                 match config !! key with
                 | Some _ => errors
                 | None => errors ++ ["Missing required section: " +:+ key]
                 end)
      ["input"; "output"; "copykat"] errors in
  errors ← require_field config "input" "file"
             "Missing required field: input.file" errors;
  errors ← require_field config "output" "directory"
             "Missing required field: output.directory" errors;
  errors ← require_field config "output" "sample_name"
             "Missing required field: output.sample_name" errors;
  errors ←
    match config !! "copykat" with
    | Some copykat =>
        has_genome ← py_contains "genome" copykat;
        errors ←
          (if has_genome : bool then
             genome ← py_getitem copykat "genome";
             if in_strings genome ["hg20"; "mm10"] then mret errors
             else
               genome ← py_getitem copykat "genome";
               shown ← py_str w genome;
               mret (errors ++ ["Invalid genome: " +:+ shown])
           else mret errors);
        errors ← check_rate copykat "LOW_DR"
                   "LOW_DR must be between 0.0 and 0.5" errors;
        errors ← check_rate copykat "UP_DR"
                   "UP_DR must be between 0.0 and 0.5" errors;
        both ← py_and (py_contains "LOW_DR" copykat) (py_contains "UP_DR" copykat);
        if both : bool then
          up_dr ← py_getitem copykat "UP_DR";
          low_dr ← py_getitem copykat "LOW_DR";
          below ← py_lt up_dr low_dr;
          mret (if below : bool then errors ++ ["UP_DR must be >= LOW_DR"]
                else errors)
        else mret errors
    | None => mret errors
    end;
  mret (bool_decide (length errors = 0%nat), errors).

End Config.
Export Config.

(** ** frontend/utils/validators.py: [validate_parameters] as a whole *)

Module Validation.

(** [if cond: errors.append(msg)] *)
Definition append_if (cond : bool) (msg : string) (errors : list string)
  : list string :=
  if cond then errors ++ [msg] else errors.

(** [v < lo or v > hi] *)
Definition out_of_range (v lo hi : value) : res bool :=
  py_or (py_lt v lo) (py_gt v hi).

Definition validate_parameters (w : World) (params : gmap string value)
  : res (bool * list string) :=
  errors ← validate_parameters_sample_name params;
  let genome := default (VStr "") (params !! "genome") in
  errors ←
    (if negb (in_strings genome ["hg20"; "mm10"]) then
       shown ← py_str w genome;
       mret (errors ++ ["Invalid genome: " +:+ shown
                        +:+ ". Must be 'hg20' or 'mm10'"])
     else mret errors);
  let n_cores := default (VInt 0) (params !! "n_cores") in
  bad ← out_of_range n_cores (VInt 1) (VInt 64);
  let errors := append_if bad "n_cores must be between 1 and 64" errors in
  let low_dr := default (VInt 0) (params !! "low_dr") in
  let up_dr := default (VInt 0) (params !! "up_dr") in
  bad ← out_of_range low_dr (VFloat (FNum (1 # 100))) (VFloat (FNum (1 # 2)));
  let errors := append_if bad "LOW.DR must be between 0.01 and 0.5" errors in
  bad ← out_of_range up_dr (VFloat (FNum (1 # 100))) (VFloat (FNum (1 # 2)));
  let errors := append_if bad "UP.DR must be between 0.01 and 0.5" errors in
  bad ← py_lt up_dr low_dr;
  let errors := append_if bad "UP.DR must be >= LOW.DR" errors in
  let win_size := default (VInt 0) (params !! "win_size") in
  bad ← out_of_range win_size (VInt 10) (VInt 200);
  let errors := append_if bad "Window size must be between 10 and 200" errors in
  mret (bool_decide (length errors = 0%nat), errors).

End Validation.
Export Validation.

(** ** More of the outside world *)

Module Host.

(** The world with what the file helpers and the formatters ask besides:
    the names [Path(p).iterdir()] lists, [Path(p).is_dir()],
    [Path(p).is_file()] and the [st_mtime] of [Path(p).stat()], each with
    what it raises instead; [os.path.exists(p)], which answers [False]
    where the check fails and takes [p] as it is written, where [Path(p)]
    drops a trailing slash, so that it is a question of its own;
    [os.access(p, os.R_OK)] on a path that exists; and the rendering
    [f"{x:.1f}"] of a float. *)
Record Host := {
  host_world :> World;
  listdir : string -> res (list string);
  is_dir : string -> res bool;
  is_file : string -> res bool;
  os_path_exists : string -> bool;
  readable : string -> bool;
  path_mtime : string -> res Q;
  format1 : Q -> string
}.

(** [l.sort(key=key, reverse=True)]: the stable sort by decreasing key;
    elements with equal keys keep their order.  [insert_desc] puts an
    element before the first one whose key does not exceed its own. *)
Fixpoint insert_desc {A} (key : A -> Q) (x : A) (l : list A) : list A :=
  match l with
  | [] => [x]
  | y :: l' =>
      if Qle_bool (key y) (key x) then x :: l
      else y :: insert_desc key x l'
  end.

Definition sort_desc {A} (key : A -> Q) (l : list A) : list A :=
  fold_right (insert_desc key) [] l.

(** [s[:n]] for [n >= 0]. *)
Fixpoint take_chars (n : nat) (s : string) : string :=
  match n, s with
  | S n', String c s' => String c (take_chars n' s')
  | _, _ => EmptyString
  end.

(** [s[:k]] for any integer [k]: a negative [k] counts from the end. *)
Definition slice_to (k : Z) (s : string) : string :=
  if 0 <=? k then take_chars (Z.to_nat k) s
  else take_chars (Z.to_nat (Z.of_nat (String.length s) + k)) s.

End Host.
Export Host.

(** ** shared/utils.py: files and sizes *)

Module UtilsFiles.

Definition list_result_directories (h : Host) (results_dir : string)
  : res (list string) :=
  let results_path := get_absolute_path h results_dir in
  found ← path_exists h results_path;
  if negb found then mret []
  else
    names ← listdir h results_path;
    dirs ← filter_res (is_dir h) (map (joinpath h results_path) names);
    (* [list.sort] computes every key before it moves an element *)
    keys ← map_res (path_mtime h) dirs;
    mret (map snd (sort_desc fst (zip keys dirs))).

Definition validate_file_path (h : Host) (file_path : string)
  : res (bool * string) :=
  if String.eqb file_path "" then mret (false, "File path is empty")
  else
    found ← path_exists h file_path;
    if negb found then mret (false, "File not found: " +:+ file_path)
    else
      regular ← is_file h file_path;
      if negb regular then mret (false, "Path is not a file: " +:+ file_path)
      else if negb (readable h file_path) then
        mret (false, "File not readable: " +:+ file_path)
      else mret (true, "").

(** A size on its way through the loop: the [int] that came in, until the
    first division makes it a [float]. *)
Inductive size := SInt (z : Z) | SFloat (x : Q).

Definition size_value (n : size) : Q :=
  match n with SInt z => inject_Z z | SFloat x => x end.

(** The smallest integer too large for a float: it would round to
    [2^1024]. *)
Definition float_overflow : Z := 2 ^ 1024 - 2 ^ 970.

(** The conversion of the number to [float] that [n / 1024.0] and
    [f"{n:.1f}"] make: an [int] beyond the range of the floats is an
    [OverflowError]. *)
Definition to_float (n : size) : res Q :=
  match n with
  | SInt z =>
      if Z.abs z <? float_overflow then Ok (inject_Z z)
      else Raise (PyError "OverflowError" "int too large to convert to float")
  | SFloat x => Ok x
  end.

(** The loop the two size formatters share: divide by 1024 until the
    number is below 1024 or the units are used up. *)
Fixpoint size_loop (fmt : Q -> string) (units : list string) (last : string)
    (size_bytes : size) : res string :=
  match units with
  | [] => x ← to_float size_bytes; mret (fmt x +:+ " " +:+ last)
  | unit :: units' =>
      if Qlt_bool (size_value size_bytes) 1024 then
        x ← to_float size_bytes; mret (fmt x +:+ " " +:+ unit)
      else
        x ← to_float size_bytes;
        size_loop fmt units' last (SFloat (x / 1024))
  end.

Definition bytes_to_human_readable (h : Host) (size_bytes : Z) : res string :=
  size_loop (format1 h) ["B"; "KB"; "MB"; "GB"; "TB"] "PB" (SInt size_bytes).

End UtilsFiles.

(** ** frontend/utils/validators.py and formatters.py *)

Module Frontend.

Definition validate_file_path (h : Host) (file_path : string) : bool * string :=
  if String.eqb file_path "" then (false, "File path is empty")
  else if negb (os_path_exists h file_path) then
    (false, "File not found: " +:+ file_path)
  else if negb (readable h file_path) then
    (false, "File not readable: " +:+ file_path)
  else (true, "").

Definition format_file_size (h : Host) (size_bytes : Z) : res string :=
  UtilsFiles.size_loop (format1 h) ["B"; "KB"; "MB"; "GB"] "TB"
    (UtilsFiles.SInt size_bytes).

Definition truncate_text (text : string) (max_length : Z) : string :=
  if Z.of_nat (String.length text) <=? max_length then text
  else slice_to (max_length - 3) text +:+ "...".

End Frontend.

(** ** backend/api/result_parser.py: the whole results directory *)

Module Parsed.

(** The dictionary [parse_copykat_results] returns; its four keys are
    fixed, so it is a record. *)
Record results := {
  predictions : option DataFrame;
  cna_segments : option DataFrame;
  summary : gmap string value;
  file_paths : gmap string string
}.

Definition parse_cna_segments (w : World) (file_path : string) : res DataFrame :=
  match read_csv w file_path with
  | Ok df => Ok df
  | Raise e =>
      Raise (PyError "ValueError"
               ("Error parsing CNA segments file: " +:+ exc_str e))
  end.

(** [find_file(directory, pattern)]: the first match of the glob, as
    [str]. *)
Definition find_file (w : World) (directory pattern : string)
  : res (option string) :=
  matches ← glob w directory pattern;
  match matches with
  | d :: _ => mret (Some (joinpath w directory (d_name d)))
  | [] => mret None
  end.

Definition parse_copykat_results (w : World) (output_dir : string) : res results :=
  let output_path := output_dir in
  found ← path_exists w output_path;
  if negb found then
    Raise (PyError "ValueError" ("Output directory not found: " +:+ output_dir))
  else
    let file_paths : gmap string string := ∅ in
    predictions_file ← find_file w output_path "*_copykat_prediction.txt";
    '(predictions, file_paths) ←
      match predictions_file with
      | Some predictions_file =>
          df ← parse_predictions w predictions_file;
          mret (Some df, <["predictions" := predictions_file]> file_paths)
      | None => mret (None, file_paths)
      end;
    cna_file ← find_file w output_path "*_copykat_CNA_results.txt";
    '(cna_segments, file_paths) ←
      match cna_file with
      | Some cna_file =>
          df ← parse_cna_segments w cna_file;
          mret (Some df, <["cna_results" := cna_file]> file_paths)
      | None => mret (None, file_paths)
      end;
    heatmap_file ← find_file w output_path "*_copykat_heatmap.jpeg";
    let file_paths :=
      match heatmap_file with
      | Some heatmap_file => <["heatmap" := heatmap_file]> file_paths
      | None => file_paths
      end in
    report_file ← find_file w output_path "*_report.html";
    let file_paths :=
      match report_file with
      | Some report_file => <["report" := report_file]> file_paths
      | None => file_paths
      end in
    let log_file := joinpath w (joinpath w output_path "logs") "analysis.log" in
    log_found ← path_exists w log_file;
    let file_paths :=
      if log_found : bool then <["log" := log_file]> file_paths
      else file_paths in
    summary ←
      match predictions with
      | Some df => generate_summary df
      | None => mret ∅
      end;
    mret {| predictions := predictions;
            cna_segments := cna_segments;
            summary := summary;
            file_paths := file_paths |}.

(** *** The chromosome summary *)

(** [a == b] on cells: a missing value equals nothing. *)
Definition cell_eq (a b : cell) : bool :=
  match a, b with
  | CNum x, CNum y => Qeq_bool x y
  | CStr s, CStr t => String.eqb s t
  | _, _ => false
  end.

(** The same value for [unique()]: as [cell_eq], and missing values count
    as one value. *)
Definition cell_same (a b : cell) : bool :=
  match a, b with
  | CNaN, CNaN => true
  | _, _ => cell_eq a b
  end.

(** [series.unique()]: the distinct values in order of first
    appearance. *)
Fixpoint unique (series : list cell) : list cell :=
  match series with
  | [] => []
  | x :: series' => x :: filter (fun y => cell_same x y = false) (unique series')
  end.

Record chrom_info := {
  mean_copy_number : pyfloat;
  status : string;
  n_segments : Z
}.

(** [df[df[name] == v]]: the rows whose cell in the column is [v]. *)
Definition rows_where (name : string) (v : cell) (df : DataFrame) : DataFrame :=
  match column_index name (df_columns df) with
  | Some j =>
      {| df_columns := df_columns df;
         df_rows := filter (fun row => cell_eq (nth j row CNaN) v = true)
                      (df_rows df) |}
  | None => {| df_columns := df_columns df; df_rows := [] |}
  end.

(** [x > bound] and [x < bound] on a float: false on NaN. *)
Definition float_gt (x : pyfloat) (bound : Q) : bool :=
  match x with FNum q => Qlt_bool bound q | FNaN => false end.

Definition float_lt (x : pyfloat) (bound : Q) : bool :=
  match x with FNum q => Qlt_bool q bound | FNaN => false end.

Definition classify (mean_cn : pyfloat) : string :=
  if float_gt mean_cn (23 # 10) then "Amplified"
  else if float_lt mean_cn (17 # 10) then "Deleted"
  else "Normal".

(** The body of the loop for one chromosome; the summary is the
    dictionary as the list of its items in insertion order (the keys are
    distinct values of the column). *)
Definition summarize_chromosome (cna_segments : DataFrame) (chrom : cell)
    (summary : list (cell * chrom_info)) : res (list (cell * chrom_info)) :=
  let chrom_data := rows_where "chrom" chrom cna_segments in
  if has_column "copyNumber" chrom_data then
    mean_cn ← mean (column "copyNumber" chrom_data);
    mret (summary ++ [(chrom, {| mean_copy_number := mean_cn;
                                 status := classify mean_cn;
                                 n_segments := len chrom_data |})])
  else mret summary.

Fixpoint summarize_chromosomes (cna_segments : DataFrame) (chroms : list cell)
    (summary : list (cell * chrom_info)) : res (list (cell * chrom_info)) :=
  match chroms with
  | [] => mret summary
  | chrom :: chroms' =>
      summary ← summarize_chromosome cna_segments chrom summary;
      summarize_chromosomes cna_segments chroms' summary
  end.

Definition extract_chromosome_summary (cna_segments : DataFrame)
  : res (list (cell * chrom_info)) :=
  let summary := [] in
  if negb (has_column "chrom" cna_segments) then mret summary
  else
    summarize_chromosomes cna_segments
      (unique (column "chrom" cna_segments)) summary.

End Parsed.

(** ** Scenarios: concrete worlds, inputs and tables *)

Module Scenario.

(** A world with an empty file system whose child exits with [returncode]
    and writes [stderr]. *)
Definition world_exiting (returncode : Z) (stderr : string) : World :=
  {| repr_float := fun _ => "0.05";
     repr_dict := fun _ => Ok "{}";
     executor_root := "/srv/app";
     shared_root := "/srv/app";
     joinpath := fun a b => a +:+ "/" +:+ b;
     path_exists := fun _ => Ok false;
     scandir := fun _ => [];
     glob_other := fun _ _ => Ok [];
     read_csv := fun _ => Raise (PyError "FileNotFoundError" "No such file or directory");
     readlines := fun _ => Raise (PyError "FileNotFoundError" "No such file or directory");
     spawn := fun _ _ => Exited returncode "" stderr;
     now := fun k => {| dt_seconds := inject_Z (Z.of_nat k) * 120; dt_iso := "2024-01-15T10:00:00" |} |}.

(** The same world with the listing [entries] for every directory, all
    paths existing. *)
Definition world_listing (entries : list dirent) : World :=
  {| repr_float := fun _ => "0.05";
     repr_dict := fun _ => Ok "{}";
     executor_root := "/srv/app";
     shared_root := "/srv/app";
     joinpath := fun a b => a +:+ "/" +:+ b;
     path_exists := fun _ => Ok true;
     scandir := fun _ => entries;
     glob_other := fun _ _ => Ok [];
     read_csv := fun _ => Raise (PyError "ParserError" "Error tokenizing data");
     readlines := fun _ => Ok [];
     spawn := fun _ _ => Exited 0 "" "";
     now := fun k => {| dt_seconds := inject_Z (Z.of_nat k) * 120; dt_iso := "2024-01-15T10:00:00" |} |}.

(** A world in which every path exists and every table reads as [df]. *)
Definition world_table (df : DataFrame) : World :=
  {| repr_float := fun _ => "0.05";
     repr_dict := fun _ => Ok "{}";
     executor_root := "/srv/app";
     shared_root := "/srv/app";
     joinpath := fun a b => a +:+ "/" +:+ b;
     path_exists := fun _ => Ok true;
     scandir := fun _ => [];
     glob_other := fun _ _ => Ok [];
     read_csv := fun _ => Ok df;
     readlines := fun _ => Ok [];
     spawn := fun _ _ => Exited 0 "" "";
     now := fun k => {| dt_seconds := inject_Z (Z.of_nat k) * 120; dt_iso := "2024-01-15T10:00:00" |} |}.

Definition params_required : gmap string value :=
  {[ "input_file" := VStr "data/sample.txt.gz";
     "sample_name" := VStr "sample_001";
     "output_dir" := VStr "results";
     "genome" := VStr "hg20" ]}.

Definition params_no_genome : gmap string value :=
  {[ "input_file" := VStr "data/sample.txt.gz";
     "output_dir" := VStr "results" ]}.

Definition params_plot_genes : gmap string value :=
  <["plot_genes" := VBool true]> params_required.

Definition params_cores : gmap string value :=
  <["n_cores" := VInt 4]> params_required.


(** The predictions table of the design document's scenario. *)
Definition table_three_cells : DataFrame :=
  {| df_columns := ["cell.names"; "copykat.pred"; "copykat.confidence"];
     df_rows := [ [CStr "cell1"; CStr "aneuploid"; CNum (9 # 10)];
                  [CStr "cell2"; CStr "diploid"; CNum (8 # 10)];
                  [CStr "cell3"; CStr "aneuploid"; CNum (95 # 100)] ] |}.

(** The same cells without the confidence column. *)
Definition table_no_confidence : DataFrame :=
  {| df_columns := ["cell.names"; "copykat.pred"];
     df_rows := [ [CStr "cell1"; CStr "aneuploid"];
                  [CStr "cell2"; CStr "diploid"];
                  [CStr "cell3"; CStr "aneuploid"] ] |}.

(** A header and no row. *)
Definition table_empty : DataFrame :=
  {| df_columns := ["cell.names"; "copykat.pred"; "copykat.confidence"];
     df_rows := [] |}.

(** A child that is alive for its first [alive] polls and then has
    returned [returncode]. *)
Definition process_ending (alive : nat) (returncode : Z) : Process :=
  {| poll := fun k => if (k <? alive)%nat then None else Some returncode |}.

(** Two runs of one sample, the later one modified later. *)
Definition listing_two_runs : list dirent :=
  [ {| d_name := "sampleA_20240101"; d_mtime := Ok 1704067200%Q |};
    {| d_name := "sampleA_20240115"; d_mtime := Ok 1705276800%Q |} ].

(** Two runs of one sample with the same modification time. *)
Definition listing_tie : list dirent :=
  [ {| d_name := "sampleA_run1"; d_mtime := Ok 1704067200%Q |};
    {| d_name := "sampleA_run2"; d_mtime := Ok 1704067200%Q |} ].

(** A run and a dangling symbolic link that matches the sample. *)
Definition listing_dangling : list dirent :=
  [ {| d_name := "sampleA_20240101"; d_mtime := Ok 1704067200%Q |};
    {| d_name := "sampleA_link";
       d_mtime := Raise (PyError "FileNotFoundError"
                    "[Errno 2] No such file or directory: 'results/sampleA_link'") |} ].

(** A directory of another sample. *)
Definition listing_other : list dirent :=
  [ {| d_name := "ab_1"; d_mtime := Ok 1704067200%Q |} ].

(** The name "caf" followed by U+00E9, e with acute accent. *)
Definition name_with_accent : string := "caf" +:+ String "233" "".

(** A name of 52 letters. *)
Definition name_too_long : string :=
  "abcdefghijklmnopqrstuvwxyzabcdefghijklmnopqrstuvwxyz".

(** The required parameters for the sample [sampleA]. *)
Definition params_sampleA : gmap string value :=
  {[ "input_file" := VStr "data/sampleA.txt.gz";
     "sample_name" := VStr "sampleA";
     "output_dir" := VStr "results";
     "genome" := VStr "hg20" ]}.

(** A world without the engine: the child cannot be started. *)
Definition world_no_engine : World :=
  {| repr_float := fun _ => "0.05";
     repr_dict := fun _ => Ok "{}";
     executor_root := "/srv/app";
     shared_root := "/srv/app";
     joinpath := fun a b => a +:+ "/" +:+ b;
     path_exists := fun _ => Ok false;
     scandir := fun _ => [];
     glob_other := fun _ _ => Ok [];
     read_csv := fun _ => Raise (PyError "FileNotFoundError" "No such file or directory");
     readlines := fun _ => Raise (PyError "FileNotFoundError" "No such file or directory");
     spawn := fun _ _ =>
       NotStarted (PyError "FileNotFoundError"
                       "[Errno 2] No such file or directory: 'Rscript'");
     now := fun k => {| dt_seconds := inject_Z (Z.of_nat k) * 120; dt_iso := "2024-01-15T10:00:00" |} |}.



(** A log of twelve lines: two tagged lines among the first two, one
    among the last ten. *)
Definition log_twelve_lines : list string :=
  [ "copykat: STEP: Reading matrix";
    "copykat: INFO: 400 cells";
    "a"; "b"; "c"; "d"; "e";
    "copykat: STEP:   Smoothing  ";
    "f"; "g"; "h"; "i" ].

(** A world whose every file reads as the lines [lines]. *)
Definition world_log (lines : list string) : World :=
  {| repr_float := fun _ => "0.05";
     repr_dict := fun _ => Ok "{}";
     executor_root := "/srv/app";
     shared_root := "/srv/app";
     joinpath := fun a b => a +:+ "/" +:+ b;
     path_exists := fun _ => Ok true;
     scandir := fun _ => [];
     glob_other := fun _ _ => Ok [];
     read_csv := fun _ => Raise (PyError "ParserError" "Error tokenizing data");
     readlines := fun _ => Ok lines;
     spawn := fun _ _ => Exited 0 "" "";
     now := fun k => {| dt_seconds := inject_Z (Z.of_nat k) * 120; dt_iso := "2024-01-15T10:00:00" |} |}.

(** An override of two fields of the [copykat] section. *)
Definition override_cores : gmap string value :=
  {[ "copykat" := VDict {[ "n_cores" := VInt 8; "genome" := VStr "mm10" ]} ]}.

(** The parameters of the configuration form, the detection rates in the
    wrong order. *)
Definition params_form_rates_swapped : gmap string value :=
  {[ "sample_name" := VStr "sample_001";
     "genome" := VStr "hg20";
     "n_cores" := VInt 4;
     "low_dr" := VFloat (FNum (10 # 100));
     "up_dr" := VFloat (FNum (5 # 100));
     "win_size" := VInt 25 ]}.

(** The same parameters, the rates in order. *)
Definition params_form : gmap string value :=
  {[ "sample_name" := VStr "sample_001";
     "genome" := VStr "hg20";
     "n_cores" := VInt 4;
     "low_dr" := VFloat (FNum (5 # 100));
     "up_dr" := VFloat (FNum (10 # 100));
     "win_size" := VInt 25 ]}.

(** A host over the listing [entries] in which every path is a readable
    directory, modified at the time its entry says. *)
Definition host_listing (entries : list dirent) : Host :=
  {| host_world := world_listing entries;
     listdir := fun _ => Ok (map d_name entries);
     is_dir := fun _ => Ok true;
     is_file := fun _ => Ok false;
     os_path_exists := fun _ => true;
     readable := fun _ => true;
     path_mtime := fun p =>
       from_option d_mtime (Ok 0%Q)
         (List.find (fun d => String.eqb ("/srv/app/backend/results/" +:+ d_name d) p)
            entries);
     format1 := fun _ => "" |}.

(** A host in which every path is a readable regular file. *)
Definition host_regular_files : Host :=
  {| host_world := world_listing [];
     listdir := fun _ => Raise (PyError "NotADirectoryError" "[Errno 20] Not a directory");
     is_dir := fun _ => Ok false;
     is_file := fun _ => Ok true;
     os_path_exists := fun _ => true;
     readable := fun _ => true;
     path_mtime := fun _ => Ok 0%Q;
     format1 := fun _ => "" |}.

(** Segments of two chromosomes, one of them without a name. *)
Definition table_segments : DataFrame :=
  {| df_columns := ["chrom"; "start"; "end"; "copyNumber"];
     df_rows := [ [CNum 1; CNum 100; CNum 200; CNum (25 # 10)];
                  [CNum 2; CNum 100; CNum 200; CNum (15 # 10)];
                  [CNum 1; CNum 300; CNum 400; CNum (27 # 10)];
                  [CNaN; CNum 300; CNum 400; CNum 2] ] |}.

(** A results directory with a predictions file that does not parse. *)
Definition listing_results : list dirent :=
  [ {| d_name := "sampleA_copykat_prediction.txt"; d_mtime := Ok 1705276800%Q |};
    {| d_name := "sampleA_copykat_heatmap.jpeg"; d_mtime := Ok 1705276800%Q |} ].

(** The same directory in a world where every table reads as the
    three-cell predictions table. *)
Definition world_results : World :=
  {| repr_float := fun _ => "0.05";
     repr_dict := fun _ => Ok "{}";
     executor_root := "/srv/app";
     shared_root := "/srv/app";
     joinpath := fun a b => a +:+ "/" +:+ b;
     path_exists := fun _ => Ok true;
     scandir := fun _ => listing_results;
     glob_other := fun _ _ => Ok [];
     read_csv := fun _ => Ok table_three_cells;
     readlines := fun _ => Ok [];
     spawn := fun _ _ => Exited 0 "" "";
     now := fun k => {| dt_seconds := inject_Z (Z.of_nat k) * 120; dt_iso := "2024-01-15T10:00:00" |} |}.

End Scenario.
Export Scenario.

(** ** The vocabulary of the statements *)

Module Statement.


(** The optional keys [build_r_command] forwards: the key, its command-line
    flag, and whether the value goes through [str]. *)
Definition optional_arguments : list (string * string * bool) :=
  [ ("ngene_chr", "--ngene_chr", true);
    ("win_size", "--win_size", true);
    ("n_cores", "--cores", true);
    ("LOW_DR", "--low_dr", true);
    ("UP_DR", "--up_dr", true);
    ("KS_cut", "--ks_cut", true);
    ("distance", "--distance", false);
    ("cell_line", "--cell_line", false) ].

(** The arguments one optional key contributes: its flag and value when
    the key is in the dictionary, nothing otherwise; or what [str] raises
    on the value. *)
Definition argument_for (w : World) (params : gmap string value)
    (opt : string * string * bool) : res (list value) :=
  let '(key, flag, through_str) := opt in
  match params !! key with
  | Some v =>
      if through_str then
        match py_str w v with
        | Ok s => Ok [VStr flag; VStr s]
        | Raise e => Raise e
        end
      else Ok [VStr flag; v]
  | None => Ok []
  end.

(** The arguments of the optional keys [opts], in order; the first [str]
    that raises ends them. *)
Fixpoint arguments_for (w : World) (params : gmap string value)
    (opts : list (string * string * bool)) : res (list value) :=
  match opts with
  | [] => Ok []
  | opt :: opts' =>
      match argument_for w params opt with
      | Ok arguments =>
          match arguments_for w params opts' with
          | Ok more => Ok (arguments ++ more)
          | Raise e => Raise e
          end
      | Raise e => Raise e
      end
  end.

(** A sample name without the characters that are special in a glob
    pattern or separate path components. *)
Definition glob_literal (s : string) : bool :=
  str_all (fun c => negb (Ascii.eqb c "*" || Ascii.eqb c "?"
                          || Ascii.eqb c "[" || Ascii.eqb c "/")) s.

(** The entries of [dir] whose name starts with [sample_name + "_"], in
    listing order. *)
Definition candidates (w : World) (dir sample_name : string) : list dirent :=
  filter (fun e => String.prefix (sample_name +:+ "_") (d_name e) = true)
    (scandir w dir).

(** The entry [x] was modified before the time [t] (or not after it). *)
Definition modified_before (t : Q) (x : dirent) : Prop :=
  ∃ tx, d_mtime x = Ok tx ∧ (tx < t)%Q.

Definition modified_by (t : Q) (x : dirent) : Prop :=
  ∃ tx, d_mtime x = Ok tx ∧ (tx <= t)%Q.

(** [e] is the entry of [l] with the greatest modification time and, among
    the entries with that time, the one listed first. *)
Definition most_recent_first (l : list dirent) (e : dirent) : Prop :=
  ∃ before after t,
    l = before ++ e :: after
    ∧ d_mtime e = Ok t
    ∧ (∀ x, x ∈ before → modified_before t x)
    ∧ (∀ x, x ∈ after → modified_by t x).

(** The first entry of [l] whose [stat()] raises, with what it raises. *)
Fixpoint first_stat_error (l : list dirent) : option exn :=
  match l with
  | [] => None
  | x :: l' =>
      match d_mtime x with
      | Raise e => Some e
      | Ok _ => first_stat_error l'
      end
  end.

(** What a locator does in the directory [dir] for the sample
    [sample_name], as a relation to its result: it raises what the
    existence check of the directory raises; it returns nothing when the
    directory is missing or has no candidate; it raises what [stat()]
    raises on the first candidate on which it does; and otherwise it
    returns the most recent candidate, the first listed among equals. *)
Definition located (w : World) (dir sample_name : string)
    (result : res (option string)) : Prop :=
  match path_exists w dir with
  | Raise e => result = Raise e
  | Ok false => result = Ok None
  | Ok true =>
      match first_stat_error (candidates w dir sample_name) with
      | Some e => result = Raise e
      | None =>
          match candidates w dir sample_name with
          | [] => result = Ok None
          | _ =>
              ∃ e, most_recent_first (candidates w dir sample_name) e
                   ∧ result = Ok (Some (joinpath w dir (d_name e)))
          end
      end
  end.

(** A character of the class [[A-Za-z0-9_]]. *)
Definition word_char (c : ascii) : bool :=
  in_range 48 57 c || in_range 65 90 c || in_range 97 122 c || Ascii.eqb c "_".

(** A string that matches [[A-Za-z0-9_]+] and has at most 50 characters:
    the rule as the design document words it. *)
Definition matches_word_rule (name : string) : bool :=
  negb (String.eqb name "") && str_all word_char name
  && (String.length name <=? 50)%nat.

(** A character Python calls alphanumeric, or an underscore. *)
Definition name_char (c : ascii) : bool := char_isalnum c || Ascii.eqb c "_".

(** A string with a character other than the underscore. *)
Definition has_non_underscore (name : string) : bool :=
  negb (str_all (fun c => Ascii.eqb c "_") name).

Definition is_ascii (c : ascii) : bool := (code c <? 128)%N.

(** The order in which [build_r_command] reads the required keys. *)
Definition build_order : list string :=
  ["input_file"; "output_dir"; "sample_name"; "genome"].

(** An existence check that answers yes. *)
Definition answers_true (r : res bool) : bool :=
  match r with Ok true => true | _ => false end.

(** The path [locate_output_files] expects for a kind of output file. *)
Definition expected_path (w : World) (output_dir sample : string)
    (kind : string) : option string :=
  if String.eqb kind "predictions" then
    Some (joinpath w output_dir (sample +:+ "_copykat_prediction.txt"))
  else if String.eqb kind "cna_results" then
    Some (joinpath w output_dir (sample +:+ "_copykat_CNA_results.txt"))
  else if String.eqb kind "heatmap" then
    Some (joinpath w output_dir (sample +:+ "_copykat_heatmap.jpeg"))
  else if String.eqb kind "log" then
    Some (joinpath w (joinpath w output_dir "logs") "analysis.log")
  else if String.eqb kind "report" then
    Some (joinpath w output_dir (sample +:+ "_report.html"))
  else None.

(** The message one log line yields: the third colon-separated field,
    stripped, of a line tagged [STEP] or [INFO]. *)
Definition progress_line (line : string) : option string :=
  if contains "STEP" line || contains "INFO" line then
    match split ":" 2 line with
    | _ :: _ :: part :: _ => Some (strip part)
    | _ => None
    end
  else None.

(** The six checkpoints of the monitor: the progress value and the canned
    label of each. *)
Definition checkpoints : list (Q * string) :=
  [ (1 # 10, "Loading and validating data...");
    (2 # 10, "Quality control assessment...");
    (3 # 10, "Preprocessing data...");
    (4 # 10, "Running CopyKAT analysis...");
    (9 # 10, "Processing results...");
    (1, "Complete!") ]%Q.

(** The event of the checkpoint number [i] (from 0), made in the world
    [w] with the message [message]. *)
Definition checkpoint_event (w : World) (i : nat) (progress : Q)
    (message : string) : gmap string value :=
  {[ "progress" := VFloat (FNum progress);
     "message" := VStr message;
     "stage" := VStr ("Stage " +:+ string_of_Z (Z.of_nat i + 1) +:+ "/6");
     "complete" := VBool false;
     "timestamp" := VStr (dt_iso (now w 0)) ]}.

(** The events of the checkpoints [l], numbered from [i], the [k]-th made
    at the [k]-th poll with the message [messages k]. *)
Fixpoint checkpoint_events (worlds : nat -> World) (messages : nat -> string)
    (i : nat) (l : list (Q * string)) : list (gmap string value) :=
  match l with
  | [] => []
  | (progress, _) :: l' =>
      checkpoint_event (worlds i) i progress (messages i)
      :: checkpoint_events worlds messages (S i) l'
  end.


(** The numeral of [z] has no more digits than [str] accepts. *)
Definition printable (z : Z) : bool :=
  Z.of_nat (String.length (string_of_Z (Z.abs z))) <=? int_max_str_digits.

(** The event that reports the end of a child with return code [rc]. *)
Definition completion_event (w : World) (rc : Z) : gmap string value :=
  if rc =? 0 then
    {[ "progress" := VFloat (FNum 1);
       "message" := VStr "Analysis completed successfully!";
       "stage" := VStr "Complete";
       "complete" := VBool true;
       "success" := VBool true;
       "timestamp" := VStr (dt_iso (now w 0)) ]}
  else
    {[ "progress" := VFloat (FNum 0);
       "message" := VStr ("Analysis failed with code " +:+ string_of_Z rc);
       "stage" := VStr "Error";
       "complete" := VBool true;
       "success" := VBool false;
       "error_code" := VInt rc;
       "timestamp" := VStr (dt_iso (now w 0)) ]}.

(** The number of constructors of a value, dictionaries counted with their
    members: the measure of the inductions over nested dictionaries. *)
Fixpoint value_size (v : value) : nat :=
  match v with
  | VDict d => S (map_fold (fun _ x acc => (value_size x + acc)%nat) 0%nat d)
  | _ => 1%nat
  end.

(** What [merge_configs] leaves under one key, from what the two
    dictionaries hold there. *)
Definition merged_entry (base override : option value) : option value :=
  match override with
  | None => base
  | Some v =>
      match base with
      | Some (VDict b) =>
          match v with
          | VDict o => Some (VDict (merge_configs b o))
          | _ => Some v
          end
      | _ => Some v
      end
  end.
(** The errors [validate_config] starts with: one for each required
    section the configuration lacks. *)
Definition missing_sections (config : gmap string value) : list string :=
  fold_left (fun errors key =>
               match config !! key with
               | Some _ => errors
               | None => errors ++ ["Missing required section: " +:+ key]
               end)
    ["input"; "output"; "copykat"] [].

(** A message [validate_config] can add after the section check. *)
Definition field_message (m : string) : Prop :=
  m = "Missing required field: input.file"
  ∨ m = "Missing required field: output.directory"
  ∨ m = "Missing required field: output.sample_name"
  ∨ (∃ s, m = "Invalid genome: " +:+ s)
  ∨ m = "LOW_DR must be between 0.0 and 0.5"
  ∨ m = "UP_DR must be between 0.0 and 0.5"
  ∨ m = "UP_DR must be >= LOW_DR".

(** Every step of [validate_config] after the section check keeps the
    errors it has and adds only messages about fields. *)
Definition extends_with_fields (errors errors' : list string) : Prop :=
  ∃ more, errors' = errors ++ more ∧ Forall field_message more.

(** A value that passes the range check [lo <= v <= hi] of
    [validate_parameters]: a number of the range, or a NaN, which no
    comparison rejects. *)
Definition within (v : value) (lo hi : Q) : bool :=
  match as_number v with
  | Some (Some q) => Qle_bool lo q && Qle_bool q hi
  | Some None => true
  | None => false
  end.

(** Two numbers of which the first is not below the second. *)
Definition not_below (up low : value) : bool :=
  match as_number up, as_number low with
  | Some (Some x), Some (Some y) => Qle_bool y x
  | Some _, Some _ => true
  | _, _ => false
  end.

(** The keys [validate_parameters] reads. *)
Definition validated_keys : list string :=
  ["sample_name"; "genome"; "n_cores"; "low_dr"; "up_dr"; "win_size"].

(** [a] may stand before [b] in a list sorted by decreasing key. *)
Definition key_desc {A} (key : A -> Q) (a b : A) : Prop :=
  (key b <= key a)%Q.

(** [a] may stand before [b] in a list of paths sorted by decreasing
    modification time: both have one, and that of [b] is not the later. *)
Definition modified_desc (h : Host) (a b : string) : Prop :=
  ∃ t u, path_mtime h a = Ok t ∧ path_mtime h b = Ok u ∧ (u <= t)%Q.

(** The number [size_bytes] divided [k] times by 1024. *)
Fixpoint scaled (k : nat) (size_bytes : Q) : Q :=
  match k with
  | O => size_bytes
  | S k' => scaled k' (size_bytes / 1024)
  end.

(** A missing cell. *)
Definition cell_missing (c : cell) : bool :=
  match c with CNaN => true | _ => false end.

(** How many cells of a series equal [u]. *)
Definition count_equal (u : cell) (series : list cell) : nat :=
  length (filter (fun c => Parsed.cell_eq c u = true) series).

(** How many cells of a series are not missing. *)
Definition count_present (series : list cell) : nat :=
  length (filter (fun c => cell_missing c = false) series).

(** The sum of the [n_segments] of a chromosome summary. *)
Definition segments_total (summary : list (cell * Parsed.chrom_info)) : Z :=
  fold_right (fun item acc => Parsed.n_segments item.2 + acc) 0 summary.

(** The sum over the keys [us] of the number of cells equal to each. *)
Fixpoint count_total (us l : list cell) : nat :=
  match us with
  | [] => 0%nat
  | u :: us' => (count_equal u l + count_total us' l)%nat
  end.

End Statement.
Export Statement.

(** * Properties *)

(** ** The orchestrator: [run_copykat_analysis] *)

Lemma first_missing_split (keys : list string) (params : gmap string value) k :
  k ∈ keys → params !! k = None →
  ∃ before param after,
    keys = before ++ param :: after
    ∧ (∀ k', k' ∈ before → is_Some (params !! k'))
    ∧ params !! param = None
    ∧ first_missing keys params = Some param.
Proof.
  induction keys as [|key keys IH]; intros Hin Hk.
  - by apply elem_of_nil in Hin.
  - simpl. destruct (params !! key) as [v|] eqn:Hkey.
    + apply elem_of_cons in Hin as [->|Hin]; [congruence|].
      destruct (IH Hin Hk) as (before & param & after & -> & Hb & Hp & Hf).
      exists (key :: before), param, after. repeat split; auto.
      intros k' [->|Hk']%elem_of_cons; eauto.
    + exists [], key, keys. repeat split; auto.
      intros k' Hk'. by apply elem_of_nil in Hk'.
Qed.

Lemma first_missing_none (keys : list string) (params : gmap string value) :
  first_missing keys params = None ↔ ∀ k, k ∈ keys → is_Some (params !! k).
Proof.
  induction keys as [|key keys IH]; simpl.
  - split; [intros _ k Hk; by apply elem_of_nil in Hk|done].
  - destruct (params !! key) as [v|] eqn:Hkey.
    + rewrite IH. split.
      * intros H k [->|Hk]%elem_of_cons; eauto.
      * intros H k Hk. apply H. by right.
    + split; [done|]. intros H.
      destruct (H key) as [v Hv]; [by left|congruence].
Qed.

(** C10: when a required key is absent, the result is the failure
    dictionary naming the first absent key in the order [input_file],
    [sample_name], [output_dir], [genome], with [runtime_minutes] 0 and
    empty [files] and [summary], and no child process has been started. *)
Theorem missing_required_parameter (w : World) (params : gmap string value) k :
  k ∈ required_params → params !! k = None →
  ∃ before param after,
    ["input_file"; "sample_name"; "output_dir"; "genome"]
      = before ++ param :: after
    ∧ (∀ k', k' ∈ before → is_Some (params !! k'))
    ∧ params !! param = None
    ∧ run_copykat_analysis w params =
        (Ok {[ "success" := VBool false;
               "error" := VStr ("Missing required parameter: " +:+ param);
               "output_dir" := VNone;
               "files" := VDict ∅;
               "summary" := VDict ∅;
               "runtime_minutes" := VInt 0 ]},
         []).
Proof.
  intros Hin Hk.
  destruct (first_missing_split _ _ _ Hin Hk)
    as (before & param & after & Heq & Hb & Hp & Hf).
  exists before, param, after. repeat split; auto.
  unfold run_copykat_analysis. by rewrite Hf.
Qed.

Lemma missing_required_parameter_witness :
  ∃ before param after,
    ["input_file"; "sample_name"; "output_dir"; "genome"]
      = before ++ param :: after
    ∧ (∀ k', k' ∈ before → is_Some (params_no_genome !! k'))
    ∧ params_no_genome !! param = None
    ∧ run_copykat_analysis (world_exiting 0 "") params_no_genome =
        (Ok {[ "success" := VBool false;
               "error" := VStr ("Missing required parameter: " +:+ param);
               "output_dir" := VNone;
               "files" := VDict ∅;
               "summary" := VDict ∅;
               "runtime_minutes" := VInt 0 ]},
         []).
Proof.
  apply (missing_required_parameter (world_exiting 0 "") params_no_genome "genome").
  - unfold required_params. set_solver.
  - reflexivity.
Defined.

Lemma build_order_present (params : gmap string value) :
  first_missing build_order params = None →
  ∃ input_file output_dir sample_name genome,
    params !! "input_file" = Some input_file
    ∧ params !! "output_dir" = Some output_dir
    ∧ params !! "sample_name" = Some sample_name
    ∧ params !! "genome" = Some genome.
Proof.
  unfold build_order. cbn [first_missing].
  destruct (params !! "input_file") as [v1|]; [|done].
  destruct (params !! "output_dir") as [v2|]; [|done].
  destruct (params !! "sample_name") as [v3|]; [|done].
  destruct (params !! "genome") as [v4|]; [|done].
  intros _. by exists v1, v2, v3, v4.
Qed.

Lemma required_build_order (params : gmap string value) :
  first_missing required_params params = None
  ↔ first_missing build_order params = None.
Proof.
  rewrite !first_missing_none. unfold required_params, build_order.
  split; intros H k Hk; apply H; apply list_elem_of_In in Hk;
    apply list_elem_of_In; cbn in *; intuition.
Qed.

Lemma extend_if_present_argument w (params : gmap string value) key flag command :
  extend_if_present params key flag (fun v => VStr <$> py_str w v) command
    = app command <$> argument_for w params (key, flag, true)
  ∧ extend_if_present params key flag mret command
    = app command <$> argument_for w params (key, flag, false).
Proof.
  unfold extend_if_present, argument_for.
  destruct (params !! key) as [v|]; cbn; [|by rewrite app_nil_r].
  by destruct (py_str w v).
Qed.

(** With the four required keys in the dictionary the command is the
    fixed part followed by the arguments of the optional keys, or what the
    first [str] that raises raises. *)
Lemma build_r_command_required (w : World) script
    (params : gmap string value) input_file output_dir sample_name genome :
  params !! "input_file" = Some input_file →
  params !! "output_dir" = Some output_dir →
  params !! "sample_name" = Some sample_name →
  params !! "genome" = Some genome →
  build_r_command w script params =
    app [VStr "Rscript"; VStr script;
         VStr "--input"; input_file; VStr "--output"; output_dir;
         VStr "--name"; sample_name; VStr "--genome"; genome]
      <$> arguments_for w params optional_arguments.
Proof.
  intros Hi Ho Hn Hg.
  unfold build_r_command, getitem. rewrite Hi, Ho, Hn, Hg.
  cbn [mbind res_bind app].
  rewrite !(proj1 (extend_if_present_argument w params _ _ _)).
  unfold optional_arguments. cbn [arguments_for].
  repeat match goal with
         | |- context [argument_for w params (?k, ?f, true)] =>
             destruct (argument_for w params (k, f, true)) as [?|?];
             cbn [fmap res_fmap mbind res_bind]; [|reflexivity];
             rewrite ?(proj1 (extend_if_present_argument w params _ _ _))
         end.
  rewrite !(proj2 (extend_if_present_argument w params _ _ _)).
  repeat match goal with
         | |- context [argument_for w params (?k, ?f, false)] =>
             destruct (argument_for w params (k, f, false)) as [?|?];
             cbn [fmap res_fmap mbind res_bind]; [|reflexivity];
             rewrite ?(proj2 (extend_if_present_argument w params _ _ _))
         end.
  cbn [mret res_ret]. f_equal. rewrite <- !app_assoc. cbn [app].
  by rewrite ?app_nil_r.
Qed.

Lemma build_r_command_key_error (w : World) script
    (params : gmap string value) k :
  first_missing build_order params = Some k →
  build_r_command w script params = Raise (PyError "KeyError" ("'" +:+ k +:+ "'")).
Proof.
  unfold build_order, build_r_command, getitem. cbn [first_missing].
  destruct (params !! "input_file"); [|by intros [= <-]].
  destruct (params !! "output_dir"); [|by intros [= <-]].
  destruct (params !! "sample_name"); [|by intros [= <-]].
  destruct (params !! "genome"); [|by intros [= <-]].
  done.
Qed.

(** The optional arguments are all there unless a [str] raises, and then
    the exception is that of a present key whose value goes through
    [str]. *)
Lemma arguments_for_raise (w : World) (params : gmap string value) opts e :
  arguments_for w params opts = Raise e →
  ∃ key flag v,
    (key, flag, true) ∈ opts ∧ params !! key = Some v ∧ py_str w v = Raise e.
Proof.
  induction opts as [|[[key flag] through] opts IH]; [done|].
  cbn [arguments_for]. unfold argument_for at 1.
  destruct (params !! key) as [v|] eqn:Hv.
  - destruct through.
    + destruct (py_str w v) as [s|e'] eqn:Hs.
      * destruct (arguments_for w params opts) as [more|e'']; [done|].
        intros [= <-]. destruct (IH eq_refl) as (k & f & v' & Hin & Hk & He).
        exists k, f, v'. split; [by right|done].
      * intros [= <-]. exists key, flag, v. split; [by left|done].
    + destruct (arguments_for w params opts) as [more|e'']; [done|].
      intros [= <-]. destruct (IH eq_refl) as (k & f & v' & Hin & Hk & He).
      exists k, f, v'. split; [by right|done].
  - destruct (arguments_for w params opts) as [more|e'']; [done|].
    intros [= <-]. destruct (IH eq_refl) as (k & f & v' & Hin & Hk & He).
    exists k, f, v'. split; [by right|done].
Qed.

Lemma arguments_for_ok (w : World) (params : gmap string value) opts :
  (∀ key flag v, (key, flag, true) ∈ opts → params !! key = Some v →
                 ∃ s, py_str w v = Ok s) →
  ∃ arguments, arguments_for w params opts = Ok arguments.
Proof.
  intros H. destruct (arguments_for w params opts) as [a|e] eqn:Ha; [by eexists|].
  destruct (arguments_for_raise _ _ _ _ Ha) as (k & f & v & Hin & Hk & He).
  destruct (H k f v Hin Hk) as [s Hs]. congruence.
Qed.


Lemma failure_lookup_success error runtime :
  failure error runtime !! "success" = Some (VBool false).
Proof. reflexivity. Qed.









Lemma str_int_limit : str_int (10 ^ 4300) = Raise (PyError "ValueError"
    "Exceeds the limit (4300 digits) for integer string conversion; use sys.set_int_max_str_digits() to increase the limit").
Proof. vm_compute. reflexivity. Qed.


Lemma prefix_refl (s : string) : String.prefix s s = true.
Proof. induction s as [|c s IH]; simpl; [done|]. by destruct (ascii_dec c c). Qed.

Lemma contains_append (p s : string) : contains s (p +:+ s) = true.
Proof.
  induction p as [|c p IH]; simpl.
  - destruct s; simpl; [done|]. rewrite prefix_refl.
    destruct (ascii_dec a a); [done|congruence].
  - rewrite IH. apply orb_true_r.
Qed.

Lemma build_r_command_ok_required (w : World) script
    (params : gmap string value) command :
  build_r_command w script params = Ok command →
  first_missing required_params params = None.
Proof.
  intros Hb. apply required_build_order.
  destruct (first_missing build_order params) as [k|] eqn:Hk; [|done].
  rewrite (build_r_command_key_error _ _ _ _ Hk) in Hb. discriminate.
Qed.

(** C6 (as amended): when the command is built and every argument of it
    is a string the system takes, and the child started with it exits with
    a non-zero code, its captured output being text, the result is the
    failure dictionary whose [error] is ["R script failed: "] followed by
    the captured stderr (so it contains the stderr; the exit code is not
    reported), with [output_dir] [None] and [runtime_minutes] 0, after
    that one launch.  When the captured output is not valid text,
    [subprocess.run] raises instead, and the [error] is
    ["Unexpected error: "] followed by the text of that exception,
    whatever the exit code. *)
Theorem engine_failure_reports_stderr (w : World) (params : gmap string value)
    (command : list value) (arguments : list string) :
  build_r_command w r_script_path params = Ok command →
  map_res program_argument command = Ok arguments →
  (∀ rc out err,
     spawn w arguments (executor_root w) = Exited rc out err → rc ≠ 0 →
     run_copykat_analysis w params =
       (Ok {[ "success" := VBool false;
              "error" := VStr ("R script failed: " +:+ err);
              "output_dir" := VNone;
              "files" := VDict ∅;
              "summary" := VDict ∅;
              "runtime_minutes" := VInt 0 ]},
        [(arguments, executor_root w)])
     ∧ contains err ("R script failed: " +:+ err) = true)
  ∧ (∀ rc e,
       spawn w arguments (executor_root w) = Undecodable rc e →
       run_copykat_analysis w params =
         (Ok {[ "success" := VBool false;
                "error" := VStr ("Unexpected error: " +:+ exc_str e);
                "output_dir" := VNone;
                "files" := VDict ∅;
                "summary" := VDict ∅;
                "runtime_minutes" := VInt 0 ]},
          [(arguments, executor_root w)])).
Proof.
  intros Hb Hargs. split.
  - intros rc out err Hspawn Hrc. split; [|apply contains_append].
    unfold run_copykat_analysis.
    rewrite (build_r_command_ok_required _ _ _ _ Hb), Hb.
    unfold subprocess_run. rewrite Hargs, Hspawn.
    by destruct (Z.eqb_spec rc 0).
  - intros rc e Hspawn. unfold run_copykat_analysis.
    rewrite (build_r_command_ok_required _ _ _ _ Hb), Hb.
    unfold subprocess_run. by rewrite Hargs, Hspawn.
Qed.

Lemma engine_failure_reports_stderr_witness :
  run_copykat_analysis (world_exiting 1 "Error in library(copykat)")
    params_required =
    (Ok {[ "success" := VBool false;
           "error" := VStr ("R script failed: " +:+ "Error in library(copykat)");
           "output_dir" := VNone;
           "files" := VDict ∅;
           "summary" := VDict ∅;
           "runtime_minutes" := VInt 0 ]},
     [(["Rscript"; "backend/r_scripts/copykat_analysis.R";
        "--input"; "data/sample.txt.gz"; "--output"; "results";
        "--name"; "sample_001"; "--genome"; "hg20"], "/srv/app")])
  ∧ contains "Error in library(copykat)"
      ("R script failed: " +:+ "Error in library(copykat)") = true.
Proof.
  apply (proj1 (engine_failure_reports_stderr
                  (world_exiting 1 "Error in library(copykat)") params_required
                  _ _ eq_refl eq_refl) 1 "" "Error in library(copykat)");
    [reflexivity|discriminate].
Defined.

Lemma exit_code_missing_from_error_counterexample :
  ∃ arguments r,
    spawn (world_exiting 7 "boom") arguments
        (executor_root (world_exiting 7 "boom")) = Exited 7 "" "boom"
    ∧ run_copykat_analysis (world_exiting 7 "boom") params_required
      = (Ok r, [(arguments, executor_root (world_exiting 7 "boom"))])
    ∧ r !! "success" = Some (VBool false)
    ∧ r !! "output_dir" = Some VNone
    ∧ r !! "error" = Some (VStr "R script failed: boom")
    ∧ contains (string_of_Z 7) "R script failed: boom" = false.
Proof. do 2 eexists. repeat split; vm_compute; reflexivity. Qed.

(** ** The command builder: [build_r_command] *)

(** C2 (as amended): on a dictionary lacking a required key the command
    builder raises the [KeyError] of the first one it reads.  On a
    dictionary holding the four required keys the command is [Rscript], the
    script, the four required arguments, and then, in a fixed order, one
    flag and value for each of the eight forwarded optional keys that is
    present and nothing for one that is absent; the values of the first six
    go through [str], and the first [str] that raises (on an integer of
    more than 4300 digits) leaves the builder. *)
Theorem build_r_command_arguments (w : World) script
    (params : gmap string value) :
  match first_missing ["input_file"; "output_dir"; "sample_name"; "genome"]
          params with
  | Some k =>
      build_r_command w script params
      = Raise (PyError "KeyError" ("'" +:+ k +:+ "'"))
  | None =>
      ∃ input_file output_dir sample_name genome,
        params !! "input_file" = Some input_file
        ∧ params !! "output_dir" = Some output_dir
        ∧ params !! "sample_name" = Some sample_name
        ∧ params !! "genome" = Some genome
        ∧ build_r_command w script params =
            match arguments_for w params optional_arguments with
            | Ok optional =>
                Ok ([VStr "Rscript"; VStr script;
                     VStr "--input"; input_file; VStr "--output"; output_dir;
                     VStr "--name"; sample_name; VStr "--genome"; genome]
                    ++ optional)
            | Raise e => Raise e
            end
  end.
Proof.
  fold build_order.
  destruct (first_missing build_order params) as [k|] eqn:Hk.
  - by apply build_r_command_key_error.
  - destruct (build_order_present _ Hk) as (v1 & v2 & v3 & v4 & H1 & H2 & H3 & H4).
    exists v1, v2, v3, v4. repeat (split; [done|]).
    apply (build_r_command_required w script params _ _ _ _ H1 H2 H3 H4).
Qed.

(** A key that is not forwarded leaves the command as it is. *)
Lemma build_r_command_other_key (w : World) script
    (params : gmap string value) key v :
  key ∉ required_params → key ∉ (fun opt => opt.1.1) <$> optional_arguments →
  build_r_command w script (<[key := v]> params)
  = build_r_command w script params.
Proof.
  intros Hreq Hopt.
  assert (∀ k, k ∈ required_params ++ ((fun opt => opt.1.1) <$> optional_arguments)
               → key ≠ k) as Hne.
  { by intros k [Hk|Hk]%elem_of_app ->. }
  assert (∀ k, k ∈ required_params ++ ((fun opt => opt.1.1) <$> optional_arguments)
               → <[key := v]> params !! k = params !! k) as Hlook.
  { intros k Hk. apply lookup_insert_ne. by apply Hne. }
  unfold build_r_command, getitem, extend_if_present.
  repeat match goal with
         | |- context [<[key := v]> params !! ?k] =>
             rewrite (Hlook k)
               by (apply list_elem_of_In; cbn;
                   repeat (first [left; reflexivity | right]))
         end.
  done.
Qed.

Lemma build_r_command_arguments_witness :
  ∃ input_file output_dir sample_name genome,
    params_cores !! "input_file" = Some input_file
    ∧ params_cores !! "output_dir" = Some output_dir
    ∧ params_cores !! "sample_name" = Some sample_name
    ∧ params_cores !! "genome" = Some genome
    ∧ build_r_command (world_exiting 0 "") "copykat_analysis.R" params_cores =
        match arguments_for (world_exiting 0 "") params_cores optional_arguments with
        | Ok optional =>
            Ok ([VStr "Rscript"; VStr "copykat_analysis.R";
                 VStr "--input"; input_file; VStr "--output"; output_dir;
                 VStr "--name"; sample_name; VStr "--genome"; genome]
                ++ optional)
        | Raise e => Raise e
        end.
Proof.
  exact (build_r_command_arguments (world_exiting 0 "") "copykat_analysis.R"
           params_cores).
Defined.

Example build_r_command_cores :
  build_r_command (world_exiting 0 "") "copykat_analysis.R" params_cores =
    Ok [VStr "Rscript"; VStr "copykat_analysis.R";
        VStr "--input"; VStr "data/sample.txt.gz"; VStr "--output"; VStr "results";
        VStr "--name"; VStr "sample_001"; VStr "--genome"; VStr "hg20";
        VStr "--cores"; VStr "4"].
Proof. reflexivity. Qed.

Lemma plot_genes_not_forwarded_counterexample :
  params_plot_genes !! "plot_genes" = Some (VBool true)
  ∧ build_r_command (world_exiting 0 "") "copykat_analysis.R" params_plot_genes =
      Ok [VStr "Rscript"; VStr "copykat_analysis.R";
          VStr "--input"; VStr "data/sample.txt.gz"; VStr "--output"; VStr "results";
          VStr "--name"; VStr "sample_001"; VStr "--genome"; VStr "hg20"]
  ∧ build_r_command (world_exiting 0 "") "copykat_analysis.R" params_no_genome =
      Raise (PyError "KeyError" "'sample_name'").
Proof. repeat split. Qed.

(** ** The result locator: [find_output_directory], [find_latest_result] *)

Lemma fnmatch_star (name : string) : fnmatch "*" name = true.
Proof.
  simpl. induction name as [|c name IH]; [done|].
  simpl in *. exact IH.
Qed.

Lemma fnmatch_literal_prefix (p name : string) :
  glob_literal p = true → fnmatch (p +:+ "*") name = String.prefix p name.
Proof.
  revert name. induction p as [|c p IH]; intros name Hlit.
  - rewrite fnmatch_star. by destruct name.
  - simpl in Hlit. apply andb_true_iff in Hlit as [Hc Hp].
    apply negb_true_iff in Hc.
    repeat (apply orb_false_iff in Hc as [Hc ?]).
    change (String c p +:+ "*") with (String c (p +:+ "*")).
    cbn [fnmatch]. rewrite Hc.
    destruct name as [|d name]; [done|].
    rewrite IH by done. cbn [String.prefix].
    replace (Ascii.eqb c "?") with false by done. simpl.
    destruct (ascii_dec c d) as [->|Hne].
    + by rewrite Ascii.eqb_refl.
    + by apply Ascii.eqb_neq in Hne as ->.
Qed.

Lemma append_cons c (a b : string) : String c a +:+ b = String c (a +:+ b).
Proof. reflexivity. Qed.

Lemma glob_literal_underscore (s : string) :
  glob_literal s = true → glob_literal (s +:+ "_") = true.
Proof.
  unfold glob_literal. induction s as [|c s IH]; [done|].
  rewrite append_cons. simpl.
  intros [Hc Hs]%andb_true_iff. rewrite Hc. by apply IH.
Qed.

Lemma append_assoc (a b c : string) : (a +:+ b) +:+ c = a +:+ (b +:+ c).
Proof. induction a as [|x a IH]; [done|]. rewrite !append_cons. by f_equal. Qed.

(** The pattern made of a literal sample name is one of the modelled
    patterns. *)
Lemma literal_pattern_plain (sample : string) :
  glob_literal sample = true → plain_pattern (sample +:+ "_*") = true.
Proof.
  intros Hlit. unfold plain_pattern.
  assert (String.eqb (sample +:+ "_*") "" = false) as ->.
  { by destruct sample. }
  assert (contains "/" (sample +:+ "_*") = false
          ∧ contains "[" (sample +:+ "_*") = false
          ∧ contains "**" (sample +:+ "_*") = false) as (-> & -> & ->); [|done].
  induction sample as [|c sample IH]; [done|].
  cbn [glob_literal str_all] in Hlit.
  apply andb_true_iff in Hlit as [Hc Hlit].
  destruct (IH Hlit) as (H1 & H2 & H3).
  rewrite append_cons. cbn [contains String.prefix].
  rewrite H1, H2, H3.
  apply negb_true_iff in Hc.
  repeat (apply orb_false_iff in Hc as [Hc ?]).
  repeat match goal with
         | H : Ascii.eqb c _ = false |- _ => apply Ascii.eqb_neq in H
         end.
  repeat match goal with
         | |- context [ascii_dec ?a c] =>
             destruct (ascii_dec a c) as [<-|_]; [done|]
         end.
  done.
Qed.

Lemma glob_candidates (w : World) dir sample :
  glob_literal sample = true →
  glob w dir (sample +:+ "_*") = Ok (candidates w dir sample).
Proof.
  intros Hlit. unfold glob, candidates.
  rewrite literal_pattern_plain by done. f_equal.
  apply list_filter_iff. intros e.
  replace (sample +:+ "_*") with ((sample +:+ "_") +:+ "*")
    by apply append_assoc.
  by rewrite fnmatch_literal_prefix by by apply glob_literal_underscore.
Qed.

Lemma max_from_invariant (pre : list dirent) best t l before0 after0 :
  pre = before0 ++ best :: after0 →
  d_mtime best = Ok t →
  (∀ x, x ∈ before0 → modified_before t x) →
  (∀ x, x ∈ after0 → modified_by t x) →
  match first_stat_error l with
  | Some e => max_from d_mtime best t l = Raise e
  | None =>
      ∃ e, max_from d_mtime best t l = Ok e ∧ most_recent_first (pre ++ l) e
  end.
Proof.
  revert pre best t before0 after0.
  induction l as [|x l IH]; intros pre best t before0 after0 Hpre Ht Hb Ha.
  - cbn. exists best. split; [done|]. rewrite app_nil_r.
    by exists before0, after0, t.
  - cbn [first_stat_error max_from].
    destruct (d_mtime x) as [tx|e] eqn:Hx; [|done].
    cbn [mbind res_bind].
    replace (pre ++ x :: l) with ((pre ++ [x]) ++ l)
      by by rewrite <- app_assoc.
    destruct (Qle_bool tx t) eqn:Hle.
    + apply Qle_bool_iff in Hle.
      apply (IH _ _ _ before0 (after0 ++ [x])).
      * rewrite Hpre. by rewrite <- app_assoc.
      * done.
      * done.
      * intros y [Hy|Hy%list_elem_of_singleton]%elem_of_app; [auto|].
        subst y. by exists tx.
    + assert (t < tx)%Q as Hlt.
      { apply Qnot_le_lt. intros H%Qle_bool_iff. congruence. }
      apply (IH _ _ _ pre []).
      * done.
      * done.
      * rewrite Hpre.
        intros y [Hy|[->|Hy]%elem_of_cons]%elem_of_app.
        -- destruct (Hb y Hy) as (ty & Hty & Hlty). exists ty.
           split; [done|]. by eapply Qlt_trans.
        -- by exists t.
        -- destruct (Ha y Hy) as (ty & Hty & Hlty). exists ty.
           split; [done|]. by eapply Qle_lt_trans.
      * intros y Hy. by apply elem_of_nil in Hy.
Qed.

Lemma py_max_most_recent (l : list dirent) :
  match first_stat_error l with
  | Some e => py_max d_mtime l = Raise e
  | None =>
      match l with
      | [] => py_max d_mtime l = Ok None
      | _ => ∃ e, py_max d_mtime l = Ok (Some e) ∧ most_recent_first l e
      end
  end.
Proof.
  destruct l as [|x l]; [done|]. cbn [first_stat_error py_max].
  destruct (d_mtime x) as [t|e] eqn:Hx; [|done]. cbn [mbind res_bind].
  pose proof (max_from_invariant [x] x t l [] [] eq_refl Hx) as H.
  destruct (first_stat_error l) as [e|].
  - rewrite H; [done| |]; intros y Hy; by apply elem_of_nil in Hy.
  - destruct H as (e & -> & He); [| |by exists e];
      intros y Hy; by apply elem_of_nil in Hy.
Qed.

Lemma located_by_max (w : World) (dir sample : string) :
  located w dir sample
    (found ← path_exists w dir;
     if negb found then mret None
     else
       latest ← py_max d_mtime (candidates w dir sample);
       match latest with
       | Some p => mret (Some (joinpath w dir (d_name p)))
       | None => mret None
       end).
Proof.
  unfold located. destruct (path_exists w dir) as [[]|e]; [|done..].
  cbn [mbind res_bind negb].
  pose proof (py_max_most_recent (candidates w dir sample)) as H.
  destruct (first_stat_error (candidates w dir sample)) as [e|].
  - by rewrite H.
  - destruct (candidates w dir sample) as [|x l]; [by rewrite H|].
    destruct H as (e & -> & He). by exists e.
Qed.

(** C3 (as amended): for a sample name without glob metacharacters, each
    locator raises what the existence check of the base directory raises,
    and returns nothing when the base directory is missing or holds no
    entry named [sample_name + "_"...]; otherwise it raises what [stat()]
    raises on the first such entry on which it does, and when it raises
    on none, it returns the entry with the most recent modification time
    and, among entries with that same time, the one the directory listing
    gives first. *)
Theorem locate_most_recent_first_listed (w : World) (base sample results_dir : string) :
  glob_literal sample = true →
  located w base sample (find_output_directory w (VStr base) (VStr sample))
  ∧ located w (get_absolute_path w results_dir) sample
      (find_latest_result w sample results_dir).
Proof.
  intros Hlit. split.
  - pose proof (located_by_max w base sample) as H.
    unfold find_output_directory. cbn [Path mbind res_bind py_str str_value].
    by rewrite glob_candidates.
  - pose proof (located_by_max w (get_absolute_path w results_dir) sample) as H.
    unfold find_latest_result. cbv zeta.
    by rewrite glob_candidates.
Qed.

Lemma locate_most_recent_first_listed_witness :
  located (world_listing listing_two_runs) "results" "sampleA"
    (find_output_directory (world_listing listing_two_runs)
       (VStr "results") (VStr "sampleA"))
  ∧ located (world_listing listing_two_runs)
      (get_absolute_path (world_listing listing_two_runs) "backend/results")
      "sampleA"
      (find_latest_result (world_listing listing_two_runs) "sampleA"
         "backend/results").
Proof.
  apply (locate_most_recent_first_listed (world_listing listing_two_runs)
           "results" "sampleA" "backend/results").
  reflexivity.
Defined.

(** The scenario of the design document: of [sampleA_20240101] and
    [sampleA_20240115] the locator returns the one modified last. *)
Example locate_two_runs :
  find_output_directory (world_listing listing_two_runs)
    (VStr "results") (VStr "sampleA") = Ok (Some "results/sampleA_20240115")
  ∧ find_latest_result (world_listing listing_two_runs) "sampleA" "backend/results"
    = Ok (Some "/srv/app/backend/results/sampleA_20240115").
Proof. split; reflexivity. Qed.

(** A matching entry on which [stat()] raises ends the locator. *)
Example locate_dangling_link :
  find_output_directory (world_listing listing_dangling)
    (VStr "results") (VStr "sampleA")
  = Raise (PyError "FileNotFoundError"
             "[Errno 2] No such file or directory: 'results/sampleA_link'").
Proof. reflexivity. Qed.

Lemma tie_break_counterexample :
  scandir (world_listing listing_tie) "results" =
    [ {| d_name := "sampleA_run1"; d_mtime := Ok 1704067200%Q |};
      {| d_name := "sampleA_run2"; d_mtime := Ok 1704067200%Q |} ]
  ∧ String.ltb "sampleA_run1" "sampleA_run2" = true
  ∧ find_output_directory (world_listing listing_tie)
      (VStr "results") (VStr "sampleA") = Ok (Some "results/sampleA_run1")
  ∧ find_latest_result (world_listing listing_tie) "sampleA" "backend/results"
    = Ok (Some "/srv/app/backend/results/sampleA_run1")
  ∧ candidates (world_listing listing_other) "results" "a*" = []
  ∧ find_output_directory (world_listing listing_other)
      (VStr "results") (VStr "a*") = Ok (Some "results/ab_1").
Proof. repeat split. Qed.

(** ** The summarizer: [extract_summary_statistics], [generate_summary] *)

Lemma truediv_positive (a n : Z) :
  0 < n →
  truediv (inject_Z a) (inject_Z n) = Ok (Qred (inject_Z a / inject_Z n)).
Proof.
  intros Hn. unfold truediv.
  destruct (Qeq_bool (inject_Z n) 0) eqn:Hz; [|done].
  apply Qeq_bool_iff in Hz. unfold Qeq in Hz. simpl in Hz. lia.
Qed.

(** The dictionary [generate_summary] holds after its counting step. *)
Lemma generate_summary_counted (df : DataFrame) :
  ∃ s1 a q,
    generate_summary df =
      (if has_column "copykat.confidence" df then
         m ← mean (column "copykat.confidence" df);
         mret (<["mean_confidence" := VFloat m]> s1)
       else mret s1)
    ∧ s1 !! "n_cells" = Some (VInt (len df))
    ∧ s1 !! "n_aneuploid" = Some (VInt a)
    ∧ s1 !! "aneuploid_fraction" = Some (VFloat (FNum q))
    ∧ s1 !! "mean_confidence" = Some (VFloat (FNum 0))
    ∧ (if 0 <? len df then q == inject_Z a / inject_Z (len df) else q = 0)%Q.
Proof.
  unfold generate_summary.
  destruct (has_column "copykat.pred" df).
  - destruct (0 <? len df) eqn:Hn.
    + rewrite truediv_positive by lia. simpl.
      eexists _, _, _. split; [reflexivity|].
      repeat split; try reflexivity. apply Qred_correct.
    + simpl. eexists _, _, _. split; [reflexivity|].
      repeat split; reflexivity.
  - simpl. eexists _, 0, _. split; [reflexivity|].
    repeat split; try reflexivity.
    destruct (0 <? len df); [|done].
    unfold Qeq. simpl. lia.
Qed.

(** What [extract_summary_statistics] returns once the table has been
    read. *)
Lemma extract_summary_read (w : World) (files : gmap string string) p df :
  files !! "predictions" = Some p → p ≠ "" → path_exists w p = Ok true →
  read_csv w p = Ok df →
  ∃ s a q,
    extract_summary_statistics w files = Ok s
    ∧ s !! "n_cells" = Some (VInt (len df))
    ∧ s !! "n_aneuploid" = Some (VInt a)
    ∧ s !! "aneuploid_fraction" = Some (VFloat (FNum q))
    ∧ s !! "mean_confidence" = None
    ∧ (if 0 <? len df then q == inject_Z a / inject_Z (len df) else q = 0)%Q.
Proof.
  intros Hp Hne Hex Hread. unfold extract_summary_statistics.
  rewrite Hp. apply String.eqb_neq in Hne as ->. cbn [negb].
  rewrite Hex. cbn [mbind res_bind]. rewrite Hread.
  destruct (has_column "copykat.pred" df).
  - destruct (0 <? len df) eqn:Hn.
    + rewrite truediv_positive by lia.
      eexists _, _, _. split; [reflexivity|].
      repeat split; try reflexivity. apply Qred_correct.
    + eexists _, _, _. split; [reflexivity|]. repeat split; reflexivity.
  - eexists _, 0, _. split; [reflexivity|]. repeat split; try reflexivity.
    destruct (0 <? len df); [|done]. unfold Qeq. simpl. lia.
Qed.

(** It raises only what the existence check of the predictions file
    raises. *)
Lemma extract_summary_raise (w : World) (files : gmap string string) e :
  extract_summary_statistics w files = Raise e →
  ∃ p, files !! "predictions" = Some p ∧ p ≠ "" ∧ path_exists w p = Raise e.
Proof.
  unfold extract_summary_statistics.
  destruct (files !! "predictions") as [p|] eqn:Hp; [|done].
  destruct (String.eqb_spec p "") as [->|Hne]; cbn [negb]; [done|].
  destruct (path_exists w p) as [[]|e'] eqn:Hex; cbn [mbind res_bind].
  - destruct (read_csv w p) as [df|?]; [|done].
    destruct (has_column "copykat.pred" df); [|done].
    destruct (0 <? len df); [|done]. by destruct (truediv _ _).
  - done.
  - intros [= <-]. by exists p.
Qed.

(** What it returns otherwise: the initial dictionary. *)
Lemma extract_summary_unread (w : World) (files : gmap string string) s :
  (∀ p df, files !! "predictions" = Some p → p ≠ "" →
           path_exists w p = Ok true → read_csv w p ≠ Ok df) →
  extract_summary_statistics w files = Ok s →
  s = {[ "n_cells" := VInt 0; "n_aneuploid" := VInt 0; "n_diploid" := VInt 0;
         "n_not_defined" := VInt 0; "aneuploid_fraction" := VFloat (FNum 0) ]}.
Proof.
  intros H. unfold extract_summary_statistics.
  destruct (files !! "predictions") as [p|] eqn:Hp; [|by intros [= <-]].
  destruct (String.eqb_spec p ""); cbn [negb mbind res_bind mret res_ret];
    [by intros [= <-]|].
  destruct (path_exists w p) as [[]|e] eqn:Hex; cbn [mbind res_bind];
    [|by intros [= <-]|done].
  destruct (read_csv w p) as [df|e] eqn:Hread; [|by intros [= <-]].
  by destruct (H p df).
Qed.

(** Whatever it has read, its fraction is the guarded quotient of its
    counts, and it has no [mean_confidence]. *)
Lemma extract_summary_fraction (w : World) (files : gmap string string) s :
  extract_summary_statistics w files = Ok s →
  s !! "mean_confidence" = None
  ∧ ∃ n a q,
      s !! "n_cells" = Some (VInt n)
      ∧ s !! "n_aneuploid" = Some (VInt a)
      ∧ s !! "aneuploid_fraction" = Some (VFloat (FNum q))
      ∧ (if 0 <? n then q == inject_Z a / inject_Z n else q = 0)%Q.
Proof.
  intros Hs.
  assert ((∃ p df, files !! "predictions" = Some p ∧ p ≠ ""
                   ∧ path_exists w p = Ok true ∧ read_csv w p = Ok df)
          ∨ (∀ p df, files !! "predictions" = Some p → p ≠ "" →
                     path_exists w p = Ok true → read_csv w p ≠ Ok df))
    as [(p & df & Hp & Hne & Hex & Hread)|Hun].
  { destruct (files !! "predictions") as [p|]; [|by right].
    destruct (String.eqb_spec p "") as [->|Hne];
      [right; intros p' df' [= <-] Hne' Hex' Hread'; congruence|].
    destruct (path_exists w p) as [[]|e] eqn:Hex;
      [|right; intros p' df' [= <-] Hne' Hex' Hread'; congruence..].
    destruct (read_csv w p) as [df|e] eqn:Hread.
    - left. by exists p, df.
    - right. intros p' df' [= <-] Hne' Hex' Hread'. congruence. }
  - destruct (extract_summary_read w files p df Hp Hne Hex Hread)
      as (s' & a & q & Hs' & ? & ? & ? & ? & ?).
    rewrite Hs in Hs'. injection Hs' as <-. split; [done|].
    by exists (len df), a, q.
  - rewrite (extract_summary_unread w files s Hun Hs). split; [done|].
    by exists 0, 0, 0%Q.
Qed.

(** Both at once: the summary it returns, or the exception of the
    existence check that ended it. *)
Lemma extract_summary_outcome (w : World) (files : gmap string string) :
  match extract_summary_statistics w files with
  | Ok s =>
      s !! "mean_confidence" = None
      ∧ ∃ n a q,
          s !! "n_cells" = Some (VInt n)
          ∧ s !! "n_aneuploid" = Some (VInt a)
          ∧ s !! "aneuploid_fraction" = Some (VFloat (FNum q))
          ∧ (if 0 <? n then q == inject_Z a / inject_Z n else q = 0)%Q
  | Raise e =>
      ∃ p, files !! "predictions" = Some p ∧ p ≠ "" ∧ path_exists w p = Raise e
  end.
Proof.
  destruct (extract_summary_statistics w files) as [s|e] eqn:Hs.
  - by apply (extract_summary_fraction w files).
  - by apply extract_summary_raise.
Qed.

(** C7: the fraction is [n_aneuploid / n_cells] exactly when [n_cells > 0]
    and 0 otherwise, in both summarizers; the division never raises, the
    only exception [generate_summary] can raise being the [TypeError] of a
    mean over strings, and the only one [extract_summary_statistics] can
    raise being that of the existence check of the predictions file; an
    empty table gives [n_cells = 0] and fraction 0. *)
Theorem aneuploid_fraction_guarded (df : DataFrame) :
  (∀ e, generate_summary df = Raise e →
        exc_class e = "TypeError"
        ∧ has_column "copykat.confidence" df = true
        ∧ existsb is_str (column "copykat.confidence" df) = true)
  ∧ (has_column "copykat.confidence" df = false
     ∨ existsb is_str (column "copykat.confidence" df) = false →
     ∃ s a q,
       generate_summary df = Ok s
       ∧ s !! "n_cells" = Some (VInt (len df))
       ∧ s !! "n_aneuploid" = Some (VInt a)
       ∧ s !! "aneuploid_fraction" = Some (VFloat (FNum q))
       ∧ (if 0 <? len df then q == inject_Z a / inject_Z (len df) else q = 0)%Q)
  ∧ (df_rows df = [] →
     ∃ s, generate_summary df = Ok s
          ∧ s !! "n_cells" = Some (VInt 0)
          ∧ s !! "aneuploid_fraction" = Some (VFloat (FNum 0)))
  ∧ (∀ (w : World) (files : gmap string string) p,
       files !! "predictions" = Some p → p ≠ "" → path_exists w p = Ok true →
       read_csv w p = Ok df →
       ∃ s a q,
         extract_summary_statistics w files = Ok s
         ∧ s !! "n_cells" = Some (VInt (len df))
         ∧ s !! "n_aneuploid" = Some (VInt a)
         ∧ s !! "aneuploid_fraction" = Some (VFloat (FNum q))
         ∧ (if 0 <? len df then q == inject_Z a / inject_Z (len df) else q = 0)%Q)
  ∧ (∀ (w : World) (files : gmap string string),
       match extract_summary_statistics w files with
       | Ok s =>
           ∃ n a q,
             s !! "n_cells" = Some (VInt n)
             ∧ s !! "n_aneuploid" = Some (VInt a)
             ∧ s !! "aneuploid_fraction" = Some (VFloat (FNum q))
             ∧ (if 0 <? n then q == inject_Z a / inject_Z n else q = 0)%Q
       | Raise e =>
           ∃ p, files !! "predictions" = Some p ∧ p ≠ ""
                ∧ path_exists w p = Raise e
       end).
Proof.
  destruct (generate_summary_counted df)
    as (s1 & a & q & Hgen & Hn & Ha & Hf & Hm & Hq).
  assert (has_column "copykat.confidence" df = false
          ∨ existsb is_str (column "copykat.confidence" df) = false →
          ∃ s, generate_summary df = Ok s
               ∧ s !! "n_cells" = Some (VInt (len df))
               ∧ s !! "n_aneuploid" = Some (VInt a)
               ∧ s !! "aneuploid_fraction" = Some (VFloat (FNum q))) as Htotal.
  { rewrite Hgen. intros [-> | Hstr].
    - by exists s1.
    - destruct (has_column "copykat.confidence" df); [|by exists s1].
      unfold mean. rewrite Hstr.
      destruct (numbers _); simpl; eexists; (split; [reflexivity|]);
        by rewrite !lookup_insert_ne. }
  split; [|split; [|split; [|split]]].
  5:{ intros w files. pose proof (extract_summary_outcome w files) as H.
      destruct (extract_summary_statistics w files); [apply H|exact H]. }
  - intros e. rewrite Hgen.
    destruct (has_column "copykat.confidence" df); [|done].
    unfold mean. destruct (existsb is_str _).
    + by intros [= <-].
    + by destruct (numbers _).
  - intros H. destruct (Htotal H) as (s & Hs & ? & ? & ?). by exists s, a, q.
  - intros Hrows.
    assert (len df = 0) as Hlen by (unfold len; by rewrite Hrows).
    destruct Htotal as (s & Hs & Hsn & _ & Hsf).
    { right. unfold column. rewrite Hrows. by destruct (column_index _ _). }
    rewrite Hlen in Hq, Hsn. simpl in Hq. subst q. by exists s.
  - intros w files p Hp Hne Hex Hread.
    destruct (extract_summary_read w files p df Hp Hne Hex Hread)
      as (s & a' & q' & ? & ? & ? & ? & _ & ?).
    by exists s, a', q'.
Qed.

Lemma aneuploid_fraction_guarded_witness :
  ∃ s, generate_summary table_empty = Ok s
       ∧ s !! "n_cells" = Some (VInt 0)
       ∧ s !! "aneuploid_fraction" = Some (VFloat (FNum 0)).
Proof.
  exact (proj1 (proj2 (proj2 (aneuploid_fraction_guarded table_empty))) eq_refl).
Defined.

(** The scenario of the design document: three cells, two of them
    aneuploid. *)
Example summary_three_cells :
  generate_summary table_three_cells =
    Ok {[ "n_cells" := VInt 3; "n_aneuploid" := VInt 2; "n_diploid" := VInt 1;
          "n_not_defined" := VInt 0;
          "aneuploid_fraction" := VFloat (FNum (2 # 3));
          "mean_confidence" := VFloat (FNum (53 # 60)) ]}.
Proof. reflexivity. Qed.

Lemma column_length (name : string) (df : DataFrame) :
  has_column name df = true →
  length (column name df) = length (df_rows df).
Proof.
  unfold has_column, column. destruct df as [cols rows]. simpl.
  assert (existsb (String.eqb name) cols = true →
          ∃ j, column_index name cols = Some j) as Hidx.
  { induction cols as [|c cols IH]; simpl; [done|].
    destruct (String.eqb name c); simpl; [by eexists|].
    intros H. destruct (IH H) as [j ->]. by eexists. }
  intros H. destruct (Hidx H) as [j ->]. apply length_map.
Qed.

Lemma numbers_all_numeric (qs : list Q) : numbers (map CNum qs) = qs.
Proof. induction qs as [|q qs IH]; simpl; [done|]. by rewrite IH. Qed.

(** C5 (as amended): when the confidence column is present and holds no
    string, [generate_summary] reports as [mean_confidence] the arithmetic
    mean of the numbers of that column, which are one per row when no value
    is missing; when the column is absent it reports [mean_confidence] 0.0;
    [extract_summary_statistics] reports no [mean_confidence] at all (it
    returns a summary, unless the existence check of the predictions file
    raises). *)
Theorem mean_confidence_reported (df : DataFrame) :
  (has_column "copykat.confidence" df = false →
   ∃ s, generate_summary df = Ok s
        ∧ s !! "mean_confidence" = Some (VFloat (FNum 0)))
  ∧ (has_column "copykat.confidence" df = true →
     existsb is_str (column "copykat.confidence" df) = false →
     numbers (column "copykat.confidence" df) ≠ [] →
     ∃ s q,
       generate_summary df = Ok s
       ∧ s !! "mean_confidence" = Some (VFloat (FNum q))
       ∧ (q == Qsum (numbers (column "copykat.confidence" df))
               / inject_Z (Z.of_nat
                   (length (numbers (column "copykat.confidence" df)))))%Q)
  ∧ (∀ qs, has_column "copykat.confidence" df = true →
           column "copykat.confidence" df = map CNum qs →
           numbers (column "copykat.confidence" df) = qs
           ∧ length qs = length (df_rows df))
  ∧ (∀ (w : World) (files : gmap string string),
       match extract_summary_statistics w files with
       | Ok s => s !! "mean_confidence" = None
       | Raise e =>
           ∃ p, files !! "predictions" = Some p ∧ p ≠ ""
                ∧ path_exists w p = Raise e
       end).
Proof.
  destruct (generate_summary_counted df)
    as (s1 & a & q & Hgen & _ & _ & _ & Hm & _).
  split; [|split; [|split]].
  - intros Hcol. rewrite Hgen, Hcol. by exists s1.
  - intros Hcol Hstr Hnum. rewrite Hgen, Hcol. unfold mean. rewrite Hstr.
    destruct (numbers (column "copykat.confidence" df)) as [|x qs] eqn:Hqs;
      [done|].
    simpl. eexists _, _. split; [reflexivity|].
    split; [apply lookup_insert_eq|]. apply Qred_correct.
  - intros qs Hcol Hqs. split.
    + rewrite Hqs. apply numbers_all_numeric.
    + rewrite <- (column_length _ _ Hcol), Hqs. by rewrite length_map.
  - intros w files. pose proof (extract_summary_outcome w files) as H.
    destruct (extract_summary_statistics w files); [apply H|exact H].
Qed.

Lemma mean_confidence_reported_witness :
  ∃ s q,
    generate_summary table_three_cells = Ok s
    ∧ s !! "mean_confidence" = Some (VFloat (FNum q))
    ∧ (q == Qsum (numbers (column "copykat.confidence" table_three_cells))
            / inject_Z (Z.of_nat
                (length (numbers (column "copykat.confidence" table_three_cells)))))%Q.
Proof.
  apply (proj1 (proj2 (mean_confidence_reported table_three_cells))).
  - reflexivity.
  - reflexivity.
  - discriminate.
Defined.

Lemma mean_confidence_default_counterexample :
  has_column "copykat.confidence" table_no_confidence = false
  ∧ (∃ s, generate_summary table_no_confidence = Ok s
          ∧ s !! "mean_confidence" = Some (VFloat (FNum 0)))
  ∧ has_column "copykat.confidence" table_three_cells = true
  ∧ read_csv (world_table table_three_cells) "results/predictions.txt"
    = Ok table_three_cells
  ∧ (∃ s, extract_summary_statistics (world_table table_three_cells)
            {[ "predictions" := "results/predictions.txt" ]} = Ok s
          ∧ s !! "mean_confidence" = None).
Proof. repeat split; eexists; split; reflexivity. Qed.

(** C4, at a predictions file that exists and does not parse: the
    summarizer of the orchestrator returns the all-zero summary and reports
    nothing, and [parse_predictions] raises a [ValueError] whose text does
    not name the file. *)
Theorem malformed_predictions_swallowed :
  path_exists (world_listing []) "results/sampleA_copykat_prediction.txt"
  = Ok true
  ∧ read_csv (world_listing []) "results/sampleA_copykat_prediction.txt"
    = Raise (PyError "ParserError" "Error tokenizing data")
  ∧ extract_summary_statistics (world_listing [])
      {[ "predictions" := "results/sampleA_copykat_prediction.txt" ]}
    = Ok {[ "n_cells" := VInt 0; "n_aneuploid" := VInt 0; "n_diploid" := VInt 0;
            "n_not_defined" := VInt 0; "aneuploid_fraction" := VFloat (FNum 0) ]}
  ∧ parse_predictions (world_listing []) "results/sampleA_copykat_prediction.txt"
    = Raise (PyError "ValueError"
               "Error parsing predictions file: Error tokenizing data")
  ∧ contains "results/sampleA_copykat_prediction.txt"
      "Error parsing predictions file: Error tokenizing data" = false.
Proof. repeat split. Qed.

(** The other half of C4 holds: without a predictions file the summary is
    all zero. *)
Lemma missing_predictions_all_zero (w : World) (files : gmap string string) :
  (∀ p, files !! "predictions" = Some p → path_exists w p = Ok false) →
  extract_summary_statistics w files =
    Ok {[ "n_cells" := VInt 0; "n_aneuploid" := VInt 0; "n_diploid" := VInt 0;
          "n_not_defined" := VInt 0; "aneuploid_fraction" := VFloat (FNum 0) ]}.
Proof.
  intros H.
  destruct (extract_summary_statistics w files) as [s|e] eqn:Hs.
  - f_equal. apply (extract_summary_unread w files s); [|done].
    intros p df Hp _ Hex. rewrite (H p Hp) in Hex. discriminate.
  - destruct (extract_summary_raise _ _ _ Hs) as (p & Hp & _ & Hex).
    rewrite (H p Hp) in Hex. discriminate.
Qed.

(** ** The progress monitor: [monitor_analysis_progress] *)

Lemma stages_checkpoints : stages = checkpoints.
Proof. reflexivity. Qed.

Lemma str_int_printable (z : Z) :
  str_int z
  = if printable z then Ok (string_of_Z z)
    else Raise (PyError "ValueError"
                  "Exceeds the limit (4300 digits) for integer string conversion; use sys.set_int_max_str_digits() to increase the limit").
Proof.
  unfold str_int, printable. rewrite Z.leb_antisym. by destruct (_ <? _).
Qed.

Lemma final_event_completion (w : World) (rc : Z) :
  rc = 0 ∨ printable rc = true →
  final_event w rc = Ok (completion_event w rc).
Proof.
  unfold final_event, completion_event. intros [->|Hrc]; [done|].
  rewrite str_int_printable, Hrc. by destruct (rc =? 0).
Qed.

Lemma ending_completion (w : World) (rc : Z) :
  rc = 0 ∨ printable rc = true →
  ending w rc = {| yielded := [completion_event w rc]; died := None |}.
Proof. intros Hrc. unfold ending. by rewrite final_event_completion. Qed.


Lemma stage_event_checkpoint (w : World) log_file i progress label :
  (i < 6)%nat →
  stage_event w log_file i progress label
  = match stage_message w log_file label with
    | Ok m => Ok (checkpoint_event w i progress m)
    | Raise e => Raise e
    end.
Proof.
  intros Hi. unfold stage_event.
  destruct (stage_message w log_file label); [|done].
  do 6 (destruct i as [|i]; [reflexivity|]). lia.
Qed.






Section MonitoredRun.

(** A child that runs through its first [n] polls and has exited with
    return code [rc] at the next one. *)
Variable worlds : nat → World.
Variable process : Process.
Variable log_file : option string.
Variable n : nat.
Variable rc : Z.
Hypothesis Halive : ∀ k, (k < n)%nat → poll process k = None.
Hypothesis Hexit : poll process n = Some rc.

(** After the last checkpoint the loop only waits for the exit. *)
Lemma monitor_loop_waits (d tick current_stage fuel : nat) :
  (tick + d = n)%nat → (d < fuel)%nat →
  (length stages ≤ current_stage)%nat →
  monitor_loop worlds process log_file fuel tick current_stage
  = Some (ending (worlds n) rc).
Proof.
  revert tick fuel. induction d as [|d IH]; intros tick fuel Htick Hfuel Hstage.
  - destruct fuel as [|fuel]; [lia|].
    replace tick with n by lia. cbn [monitor_loop]. by rewrite Hexit.
  - destruct fuel as [|fuel]; [lia|].
    cbn [monitor_loop]. rewrite Halive by lia.
    rewrite (proj2 (lookup_ge_None stages current_stage)) by done.
    apply IH; [lia..|done].
Qed.

(** From the poll [i], which is also the number of the next checkpoint,
    with [fuel] left to reach the exit: while the messages are there, the
    loop yields one checkpoint per poll while checkpoints remain, and then
    ends as the exit makes it. *)
Lemma monitor_loop_closed (messages : nat → string) (d i fuel : nat) :
  (i + d = n)%nat → (d < fuel)%nat →
  (∀ k progress label,
     (i ≤ k < n)%nat → checkpoints !! k = Some (progress, label) →
     stage_message (worlds k) log_file label = Ok (messages k)) →
  monitor_loop worlds process log_file fuel i i
  = Some {| yielded :=
              checkpoint_events worlds messages i (take d (drop i checkpoints))
              ++ yielded (ending (worlds n) rc);
            died := died (ending (worlds n) rc) |}.
Proof.
  revert i fuel. induction d as [|d IH]; intros i fuel Hi Hfuel Hmsg.
  - destruct fuel as [|fuel]; [lia|].
    replace i with n by lia. cbn [monitor_loop]. rewrite Hexit.
    by destruct (ending (worlds n) rc).
  - destruct fuel as [|fuel]; [lia|].
    cbn [monitor_loop]. rewrite Halive by lia. rewrite stages_checkpoints.
    destruct (checkpoints !! i) as [[progress label]|] eqn:Hstage.
    + rewrite stage_event_checkpoint by (by apply lookup_lt_Some in Hstage).
      rewrite (Hmsg i progress label) by (done || lia).
      rewrite (IH (S i) fuel); [|lia|lia|intros; eapply Hmsg; [lia|done]].
      rewrite (drop_S _ _ _ Hstage). reflexivity.
    + apply lookup_ge_None in Hstage.
      rewrite (monitor_loop_waits d (S i) i fuel) by (done || lia).
      rewrite !drop_ge by lia. rewrite !take_nil.
      by destruct (ending (worlds n) rc).
Qed.


End MonitoredRun.





(** While the child runs the generator has not ended, unless a message
    has raised. *)
Lemma monitor_running (worlds : nat → World) (process : Process) log_file :
  (∀ k, poll process k = None) →
  ∀ fuel tick current_stage,
    match monitor_loop worlds process log_file fuel tick current_stage with
    | Some run => is_Some (died run)
    | None => True
    end.
Proof.
  intros Halive. induction fuel as [|fuel IH]; intros tick stage; [done|].
  cbn [monitor_loop]. rewrite Halive.
  destruct (stages !! stage) as [[progress message]|]; [|apply IH].
  destruct (stage_event _ _ _ _ _); [|by eexists].
  specialize (IH (S tick) (S stage)).
  by destruct (monitor_loop _ _ _ _ _ _).
Qed.

(** ** Sample names: [validate_sample_name] *)

Lemma replace_underscore_all (s : string) :
  str_all char_isalnum (replace "_" "" s) = str_all name_char s.
Proof.
  induction s as [|c s IH]; [done|]. cbn [replace str_all]. unfold name_char at 1.
  destruct (Ascii.eqb c "_") eqn:Hc.
  - rewrite orb_true_r. exact IH.
  - rewrite orb_false_r. cbn [str_all]. by rewrite IH.
Qed.

Lemma replace_underscore_isalnum (s : string) :
  isalnum (replace "_" "" s) = str_all name_char s && has_non_underscore s.
Proof.
  unfold isalnum, has_non_underscore.
  induction s as [|c s IH]; [done|]. cbn [replace str_all]. unfold name_char at 1.
  destruct (Ascii.eqb c "_") eqn:Hc.
  - rewrite orb_true_r. exact IH.
  - rewrite orb_false_r. cbn [str_all String.eqb negb andb].
    by rewrite replace_underscore_all, andb_true_r.
Qed.

Lemma name_char_ascii (c : ascii) :
  is_ascii c = true → name_char c = word_char c.
Proof.
  destruct c as [[] [] [] [] [] [] [] []]; intros H;
    solve [reflexivity | discriminate H].
Qed.

Lemma word_rule_ascii (s : string) :
  str_all is_ascii s = true → str_all name_char s = str_all word_char s.
Proof.
  induction s as [|c s IH]; [done|]. simpl.
  intros [Hc Hs]%andb_true_iff. by rewrite name_char_ascii, IH.
Qed.

(** C9 (as amended): [validate_sample_name] accepts a string exactly when
    every character is alphanumeric in Python's sense (which goes beyond
    ASCII) or an underscore, at least one character is not an underscore,
    and the length is at most 50; it accepts with an empty message and
    rejects with a non-empty one.  On ASCII strings that is the rule
    [[A-Za-z0-9_]+] up to 50 characters, names made of underscores only
    excepted. *)
Theorem validate_sample_name_rule (name : string) :
  (validate_sample_name name).1 =
    str_all name_char name && has_non_underscore name
    && (String.length name <=? 50)%nat
  ∧ (if (validate_sample_name name).1
     then (validate_sample_name name).2 = ""
     else (validate_sample_name name).2 ≠ "")
  ∧ (str_all is_ascii name = true →
     (validate_sample_name name).1 =
       matches_word_rule name && has_non_underscore name).
Proof.
  assert ((validate_sample_name name).1 =
            str_all name_char name && has_non_underscore name
            && (String.length name <=? 50)%nat) as Hrule.
  { unfold validate_sample_name.
    destruct (String.eqb_spec name "") as [->|Hne]; [done|].
    rewrite replace_underscore_isalnum.
    destruct (str_all name_char name && has_non_underscore name); simpl; [|done].
    destruct (Nat.ltb_spec 50 (String.length name)) as [Hlt|Hge]; simpl.
    - symmetry. apply Nat.leb_gt. lia.
    - symmetry. apply Nat.leb_le. lia. }
  split; [exact Hrule|]. split.
  - unfold validate_sample_name.
    destruct (String.eqb name ""); [done|].
    destruct (negb (isalnum (replace "_" "" name))); [done|].
    by destruct (50 <? String.length name)%nat.
  - intros Hascii. rewrite Hrule. unfold matches_word_rule.
    rewrite word_rule_ascii by done.
    destruct (String.eqb_spec name "") as [->|Hne]; [done|].
    simpl. by destruct (str_all word_char name), (has_non_underscore name),
      (String.length name <=? 50)%nat.
Qed.

Lemma validate_sample_name_rule_witness :
  (validate_sample_name "sample_001").1 =
    matches_word_rule "sample_001" && has_non_underscore "sample_001".
Proof.
  apply (proj2 (proj2 (validate_sample_name_rule "sample_001"))).
  reflexivity.
Defined.

Example validate_sample_name_accepts :
  validate_sample_name "sample_001" = (true, "").
Proof. reflexivity. Qed.

Lemma underscore_name_counterexample :
  matches_word_rule "_" = true
  ∧ validate_sample_name "_"
    = (false, "Sample name must be alphanumeric (underscores allowed)")
  ∧ matches_word_rule name_with_accent = false
  ∧ validate_sample_name name_with_accent = (true, "").
Proof. repeat split. Qed.

(** The sample-name rule of [validate_parameters] has no length bound. *)
Lemma validate_parameters_no_length_bound :
  String.length name_too_long = 52%nat
  ∧ validate_sample_name name_too_long
    = (false, "Sample name too long (max 50 characters)")
  ∧ validate_parameters_sample_name {[ "sample_name" := VStr name_too_long ]}
    = Ok [].
Proof. repeat split. Qed.

(** * Further properties of the code *)

(** ** [build_r_command] and [locate_output_files] *)

(** X1: [build_r_command] raises the [KeyError] of the first required key
    that is absent, in the order it reads them ([input_file], [output_dir],
    [sample_name], [genome]); when none is absent, it returns a command
    exactly when [str] answers on the value of every present optional key
    that goes through it. *)
Theorem build_r_command_first_missing (w : World) script
    (params : gmap string value) :
  match first_missing ["input_file"; "output_dir"; "sample_name"; "genome"] params with
  | Some k =>
      build_r_command w script params = Raise (PyError "KeyError" ("'" +:+ k +:+ "'"))
  | None =>
      (∃ command, build_r_command w script params = Ok command)
      ↔ ∀ key v,
          key ∈ ["ngene_chr"; "win_size"; "n_cores"; "LOW_DR"; "UP_DR"; "KS_cut"] →
          params !! key = Some v → ∃ s, py_str w v = Ok s
  end.
Proof.
  fold build_order.
  destruct (first_missing build_order params) as [k|] eqn:Hk.
  { by apply build_r_command_key_error. }
  destruct (build_order_present _ Hk) as (v1 & v2 & v3 & v4 & H1 & H2 & H3 & H4).
  rewrite (build_r_command_required w script params _ _ _ _ H1 H2 H3 H4).
  split.
  - intros [command Hc] key v Hkey Hv.
    destruct (py_str w v) as [s|e] eqn:Hs; [by exists s|].
    destruct (arguments_for w params optional_arguments) as [a|e'] eqn:Ha;
      [|done].
    exfalso. clear Hc. revert Ha. unfold optional_arguments.
    cbn [arguments_for]. unfold argument_for.
    apply list_elem_of_In in Hkey. cbn in Hkey.
    repeat (destruct Hkey as [<-|Hkey];
            [rewrite Hv, Hs;
             repeat match goal with
                    | |- context [match params !! ?k with _ => _ end] =>
                        destruct (params !! k)
                    | |- context [match py_str w ?x with _ => _ end] =>
                        destruct (py_str w x)
                    end; done|]).
    destruct Hkey.
  - intros H.
    destruct (arguments_for_ok w params optional_arguments) as [a ->];
      [|by eexists].
    intros key flag v Hin Hv. apply (H key v); [|done].
    apply list_elem_of_In in Hin. apply list_elem_of_In. cbn in Hin.
    repeat (destruct Hin as [Hin|Hin];
            [first [discriminate Hin
                   |injection Hin as <- <-; cbn;
                    repeat (first [left; reflexivity | right])]|]).
    destruct Hin.
Qed.

Lemma build_r_command_other_key_witness :
  build_r_command (world_exiting 0 "") r_script_path
    (<["low_dr" := VFloat (FNum (5 # 100))]> params_required)
  = build_r_command (world_exiting 0 "") r_script_path params_required.
Proof.
  apply (build_r_command_other_key (world_exiting 0 "") r_script_path
           params_required "low_dr" (VFloat (FNum (5 # 100)))).
  - unfold required_params. intros H. apply list_elem_of_In in H. cbn in H.
    intuition discriminate.
  - intros H. apply list_elem_of_In in H. cbn in H. intuition discriminate.
Defined.

Lemma filter_res_ok {A} (p : A → res bool) (l r : list A) :
  filter_res p l = Ok r →
  r = filter (fun x => answers_true (p x) = true) l.
Proof.
  revert r. induction l as [|x l IH]; intros r; [by intros [= <-]|].
  cbn [filter_res]. rewrite filter_cons.
  destruct (p x) as [b|e]; cbn [mbind res_bind]; [|done].
  destruct (filter_res p l) as [rest|e]; cbn [mbind res_bind]; [|done].
  intros [= <-]. rewrite <- (IH rest eq_refl).
  by destruct b.
Qed.

Lemma filter_res_raise {A} (p : A → res bool) (l : list A) e :
  filter_res p l = Raise e → ∃ x, x ∈ l ∧ p x = Raise e.
Proof.
  induction l as [|x l IH]; [done|]. cbn [filter_res].
  destruct (p x) as [b|e'] eqn:Hx; cbn [mbind res_bind].
  - destruct (filter_res p l) as [rest|e'']; cbn [mbind res_bind]; [done|].
    intros [= <-]. destruct (IH eq_refl) as (y & Hy & Hp).
    exists y. split; [by right|done].
  - intros [= <-]. exists x. split; [by left|done].
Qed.

Lemma expected_files_path (w : World) output_dir sample kind path :
  (kind, path) ∈ expected_files w output_dir sample
  ↔ expected_path w output_dir sample kind = Some path.
Proof.
  unfold expected_files, expected_path.
  rewrite !elem_of_cons, elem_of_nil.
  destruct (String.eqb_spec kind "predictions") as [->|?];
    [split; [intros [[= <-]|[[=]|[[=]|[[=]|[[=]|[]]]]]]; done
            |intros [= <-]; by left]|].
  destruct (String.eqb_spec kind "cna_results") as [->|?];
    [split; [intros [[=]|[[= <-]|[[=]|[[=]|[[=]|[]]]]]]; done
            |intros [= <-]; right; by left]|].
  destruct (String.eqb_spec kind "heatmap") as [->|?];
    [split; [intros [[=]|[[=]|[[= <-]|[[=]|[[=]|[]]]]]]; done
            |intros [= <-]; do 2 right; by left]|].
  destruct (String.eqb_spec kind "log") as [->|?];
    [split; [intros [[=]|[[=]|[[=]|[[= <-]|[[=]|[]]]]]]; done
            |intros [= <-]; do 3 right; by left]|].
  destruct (String.eqb_spec kind "report") as [->|?];
    [split; [intros [[=]|[[=]|[[=]|[[=]|[[= <-]|[]]]]]]; done
            |intros [= <-]; do 4 right; by left]|].
  split; [|done].
  intros [[= -> _]|[[= -> _]|[[= -> _]|[[= -> _]|[[= -> _]|[]]]]]]; done.
Qed.

(** X2: when [locate_output_files] returns, a kind of output file is in
    the result exactly when the file expected for that kind exists, and it
    is mapped to that file's path; a missing file is left out.  It raises
    only what the existence check of one of the expected files raises. *)
Theorem locate_output_files_present_iff_exists (w : World)
    (output_dir sample : string) :
  match locate_output_files w output_dir (VStr sample) with
  | Ok files =>
      ∀ kind path,
        files !! kind = Some path
        ↔ expected_path w output_dir sample kind = Some path
          ∧ path_exists w path = Ok true
  | Raise e =>
      ∃ kind path,
        expected_path w output_dir sample kind = Some path
        ∧ path_exists w path = Raise e
  end.
Proof.
  unfold locate_output_files. cbn [py_str str_value mbind res_bind].
  destruct (filter_res _ _) as [existing|e] eqn:Hf; cbn [mbind res_bind mret res_ret].
  - apply filter_res_ok in Hf as ->. intros kind path.
    rewrite <- elem_of_list_to_map'.
    + rewrite list_elem_of_filter, expected_files_path. cbn [snd].
      split.
      * intros [H1 H2]. split; [done|].
        by destruct (path_exists w path) as [[]|].
      * intros [H1 H2]. split; [|done]. by rewrite H2.
    + intros path' [_ H1]%list_elem_of_filter [_ H2]%list_elem_of_filter.
      apply expected_files_path in H1, H2. congruence.
  - apply filter_res_raise in Hf as ([kind path] & Hin & He).
    exists kind, path. split; [by apply expected_files_path|done].
Qed.

(** ** [run_copykat_analysis]: launches and outcomes *)

Lemma truediv_minutes (seconds : Q) :
  truediv seconds 60 = Ok (Qred (seconds / 60)).
Proof. reflexivity. Qed.

Lemma program_arguments_strings (command : list value) (arguments : list string) :
  map_res program_argument command = Ok arguments →
  command = VStr <$> arguments.
Proof.
  revert arguments. induction command as [|v command IH]; intros arguments.
  - by intros [= <-].
  - cbn [map_res]. destruct v as [| | | |s|]; cbn [program_argument mbind res_bind];
      try done.
    destruct (contains _ s); cbn [mbind res_bind]; [done|].
    destruct (map_res program_argument command) as [rest|];
      cbn [mbind res_bind]; [|done].
    intros [= <-]. by rewrite (IH rest eq_refl).
Qed.

(** X3: [run_copykat_analysis] starts at most one child, and it starts
    one exactly when no required key is absent, the command is built,
    every argument of it is a string without a null character, and the
    system starts the engine; the child is then started with these
    arguments in the project root.  A command with an argument that is
    not a string starts none. *)
Theorem run_launches_at_most_once (w : World) (params : gmap string value) :
  (length (run_copykat_analysis w params).2 ≤ 1)%nat
  ∧ (∀ l,
       l ∈ (run_copykat_analysis w params).2
       ↔ ∃ command arguments,
           first_missing required_params params = None
           ∧ build_r_command w "backend/r_scripts/copykat_analysis.R" params
             = Ok command
           ∧ map_res program_argument command = Ok arguments
           ∧ (∀ e, spawn w arguments (executor_root w) ≠ NotStarted e)
           ∧ l = (arguments, executor_root w))
  ∧ (∀ command v,
       build_r_command w "backend/r_scripts/copykat_analysis.R" params
         = Ok command →
       v ∈ command → (∀ s, v ≠ VStr s) →
       (run_copykat_analysis w params).2 = []).
Proof.
  fold r_script_path. unfold run_copykat_analysis.
  destruct (first_missing required_params params) as [param|] eqn:Hmiss.
  { cbn [snd length]. split; [lia|]. split.
    - intros l. split; [by intros ?%elem_of_nil|].
      by intros (? & ? & ? & _).
    - done. }
  destruct (build_r_command w r_script_path params) as [command|e] eqn:Hb.
  2:{ cbn [snd length]. split; [lia|]. split.
      - intros l. split; [by intros ?%elem_of_nil|].
        by intros (? & ? & _ & ? & _).
      - done. }
  unfold subprocess_run.
  destruct (map_res program_argument command) as [arguments|e] eqn:Hargs.
  2:{ cbn [snd length]. split; [lia|]. split.
      - intros l. split; [by intros ?%elem_of_nil|].
        intros (c & a & _ & [= <-] & Ha & _). congruence.
      - done. }
  assert (∀ v, v ∈ command → ∃ s, v = VStr s) as Hstr.
  { rewrite (program_arguments_strings _ _ Hargs).
    intros v (s & -> & _)%list_elem_of_fmap. by exists s. }
  destruct (spawn w arguments (executor_root w)) as [e|rc out err|rc e] eqn:Hspawn;
    cbn [snd length].
  - split; [lia|]. split.
    + intros l. split; [by intros ?%elem_of_nil|].
      intros (c & a & _ & [= <-] & Ha & Hne & _).
      rewrite Hargs in Ha. injection Ha as <-. by destruct (Hne e).
    + done.
  - split; [lia|]. split.
    + intros l. rewrite list_elem_of_singleton. split.
      * intros ->. exists command, arguments. repeat split; try done.
        intros e. by rewrite Hspawn.
      * intros (c & a & _ & [= <-] & Ha & _ & ->). congruence.
    + intros c v [= <-] Hv Hno. destruct (Hstr v Hv) as [s ->].
      by destruct (Hno s).
  - split; [lia|]. split.
    + intros l. rewrite list_elem_of_singleton. split.
      * intros ->. exists command, arguments. repeat split; try done.
        intros e'. by rewrite Hspawn.
      * intros (c & a & _ & [= <-] & Ha & _ & ->). congruence.
    + intros c v [= <-] Hv Hno. destruct (Hstr v Hv) as [s ->].
      by destruct (Hno s).
Qed.

(** X4: when the child exits with code 0, its captured output being
    text, the output directory of the sample is found, and the existence
    checks of the output files answer, the result is the success
    dictionary: the directory, the files [locate_output_files] finds in it,
    the summary [extract_summary_statistics] draws from them, the minutes
    between the two clock readings around the child, no error, and the
    time stamp. *)
Theorem run_success_bundle (w : World) (params : gmap string value)
    command arguments out err base sample dir files summary :
  build_r_command w r_script_path params = Ok command →
  map_res program_argument command = Ok arguments →
  spawn w arguments (executor_root w) = Exited 0 out err →
  params !! "output_dir" = Some base →
  params !! "sample_name" = Some sample →
  find_output_directory w base sample = Ok (Some dir) →
  dir ≠ "" →
  locate_output_files w dir sample = Ok files →
  extract_summary_statistics w files = Ok summary →
  (run_copykat_analysis w params).1 =
    Ok {[ "success" := VBool true;
          "output_dir" := VStr dir;
          "files" := VDict (VStr <$> files);
          "summary" := VDict summary;
          "runtime_minutes" :=
            VFloat (FNum (Qred ((dt_seconds (now w 1) - dt_seconds (now w 0)) / 60)));
          "error" := VNone;
          "timestamp" := VStr (dt_iso (now w 2)) ]}.
Proof.
  intros Hb Hargs Hspawn Hbase Hsample Hfind Hdir Hfiles Hsummary.
  unfold run_copykat_analysis.
  rewrite (build_r_command_ok_required _ _ _ _ Hb), Hb.
  unfold subprocess_run. rewrite Hargs, Hspawn. cbn [Z.eqb fst].
  unfold parse_outputs, getitem.
  rewrite truediv_minutes, Hbase, Hsample. cbn [mbind res_bind].
  rewrite Hfind. cbn [mbind res_bind].
  apply String.eqb_neq in Hdir as ->. cbn [negb].
  rewrite Hfiles. cbn [mbind res_bind]. by rewrite Hsummary.
Qed.

Lemma run_success_bundle_witness :
  (run_copykat_analysis (world_listing listing_two_runs) params_sampleA).1 =
    Ok {[ "success" := VBool true;
          "output_dir" := VStr "results/sampleA_20240115";
          "files" :=
            VDict (VStr <$>
                     {[ "predictions" := "results/sampleA_20240115/sampleA_copykat_prediction.txt";
                        "cna_results" := "results/sampleA_20240115/sampleA_copykat_CNA_results.txt";
                        "heatmap" := "results/sampleA_20240115/sampleA_copykat_heatmap.jpeg";
                        "log" := "results/sampleA_20240115/logs/analysis.log";
                        "report" := "results/sampleA_20240115/sampleA_report.html" ]});
          "summary" :=
            VDict {[ "n_cells" := VInt 0; "n_aneuploid" := VInt 0;
                     "n_diploid" := VInt 0; "n_not_defined" := VInt 0;
                     "aneuploid_fraction" := VFloat (FNum 0) ]};
          "runtime_minutes" :=
            VFloat (FNum (Qred ((dt_seconds (now (world_listing listing_two_runs) 1)
                                 - dt_seconds (now (world_listing listing_two_runs) 0))
                                / 60)));
          "error" := VNone;
          "timestamp" := VStr (dt_iso (now (world_listing listing_two_runs) 2)) ]}.
Proof.
  eapply (run_success_bundle (world_listing listing_two_runs) params_sampleA
            _ _ "" "" (VStr "results") (VStr "sampleA") "results/sampleA_20240115");
    [reflexivity..|discriminate|reflexivity|reflexivity].
Defined.

(** X5: the result says success only if the child was started, exited with
    code 0 and the output directory of the sample was found; the result's
    [output_dir] is then that directory. *)
Theorem run_success_only_after_exit_zero (w : World)
    (params : gmap string value) r :
  (run_copykat_analysis w params).1 = Ok r →
  r !! "success" = Some (VBool true) →
  ∃ command arguments out err base sample dir,
    build_r_command w r_script_path params = Ok command
    ∧ map_res program_argument command = Ok arguments
    ∧ spawn w arguments (executor_root w) = Exited 0 out err
    ∧ (run_copykat_analysis w params).2 = [(arguments, executor_root w)]
    ∧ params !! "output_dir" = Some base
    ∧ params !! "sample_name" = Some sample
    ∧ find_output_directory w base sample = Ok (Some dir)
    ∧ dir ≠ ""
    ∧ r !! "output_dir" = Some (VStr dir).
Proof.
  unfold run_copykat_analysis.
  destruct (first_missing required_params params) as [param|] eqn:Hmiss.
  { intros [= <-]. by rewrite failure_lookup_success. }
  destruct (build_r_command w r_script_path params) as [command|e] eqn:Hb;
    [|done].
  unfold subprocess_run.
  destruct (map_res program_argument command) as [arguments|e] eqn:Hargs.
  2:{ intros [= <-]. by rewrite failure_lookup_success. }
  destruct (spawn w arguments (executor_root w)) as [e|rc out err|rc e] eqn:Hspawn.
  1,3:(intros [= <-]; by rewrite failure_lookup_success).
  destruct (Z.eqb_spec rc 0) as [->|Hrc].
  2:{ intros [= <-]. by rewrite failure_lookup_success. }
  cbn [fst snd].
  unfold parse_outputs, getitem. rewrite truediv_minutes. cbn [mbind res_bind].
  destruct (params !! "output_dir") as [base|] eqn:Hbase; cbn [mbind res_bind].
  2:{ intros [= <-]. by rewrite failure_lookup_success. }
  destruct (params !! "sample_name") as [sample|] eqn:Hsample; cbn [mbind res_bind].
  2:{ intros [= <-]. by rewrite failure_lookup_success. }
  destruct (find_output_directory w base sample) as [[dir|]|e] eqn:Hfind;
    cbn [mbind res_bind].
  2,3:(intros [= <-]; by rewrite failure_lookup_success).
  destruct (String.eqb_spec dir "") as [->|Hdir]; cbn [negb mbind res_bind mret res_ret].
  { intros [= <-]. by rewrite failure_lookup_success. }
  destruct (locate_output_files w dir sample) as [files|e]; cbn [mbind res_bind].
  2:{ intros [= <-]. by rewrite failure_lookup_success. }
  destruct (extract_summary_statistics w files) as [summary|e];
    cbn [mbind res_bind mret res_ret].
  2:{ intros [= <-]. by rewrite failure_lookup_success. }
  intros [= <-] _.
  exists command, arguments, out, err, base, sample, dir. by repeat split.
Qed.

Lemma run_success_only_after_exit_zero_witness :
  ∃ command arguments out err base sample dir,
    build_r_command (world_listing listing_two_runs) r_script_path params_sampleA
      = Ok command
    ∧ map_res program_argument command = Ok arguments
    ∧ spawn (world_listing listing_two_runs) arguments
        (executor_root (world_listing listing_two_runs)) = Exited 0 out err
    ∧ (run_copykat_analysis (world_listing listing_two_runs) params_sampleA).2
      = [(arguments, executor_root (world_listing listing_two_runs))]
    ∧ params_sampleA !! "output_dir" = Some base
    ∧ params_sampleA !! "sample_name" = Some sample
    ∧ find_output_directory (world_listing listing_two_runs) base sample
      = Ok (Some dir)
    ∧ dir ≠ ""
    ∧ ({[ "success" := VBool true;
         "output_dir" := VStr "results/sampleA_20240115";
         "files" :=
           VDict (VStr <$>
                    {[ "predictions" := "results/sampleA_20240115/sampleA_copykat_prediction.txt";
                       "cna_results" := "results/sampleA_20240115/sampleA_copykat_CNA_results.txt";
                       "heatmap" := "results/sampleA_20240115/sampleA_copykat_heatmap.jpeg";
                       "log" := "results/sampleA_20240115/logs/analysis.log";
                       "report" := "results/sampleA_20240115/sampleA_report.html" ]});
         "summary" :=
           VDict {[ "n_cells" := VInt 0; "n_aneuploid" := VInt 0;
                    "n_diploid" := VInt 0; "n_not_defined" := VInt 0;
                    "aneuploid_fraction" := VFloat (FNum 0) ]};
         "runtime_minutes" := VFloat (FNum 2);
         "error" := VNone;
         "timestamp" := VStr "2024-01-15T10:00:00" ]} : gmap string value)
      !! "output_dir" = Some (VStr dir).
Proof.
  apply (run_success_only_after_exit_zero (world_listing listing_two_runs)
           params_sampleA); reflexivity.
Defined.

(** When the system cannot start the engine, the result is the failure
    dictionary with ["Unexpected error: "] followed by the text of the
    exception and [runtime_minutes] 0, and no child has run. *)
Theorem run_launch_failure (w : World) (params : gmap string value)
    command arguments e :
  build_r_command w r_script_path params = Ok command →
  map_res program_argument command = Ok arguments →
  spawn w arguments (executor_root w) = NotStarted e →
  run_copykat_analysis w params =
    (Ok {[ "success" := VBool false;
           "error" := VStr ("Unexpected error: " +:+ exc_str e);
           "output_dir" := VNone;
           "files" := VDict ∅;
           "summary" := VDict ∅;
           "runtime_minutes" := VInt 0 ]},
     []).
Proof.
  intros Hb Hargs Hspawn. unfold run_copykat_analysis.
  rewrite (build_r_command_ok_required _ _ _ _ Hb), Hb.
  unfold subprocess_run. by rewrite Hargs, Hspawn.
Qed.

Lemma run_launch_failure_witness :
  run_copykat_analysis world_no_engine params_required =
    (Ok {[ "success" := VBool false;
           "error" :=
             VStr ("Unexpected error: "
                   +:+ "[Errno 2] No such file or directory: 'Rscript'");
           "output_dir" := VNone;
           "files" := VDict ∅;
           "summary" := VDict ∅;
           "runtime_minutes" := VInt 0 ]},
     []).
Proof.
  eapply (run_launch_failure world_no_engine params_required _ _
            (PyError "FileNotFoundError"
               "[Errno 2] No such file or directory: 'Rscript'"));
    reflexivity.
Defined.

(** X6: when the child exits with code 0, its captured output being
    text, and no output directory is found, the result is the failure
    dictionary ["Output directory not found"], and it keeps the measured
    run time, where the other failures report 0. *)
Theorem run_output_not_found (w : World) (params : gmap string value)
    command arguments out err base sample :
  build_r_command w r_script_path params = Ok command →
  map_res program_argument command = Ok arguments →
  spawn w arguments (executor_root w) = Exited 0 out err →
  params !! "output_dir" = Some base →
  params !! "sample_name" = Some sample →
  find_output_directory w base sample = Ok None →
  (run_copykat_analysis w params).1 =
    Ok {[ "success" := VBool false;
          "error" := VStr "Output directory not found";
          "output_dir" := VNone;
          "files" := VDict ∅;
          "summary" := VDict ∅;
          "runtime_minutes" :=
            VFloat (FNum (Qred ((dt_seconds (now w 1) - dt_seconds (now w 0)) / 60))) ]}.
Proof.
  intros Hb Hargs Hspawn Hbase Hsample Hfind.
  unfold run_copykat_analysis.
  rewrite (build_r_command_ok_required _ _ _ _ Hb), Hb.
  unfold subprocess_run. rewrite Hargs, Hspawn. cbn [Z.eqb fst].
  unfold parse_outputs, getitem.
  rewrite truediv_minutes, Hbase, Hsample. cbn [mbind res_bind].
  by rewrite Hfind.
Qed.

Lemma run_output_not_found_witness :
  (run_copykat_analysis (world_exiting 0 "") params_required).1 =
    Ok {[ "success" := VBool false;
          "error" := VStr "Output directory not found";
          "output_dir" := VNone;
          "files" := VDict ∅;
          "summary" := VDict ∅;
          "runtime_minutes" :=
            VFloat (FNum (Qred ((dt_seconds (now (world_exiting 0 "") 1)
                                 - dt_seconds (now (world_exiting 0 "") 0)) / 60))) ]}.
Proof.
  eapply (run_output_not_found (world_exiting 0 "") params_required
            _ _ "" "" (VStr "results") (VStr "sample_001"));
    reflexivity.
Defined.

(** ** The counts of a summary *)

Lemma value_counts_get_nonneg label col : 0 ≤ value_counts_get label col.
Proof. unfold value_counts_get. lia. Qed.

Lemma value_counts_disjoint (col : list cell) :
  value_counts_get "aneuploid" col + value_counts_get "diploid" col
  + value_counts_get "not.defined" col ≤ Z.of_nat (length col).
Proof.
  unfold value_counts_get. induction col as [|c col IH]; [done|].
  rewrite !filter_cons. cbn [length].
  destruct c as [q|s|]; cbn [cell_is].
  - repeat case_decide; try done. lia.
  - destruct (String.eqb_spec s "aneuploid") as [->|?];
      [|destruct (String.eqb_spec s "diploid") as [->|?];
        [|destruct (String.eqb_spec s "not.defined") as [->|?]]];
      repeat case_decide; try done; cbn [length]; lia.
  - repeat case_decide; try done. lia.
Qed.

Lemma fraction_in_unit_interval (a n : Z) :
  0 ≤ a ≤ n → 0 < n →
  (0 <= Qred (inject_Z a / inject_Z n) <= 1)%Q.
Proof.
  intros Ha Hn. rewrite Qred_correct.
  assert (0 < inject_Z n)%Q as Hpos by (unfold Qlt; simpl; lia).
  split.
  - apply Qle_shift_div_l; [done|]. rewrite Qmult_0_l.
    unfold Qle. simpl. lia.
  - apply Qle_shift_div_r; [done|]. rewrite Qmult_1_l.
    unfold Qle. simpl. lia.
Qed.

(** The counting step of both summarizers, on a table that has been
    read. *)
Lemma counted_bounds (df : DataFrame) :
  has_column "copykat.pred" df = true →
  0 ≤ value_counts_get "aneuploid" (column "copykat.pred" df)
  ∧ 0 ≤ value_counts_get "diploid" (column "copykat.pred" df)
  ∧ 0 ≤ value_counts_get "not.defined" (column "copykat.pred" df)
  ∧ value_counts_get "aneuploid" (column "copykat.pred" df)
    + value_counts_get "diploid" (column "copykat.pred" df)
    + value_counts_get "not.defined" (column "copykat.pred" df) ≤ len df.
Proof.
  intros Hcol. repeat split; try apply value_counts_get_nonneg.
  unfold len. rewrite <- (column_length _ _ Hcol).
  apply value_counts_disjoint.
Qed.

(** X7: in the summary of [generate_summary] and in that of
    [extract_summary_statistics] the three counts are non-negative and sum
    to at most [n_cells], and the fraction lies between 0 and 1. *)
Theorem summary_counts_bounded (df : DataFrame) :
  (∀ s, generate_summary df = Ok s →
     ∃ a d u q,
       s !! "n_cells" = Some (VInt (len df))
       ∧ s !! "n_aneuploid" = Some (VInt a)
       ∧ s !! "n_diploid" = Some (VInt d)
       ∧ s !! "n_not_defined" = Some (VInt u)
       ∧ s !! "aneuploid_fraction" = Some (VFloat (FNum q))
       ∧ 0 ≤ a ∧ 0 ≤ d ∧ 0 ≤ u ∧ a + d + u ≤ len df
       ∧ (0 <= q <= 1)%Q)
  ∧ (∀ (w : World) (files : gmap string string) p,
       files !! "predictions" = Some p → p ≠ "" → path_exists w p = Ok true →
       read_csv w p = Ok df →
       ∃ s a d u q,
         extract_summary_statistics w files = Ok s
         ∧ s !! "n_cells" = Some (VInt (len df))
         ∧ s !! "n_aneuploid" = Some (VInt a)
         ∧ s !! "n_diploid" = Some (VInt d)
         ∧ s !! "n_not_defined" = Some (VInt u)
         ∧ s !! "aneuploid_fraction" = Some (VFloat (FNum q))
         ∧ 0 ≤ a ∧ 0 ≤ d ∧ 0 ≤ u ∧ a + d + u ≤ len df
         ∧ (0 <= q <= 1)%Q).
Proof.
  assert (0 ≤ len df) as Hlen by (unfold len; lia).
  split.
  - intros s. unfold generate_summary.
    assert (∀ s1 : gmap string value,
              (if has_column "copykat.confidence" df
               then m ← mean (column "copykat.confidence" df);
                    mret (<["mean_confidence" := VFloat m]> s1)
               else mret s1) = Ok s →
              ∀ k, k ≠ "mean_confidence" → s !! k = s1 !! k) as Hconf.
    { intros s1 Hs k Hk.
      destruct (has_column "copykat.confidence" df); [|by injection Hs as <-].
      destruct (mean _) as [m|]; [|done]. injection Hs as <-.
      by rewrite lookup_insert_ne. }
    destruct (has_column "copykat.pred" df) eqn:Hcol.
    + destruct (counted_bounds df Hcol) as (Ha & Hd & Hu & Hsum).
      destruct (0 <? len df) eqn:Hn.
      * rewrite truediv_positive by lia. cbn [mbind res_bind mret res_ret].
        intros Hs. eexists _, _, _, _.
        rewrite !(Hconf _ Hs) by done.
        repeat split; try reflexivity; try done;
          apply fraction_in_unit_interval; lia.
      * cbn [mbind res_bind mret res_ret].
        intros Hs. eexists _, _, _, _.
        rewrite !(Hconf _ Hs) by done.
        repeat split; try reflexivity; done.
    + cbn [mbind res_bind mret res_ret].
      intros Hs. exists 0, 0, 0, 0%Q.
      rewrite !(Hconf _ Hs) by done.
      repeat split; try reflexivity; done.
  - intros w files p Hp Hne Hex Hread. unfold extract_summary_statistics.
    rewrite Hp. apply String.eqb_neq in Hne as ->. cbn [negb].
    rewrite Hex. cbn [mbind res_bind]. rewrite Hread.
    destruct (has_column "copykat.pred" df) eqn:Hcol.
    + destruct (counted_bounds df Hcol) as (Ha & Hd & Hu & Hsum).
      destruct (0 <? len df) eqn:Hn.
      * rewrite truediv_positive by lia. eexists _, _, _, _, _.
        split; [reflexivity|].
        repeat split; try reflexivity; try done;
          apply fraction_in_unit_interval; lia.
      * eexists _, _, _, _, _. split; [reflexivity|].
        repeat split; try reflexivity; done.
    + eexists _, 0, 0, 0, 0%Q. split; [reflexivity|].
      repeat split; try reflexivity; done.
Qed.

Lemma summary_counts_bounded_witness :
  ∃ a d u q,
    ({[ "n_cells" := VInt 3; "n_aneuploid" := VInt 2; "n_diploid" := VInt 1;
        "n_not_defined" := VInt 0;
        "aneuploid_fraction" := VFloat (FNum (2 # 3));
        "mean_confidence" := VFloat (FNum (53 # 60)) ]} : gmap string value)
      !! "n_cells" = Some (VInt (len table_three_cells))
    ∧ ({[ "n_cells" := VInt 3; "n_aneuploid" := VInt 2; "n_diploid" := VInt 1;
          "n_not_defined" := VInt 0;
          "aneuploid_fraction" := VFloat (FNum (2 # 3));
          "mean_confidence" := VFloat (FNum (53 # 60)) ]} : gmap string value)
        !! "n_aneuploid" = Some (VInt a)
    ∧ ({[ "n_cells" := VInt 3; "n_aneuploid" := VInt 2; "n_diploid" := VInt 1;
          "n_not_defined" := VInt 0;
          "aneuploid_fraction" := VFloat (FNum (2 # 3));
          "mean_confidence" := VFloat (FNum (53 # 60)) ]} : gmap string value)
        !! "n_diploid" = Some (VInt d)
    ∧ ({[ "n_cells" := VInt 3; "n_aneuploid" := VInt 2; "n_diploid" := VInt 1;
          "n_not_defined" := VInt 0;
          "aneuploid_fraction" := VFloat (FNum (2 # 3));
          "mean_confidence" := VFloat (FNum (53 # 60)) ]} : gmap string value)
        !! "n_not_defined" = Some (VInt u)
    ∧ ({[ "n_cells" := VInt 3; "n_aneuploid" := VInt 2; "n_diploid" := VInt 1;
          "n_not_defined" := VInt 0;
          "aneuploid_fraction" := VFloat (FNum (2 # 3));
          "mean_confidence" := VFloat (FNum (53 # 60)) ]} : gmap string value)
        !! "aneuploid_fraction" = Some (VFloat (FNum q))
    ∧ 0 ≤ a ∧ 0 ≤ d ∧ 0 ≤ u ∧ a + d + u ≤ len table_three_cells
    ∧ (0 <= q <= 1)%Q.
Proof.
  apply (proj1 (summary_counts_bounded table_three_cells)). reflexivity.
Defined.

(** ** The log reader: [parse_log_for_progress] *)

Lemma scan_lines_progress_line (line : string) (rest : list string) :
  scan_lines (line :: rest) =
    match progress_line line with
    | Some m => Some m
    | None => scan_lines rest
    end.
Proof.
  cbn [scan_lines]. unfold progress_line.
  destruct (contains "STEP" line || contains "INFO" line); [|done].
  by destruct (split ":" 2 line) as [|? [|? [|? ?]]].
Qed.

Lemma scan_lines_app (l1 l2 : list string) :
  Forall (fun l => progress_line l = None) l1 →
  scan_lines (l1 ++ l2) = scan_lines l2.
Proof.
  induction 1 as [|line l1 Hline _ IH]; [done|].
  rewrite <- app_comm_cons, scan_lines_progress_line. by rewrite Hline.
Qed.

Lemma last_lines_app (n : nat) (older recent : list string) :
  length recent = n → last_lines n (older ++ recent) = recent.
Proof.
  intros Hlen. unfold last_lines. rewrite length_app.
  replace (length older + length recent - n)%nat with (length older) by lia.
  by rewrite drop_app_length.
Qed.

Lemma last_lines_short (n : nat) (lines : list string) :
  (length lines ≤ n)%nat → last_lines n lines = lines.
Proof.
  intros Hlen. unfold last_lines.
  by replace (length lines - n)%nat with 0%nat by lia.
Qed.

Lemma last_lines_suffix (n : nat) (before after : list string) :
  (length after ≤ n)%nat →
  ∃ kept, last_lines n (before ++ after) = kept ++ after.
Proof.
  intros Hlen. unfold last_lines. rewrite length_app.
  destruct (decide (length before + length after ≤ n)%nat) as [Hle|Hgt].
  - replace (length before + length after - n)%nat with 0%nat by lia.
    by exists before.
  - exists (drop (length before + length after - n) before).
    rewrite drop_app.
    replace (length before + length after - n - length before)%nat
      with 0%nat by lia.
    done.
Qed.

(** X8: only the last ten lines of the log count: with ten lines or more,
    the message is the one read from the last ten, whatever stands before
    them. *)
Theorem parse_log_last_ten_lines (w : World) (log_file : string)
    (older recent : list string) :
  readlines w log_file = Ok (older ++ recent) →
  length recent = 10%nat →
  parse_log_for_progress w log_file = scan_lines (rev recent).
Proof.
  intros Hread Hlen. unfold parse_log_for_progress.
  by rewrite Hread, last_lines_app.
Qed.

Lemma parse_log_last_ten_lines_witness :
  parse_log_for_progress (world_log log_twelve_lines) "logs/analysis.log"
  = scan_lines (rev (drop 2 log_twelve_lines)).
Proof.
  apply (parse_log_last_ten_lines (world_log log_twelve_lines)
           "logs/analysis.log" (take 2 log_twelve_lines)
           (drop 2 log_twelve_lines)); reflexivity.
Defined.

(** X9: the message comes from the latest line that yields one: a tagged
    line with three colon-separated fields, among the last ten lines, all
    lines after it yielding none, gives its third field, stripped. *)
Theorem parse_log_latest_line_wins (w : World) (log_file : string)
    (before after : list string) (line m : string) :
  readlines w log_file = Ok (before ++ line :: after) →
  (length after < 10)%nat →
  progress_line line = Some m →
  Forall (fun l => progress_line l = None) after →
  parse_log_for_progress w log_file = Some m.
Proof.
  intros Hread Hlen Hline Hafter. unfold parse_log_for_progress.
  rewrite Hread.
  destruct (last_lines_suffix 10 before (line :: after)) as [kept ->].
  { cbn [length]. lia. }
  rewrite rev_app_distr. cbn [rev]. rewrite <- !app_assoc.
  rewrite scan_lines_app by by apply Forall_rev.
  cbn [app]. by rewrite scan_lines_progress_line, Hline.
Qed.

Lemma parse_log_latest_line_wins_witness :
  parse_log_for_progress (world_log log_twelve_lines) "logs/analysis.log"
  = Some "Smoothing".
Proof.
  apply (parse_log_latest_line_wins (world_log log_twelve_lines)
           "logs/analysis.log" (take 7 log_twelve_lines)
           (drop 8 log_twelve_lines) "copykat: STEP:   Smoothing  ").
  - reflexivity.
  - cbn. lia.
  - reflexivity.
  - repeat constructor.
Defined.

Lemma lstrip_head (s : string) :
  match lstrip s with
  | EmptyString => True
  | String c _ => char_isspace c = false
  end.
Proof.
  induction s as [|c s IH]; [done|]. cbn [lstrip].
  by destruct (char_isspace c) eqn:Hc.
Qed.

Lemma rstrip_idempotent (s : string) : rstrip (rstrip s) = rstrip s.
Proof.
  induction s as [|c s IH]; [done|]. cbn [rstrip].
  destruct (rstrip s) as [|d r] eqn:Hr.
  - destruct (char_isspace c) eqn:Hc; [done|]. cbn [rstrip]. by rewrite Hc.
  - cbn [rstrip]. cbn [rstrip] in IH. by rewrite IH.
Qed.

Lemma lstrip_rstrip (s : string) :
  match s with
  | EmptyString => True
  | String c _ => char_isspace c = false
  end →
  lstrip (rstrip s) = rstrip s.
Proof.
  destruct s as [|c s]; [done|]. intros Hc. cbn [rstrip].
  destruct (rstrip s) as [|d r].
  - rewrite Hc. cbn [lstrip]. by rewrite Hc.
  - cbn [lstrip]. by rewrite Hc.
Qed.

Lemma strip_idempotent (s : string) : strip (strip s) = strip s.
Proof.
  unfold strip. rewrite (lstrip_rstrip (lstrip s)) by apply lstrip_head.
  apply rstrip_idempotent.
Qed.

Lemma scan_lines_found (lines : list string) (m : string) :
  scan_lines lines = Some m →
  ∃ line, line ∈ lines ∧ progress_line line = Some m.
Proof.
  induction lines as [|line lines IH]; [done|].
  rewrite scan_lines_progress_line.
  destruct (progress_line line) as [m'|] eqn:Hline.
  - intros [= ->]. exists line. split; [by left|done].
  - intros H. destruct (IH H) as (l & Hl & Hm). exists l. split; [by right|done].
Qed.

Lemma progress_line_stripped (line m : string) :
  progress_line line = Some m → strip m = m.
Proof.
  unfold progress_line.
  destruct (contains "STEP" line || contains "INFO" line); [|done].
  destruct (split ":" 2 line) as [|? [|? [|part ?]]]; try done.
  intros [= <-]. apply strip_idempotent.
Qed.

Lemma last_lines_subset (n : nat) (lines : list string) (l : string) :
  l ∈ last_lines n lines → l ∈ lines.
Proof.
  unfold last_lines. intros H.
  rewrite <- (take_drop (length lines - n) lines). apply elem_of_app. by right.
Qed.

(** X10: the label of a checkpoint is replaced only by a message read from
    an existing, readable log: a non-empty message without surrounding
    white space, yielded by one of the lines of the log; in every other
    case in which a message is made the canned label stands.  None is made
    only when the existence check of the log raises. *)
Theorem stage_message_canned_or_logged (w : World) (log_file : option string)
    (message : string) :
  match stage_message w log_file message with
  | Ok shown =>
      shown = message
      ∨ ∃ f lines line,
          log_file = Some f ∧ f ≠ "" ∧ path_exists w f = Ok true
          ∧ readlines w f = Ok lines
          ∧ line ∈ lines
          ∧ progress_line line = Some shown
          ∧ shown ≠ ""
          ∧ strip shown = shown
  | Raise e => ∃ f, log_file = Some f ∧ f ≠ "" ∧ path_exists w f = Raise e
  end.
Proof.
  unfold stage_message.
  destruct log_file as [f|]; [|by left].
  destruct (String.eqb_spec f "") as [->|Hf]; [by left|]. cbn [negb].
  destruct (path_exists w f) as [[]|e] eqn:Hex; cbn [mbind res_bind mret res_ret];
    [|by left|by exists f].
  unfold parse_log_for_progress.
  destruct (readlines w f) as [lines|e] eqn:Hread; [|by left].
  destruct (scan_lines (rev (last_lines 10 lines))) as [m|] eqn:Hscan;
    [|by left].
  destruct (String.eqb_spec m "") as [->|Hm]; [by left|]. cbn [negb].
  right. destruct (scan_lines_found _ _ Hscan) as (line & Hin & Hline).
  exists f, lines, line. repeat split; try done.
  - apply (last_lines_subset 10), list_elem_of_In, in_rev.
    by apply list_elem_of_In.
  - by eapply progress_line_stripped.
Qed.

(** ** The monitor, in closed form *)

(** X11: when the child has exited at its [n]-th poll with a return code
    that is zero or has a numeral [str] accepts, and the message of every
    checkpoint before it has been made, the events are the
    checkpoints of the first [n] stages (at most the six), in order: the
    [i]-th (from 0) is made at the [i]-th poll and holds the [i]-th of the
    progress values 0.1, 0.2, 0.3, 0.4, 0.9, 1.0, the message made for it,
    the label ["Stage i+1/6"], [complete] false and the time of that
    poll; they are followed by the final event made at the [n]-th poll,
    and the generator ends. *)
Theorem monitor_events_closed_form (worlds : nat → World) (process : Process)
    (log_file : option string) (messages : nat → string)
    (n : nat) (rc : Z) (fuel : nat) :
  (∀ k, (k < n)%nat → poll process k = None) →
  poll process n = Some rc →
  (n < fuel)%nat →
  rc = 0 ∨ printable rc = true →
  (∀ k progress label,
     (k < n)%nat → checkpoints !! k = Some (progress, label) →
     stage_message (worlds k) log_file label = Ok (messages k)) →
  monitor_analysis_progress worlds process log_file fuel =
    Some {| yielded :=
              checkpoint_events worlds messages 0 (take n checkpoints)
              ++ [completion_event (worlds n) rc];
            died := None |}.
Proof.
  intros Halive Hexit Hfuel Hrc Hmsg. unfold monitor_analysis_progress.
  rewrite (monitor_loop_closed worlds process log_file n rc Halive Hexit
             messages n 0 fuel); [|lia|lia|].
  - by rewrite drop_0, ending_completion.
  - intros k p label Hk. apply Hmsg. lia.
Qed.

Lemma monitor_events_closed_form_witness :
  monitor_analysis_progress (fun _ => world_exiting 1 "") (process_ending 2 1)
    None 5 =
    Some {| yielded :=
              [ checkpoint_event (world_exiting 1 "") 0 (1 # 10)
                  "Loading and validating data...";
                checkpoint_event (world_exiting 1 "") 1 (2 # 10)
                  "Quality control assessment...";
                completion_event (world_exiting 1 "") 1 ];
            died := None |}.
Proof.
  assert (∀ k, (k < 2)%nat → poll (process_ending 2 1) k = None) as Halive.
  { intros k Hk. unfold process_ending. cbn [poll].
    by apply Nat.ltb_lt in Hk as ->. }
  apply (monitor_events_closed_form (fun _ => world_exiting 1 "")
           (process_ending 2 1) None
           (fun k => match checkpoints !! k with
                     | Some (_, label) => label
                     | None => ""
                     end) 2 1 5 Halive eq_refl ltac:(lia)).
  - by right.
  - intros k p label _ Hk. cbn [stage_message mret res_ret]. by rewrite Hk.
Defined.

(** ** Configuration dictionaries: [merge_configs], [validate_config] *)

Lemma merge_configs_entry (base override : gmap string value) (k : string) :
  merge_configs base override !! k = merged_entry (base !! k) (override !! k).
Proof.
  unfold merge_configs at 1. cbn [merge_into]. revert k.
  apply (map_fold_weak_ind
           (fun merged (m : gmap string value) =>
              ∀ k, merged !! k = merged_entry (base !! k) (m !! k))).
  - intros k. by rewrite lookup_empty.
  - intros i x m r Hi IH k.
    pose proof (IH i) as Hri. rewrite Hi in Hri. cbn [merged_entry] in Hri.
    destruct (decide (k = i)) as [->|Hne].
    + rewrite lookup_insert_eq, Hri. cbn [merged_entry].
      destruct (base !! i) as [[]|]; try apply lookup_insert_eq.
      destruct x; apply lookup_insert_eq.
    + rewrite (lookup_insert_ne m) by done. rewrite <- IH.
      destruct (r !! i) as [[]|]; try by rewrite lookup_insert_ne.
      destruct x; by rewrite lookup_insert_ne.
Qed.


(** X12: under every key, [merge_configs] leaves the value of the override
    when the override has the key, the base's value otherwise; when both
    hold a dictionary there, it leaves the merge of the two. *)
Theorem merge_configs_lookup (base override : gmap string value) (k : string) :
  merge_configs base override !! k
  = match override !! k with
    | None => base !! k
    | Some v =>
        match base !! k with
        | Some (VDict b) =>
            match v with
            | VDict o => Some (VDict (merge_configs b o))
            | _ => Some v
            end
        | _ => Some v
        end
    end.
Proof. apply merge_configs_entry. Qed.

Lemma value_size_lookup (d : gmap string value) k v :
  d !! k = Some v → (value_size v < value_size (VDict d))%nat.
Proof.
  intros Hk. cbn [value_size].
  rewrite (map_fold_delete_L _ _ k v d); [lia| |done].
  intros. lia.
Qed.

Lemma merge_configs_self_sized (n : nat) :
  ∀ d : gmap string value,
    (value_size (VDict d) < n)%nat → merge_configs d d = d.
Proof.
  induction n as [|n IH]; intros d Hsize; [lia|].
  apply map_eq. intros k. rewrite merge_configs_entry.
  destruct (d !! k) as [v|] eqn:Hk; [|done]. cbn [merged_entry].
  destruct v; try done.
  rewrite IH; [done|]. pose proof (value_size_lookup d k _ Hk). lia.
Qed.

Lemma merge_configs_idempotent_sized (n : nat) :
  ∀ base override : gmap string value,
    (value_size (VDict override) < n)%nat →
    merge_configs (merge_configs base override) override
    = merge_configs base override.
Proof.
  induction n as [|n IH]; intros base override Hsize; [lia|].
  apply map_eq. intros k. rewrite !merge_configs_entry.
  destruct (override !! k) as [v|] eqn:Hk; [|done]. cbn [merged_entry].
  pose proof (value_size_lookup override k _ Hk) as Hlt.
  destruct (base !! k) as [[| | | | |b]|]; destruct v as [| | | | |o]; try done.
  - by rewrite (merge_configs_self_sized (S (value_size (VDict o)))) by lia.
  - by rewrite (merge_configs_self_sized (S (value_size (VDict o)))) by lia.
  - by rewrite (merge_configs_self_sized (S (value_size (VDict o)))) by lia.
  - by rewrite (merge_configs_self_sized (S (value_size (VDict o)))) by lia.
  - by rewrite (merge_configs_self_sized (S (value_size (VDict o)))) by lia.
  - rewrite IH; [done|lia].
  - by rewrite (merge_configs_self_sized (S (value_size (VDict o)))) by lia.
Qed.

(** X13: merging the same override a second time changes nothing. *)
Theorem merge_configs_idempotent (base override : gmap string value) :
  merge_configs (merge_configs base override) override
  = merge_configs base override.
Proof.
  apply (merge_configs_idempotent_sized (S (value_size (VDict override)))).
  lia.
Qed.

(** X14: the merged dictionary has the keys of the base and those of the
    override and no other; merging the empty override gives the base, and
    merging into the empty base gives the override. *)
Theorem merge_configs_keys (base override : gmap string value) :
  dom (merge_configs base override) = dom base ∪ dom override
  ∧ merge_configs base ∅ = base
  ∧ merge_configs ∅ override = override.
Proof.
  split; [|split].
  - apply set_eq. intros k.
    rewrite elem_of_union, !elem_of_dom, merge_configs_entry.
    destruct (override !! k) as [v|], (base !! k) as [[| | | | |b]|];
      cbn [merged_entry]; try destruct v; split;
      try (intros; by eexists); try (intros [[? ?]|[? ?]]; done);
      intros [? ?]; try (left; by eexists); try (right; by eexists); done.
  - apply map_eq. intros k. by rewrite merge_configs_entry, lookup_empty.
  - apply map_eq. intros k. rewrite merge_configs_entry, lookup_empty.
    by destruct (override !! k).
Qed.

Lemma extends_refl errors : extends_with_fields errors errors.
Proof. exists []. by rewrite app_nil_r. Qed.

Lemma extends_step errors m : field_message m → extends_with_fields errors (errors ++ [m]).
Proof. intros H. exists [m]. split; [done|]. by constructor. Qed.

Lemma extends_trans e1 e2 e3 :
  extends_with_fields e1 e2 → extends_with_fields e2 e3 →
  extends_with_fields e1 e3.
Proof.
  intros (m1 & -> & H1) (m2 & -> & H2). exists (m1 ++ m2).
  split; [by rewrite app_assoc|]. by apply Forall_app.
Qed.

Lemma require_field_extends config section field msg errors errors' :
  field_message msg →
  require_field config section field msg errors = Ok errors' →
  extends_with_fields errors errors'.
Proof.
  intros Hmsg. unfold require_field.
  destruct (config !! section) as [s|]; [|intros [= <-]; apply extends_refl].
  destruct (py_contains field s) as [[]|]; cbn [mbind res_bind mret res_ret];
    intros [= <-]; [apply extends_refl|by apply extends_step].
Qed.

Lemma check_rate_extends copykat key msg errors errors' :
  field_message msg →
  check_rate copykat key msg errors = Ok errors' →
  extends_with_fields errors errors'.
Proof.
  intros Hmsg. unfold check_rate.
  destruct (py_contains key copykat) as [[]|]; cbn [mbind res_bind mret res_ret];
    [|intros [= <-]; apply extends_refl|done].
  destruct (py_getitem copykat key) as [rate|]; cbn [mbind res_bind]; [|done].
  destruct (py_and _ _) as [[]|]; cbn [mbind res_bind mret res_ret];
    intros [= <-]; [apply extends_refl|by apply extends_step].
Qed.

Lemma validate_config_errors (w : World) (config : gmap string value)
    valid errors :
  validate_config w config = Ok (valid, errors) →
  extends_with_fields (missing_sections config) errors
  ∧ valid = bool_decide (length errors = 0%nat).
Proof.
  unfold validate_config. fold (missing_sections config).
  generalize (missing_sections config) as e0. intros e0.
  destruct (require_field config "input" _ _ e0) as [e1|] eqn:H1;
    cbn [mbind res_bind]; [|done].
  destruct (require_field config "output" "directory" _ e1) as [e2|] eqn:H2;
    cbn [mbind res_bind]; [|done].
  destruct (require_field config "output" "sample_name" _ e2) as [e3|] eqn:H3;
    cbn [mbind res_bind]; [|done].
  apply require_field_extends in H1; [|by left].
  apply require_field_extends in H2; [|by right; left].
  apply require_field_extends in H3; [|by right; right; left].
  assert (extends_with_fields e0 e3) as H03
    by (eapply extends_trans; [eapply extends_trans|]; eauto).
  clear H1 H2 H3.
  match goal with
  | |- context [mbind ?k ?g] =>
      destruct g as [e7|] eqn:Hblock; cbn [mbind res_bind mret res_ret]; [|done]
  end.
  intros [= <- <-]. split; [|done].
  eapply extends_trans; [exact H03|]. clear H03.
  destruct (config !! "copykat") as [copykat|];
    [|injection Hblock as <-; apply extends_refl].
  destruct (py_contains "genome" copykat) as [has_genome|];
    cbn [mbind res_bind] in Hblock; [|done].
  assert (∀ e, (if has_genome
                then genome ← py_getitem copykat "genome";
                     if in_strings genome ["hg20"; "mm10"] then mret e3
                     else genome ← py_getitem copykat "genome";
                          shown ← py_str w genome;
                          mret (e3 ++ ["Invalid genome: " +:+ shown])
                else mret e3) = Ok e → extends_with_fields e3 e) as Hgenome.
  { intros e He. destruct has_genome; cbn [mbind res_bind mret res_ret] in He;
      [|injection He as <-; apply extends_refl].
    destruct (py_getitem copykat "genome") as [genome|];
      cbn [mbind res_bind mret res_ret] in He; [|done].
    destruct (in_strings genome _); cbn [mbind res_bind mret res_ret] in He;
      [injection He as <-; apply extends_refl|].
    destruct (py_str w genome) as [shown|];
      cbn [mbind res_bind mret res_ret] in He; [|done].
    injection He as <-. apply extends_step. do 3 right. left. by eexists. }
  match type of Hblock with
  | mbind ?k ?g = _ =>
      destruct g as [e4|] eqn:H4; cbn [mbind res_bind] in Hblock; [|done]
  end.
  clear H4. pose proof (Hgenome e4 eq_refl) as H4.
  destruct (check_rate copykat "LOW_DR" _ e4) as [e5|] eqn:H5;
    cbn [mbind res_bind] in Hblock; [|done].
  destruct (check_rate copykat "UP_DR" _ e5) as [e6|] eqn:H6;
    cbn [mbind res_bind] in Hblock; [|done].
  apply check_rate_extends in H5; [|by do 4 right; left].
  apply check_rate_extends in H6; [|by do 5 right; left].
  eapply extends_trans; [exact H4|].
  eapply extends_trans; [exact H5|].
  eapply extends_trans; [exact H6|].
  destruct (py_and _ _) as [[]|]; cbn [mbind res_bind mret res_ret] in Hblock;
    [| |done].
  - destruct (py_getitem copykat "UP_DR") as [up|];
      cbn [mbind res_bind] in Hblock; [|done].
    destruct (py_getitem copykat "LOW_DR") as [low|];
      cbn [mbind res_bind] in Hblock; [|done].
    destruct (py_lt up low) as [[]|]; cbn [mbind res_bind mret res_ret] in Hblock;
      [| |done]; injection Hblock as <-.
    + apply extends_step. by do 6 right.
    + apply extends_refl.
  - injection Hblock as <-. apply extends_refl.
Qed.

Lemma missing_section_listed (config : gmap string value) k :
  k ∈ ["input"; "output"; "copykat"] → config !! k = None →
  "Missing required section: " +:+ k ∈ missing_sections config.
Proof.
  intros Hk Hnone. unfold missing_sections. cbn [fold_left].
  apply list_elem_of_In in Hk. cbn in Hk.
  destruct Hk as [<-|[<-|[<-|[]]]]; rewrite Hnone;
    repeat match goal with
           | |- context [config !! ?x] => destruct (config !! x)
           end;
    apply list_elem_of_In; cbn; tauto.
Qed.

Lemma dict_or_not (v : value) : (∃ d, v = VDict d) ∨ (∀ d, v ≠ VDict d).
Proof. destruct v; try (by right); left; by eexists. Qed.

(** The sections on which [validate_config] can raise: a present [input]
    or [output] that is not a dictionary, or a present [copykat]. *)
Lemma validate_config_raise (w : World) (config : gmap string value) e :
  validate_config w config = Raise e →
  (∃ section v, section ∈ ["input"; "output"]
                ∧ config !! section = Some v ∧ ∀ d, v ≠ VDict d)
  ∨ is_Some (config !! "copykat").
Proof.
  intros Hv.
  destruct (config !! "copykat") as [c|] eqn:Hc; [right; by eexists|]. left.
  assert (∀ o, config !! "output" = Some o → (∀ d, o ≠ VDict d) →
               ∃ section v, section ∈ ["input"; "output"]
                            ∧ config !! section = Some v ∧ ∀ d, v ≠ VDict d)
    as Hout.
  { intros o Ho Hno. exists "output", o. split; [|done].
    apply list_elem_of_In. cbn. tauto. }
  destruct (config !! "input") as [i|] eqn:Hi.
  - destruct (dict_or_not i) as [[d ->]|Hno].
    + destruct (config !! "output") as [o|] eqn:Ho.
      * destruct (dict_or_not o) as [[d' ->]|Hno]; [|by eapply Hout].
        exfalso. revert Hv. unfold validate_config, require_field.
        rewrite Hi, Ho, Hc. by cbn.
      * exfalso. revert Hv. unfold validate_config, require_field.
        rewrite Hi, Ho, Hc. by cbn.
    + exists "input", i. split; [|done]. apply list_elem_of_In. cbn. tauto.
  - destruct (config !! "output") as [o|] eqn:Ho.
    + destruct (dict_or_not o) as [[d' ->]|Hno]; [|by eapply Hout].
      exfalso. revert Hv. unfold validate_config, require_field.
      rewrite Hi, Ho, Hc. by cbn.
    + exfalso. revert Hv. unfold validate_config, require_field.
      rewrite Hi, Ho, Hc. by cbn.
Qed.

(** X15: a configuration without one of the sections [input], [output],
    [copykat] is never reported as valid: when [validate_config] returns,
    it reports the configuration invalid, with the error naming that
    section; it raises instead only when [input] or [output] is there and
    is not a dictionary, or when [copykat] is there. *)
Theorem validate_config_missing_section (w : World)
    (config : gmap string value) k :
  k ∈ ["input"; "output"; "copykat"] →
  config !! k = None →
  match validate_config w config with
  | Ok (valid, errors) =>
      "Missing required section: " +:+ k ∈ errors ∧ valid = false
  | Raise e =>
      (∃ section v, section ∈ ["input"; "output"]
                    ∧ config !! section = Some v ∧ ∀ d, v ≠ VDict d)
      ∨ is_Some (config !! "copykat")
  end.
Proof.
  intros Hk Hnone.
  destruct (validate_config w config) as [[valid errors]|e] eqn:Hv;
    [|by eapply validate_config_raise].
  destruct (validate_config_errors _ _ _ _ Hv) as [(more & -> & _) ->].
  pose proof (missing_section_listed config k Hk Hnone) as Hin.
  split; [apply elem_of_app; by left|].
  apply bool_decide_eq_false. rewrite length_app.
  destruct (missing_sections config); [by apply elem_of_nil in Hin|].
  cbn [length]. lia.
Qed.

Lemma validate_config_missing_section_witness :
  validate_config (world_exiting 0 "")
    {[ "input" := VDict {[ "file" := VStr "matrix.txt" ]} ]}
  = Ok (false, ["Missing required section: output";
                "Missing required section: copykat"])
  ∧ "Missing required section: " +:+ "output"
      ∈ ["Missing required section: output"; "Missing required section: copykat"].
Proof.
  split; [reflexivity|].
  exact (proj1 (validate_config_missing_section (world_exiting 0 "")
                  {[ "input" := VDict {[ "file" := VStr "matrix.txt" ]} ]}
                  "output" ltac:(apply list_elem_of_In; cbn; tauto) eq_refl)).
Defined.

(** X16: whatever is merged into the default configuration, the result
    has the three required sections; so when validating it returns, it
    reports no missing section. *)
Theorem merged_default_has_sections (w : World)
    (override : gmap string value) :
  (∀ k, k ∈ ["input"; "output"; "copykat"] →
        is_Some (merge_configs get_default_config override !! k))
  ∧ (∀ valid errors k,
       validate_config w (merge_configs get_default_config override)
         = Ok (valid, errors) →
       "Missing required section: " +:+ k ∉ errors).
Proof.
  assert (∀ k, k ∈ ["input"; "output"; "copykat"] →
               is_Some (merge_configs get_default_config override !! k)) as Hsec.
  { intros k Hk. rewrite merge_configs_entry.
    assert (is_Some (get_default_config !! k)) as [v Hd].
    { repeat (apply elem_of_cons in Hk as [->|Hk]); [by eexists..|].
      by apply elem_of_nil in Hk. }
    rewrite Hd. destruct (override !! k) as [o|]; cbn [merged_entry]; [|by eexists].
    destruct v; try by eexists. destruct o; by eexists. }
  split; [exact Hsec|]. intros valid errors k Hv.
  destruct (validate_config_errors _ _ _ _ Hv) as [(more & -> & Hmore) _].
  assert (missing_sections (merge_configs get_default_config override) = []) as ->.
  { unfold missing_sections. cbn [fold_left].
    destruct (Hsec "input") as [? ->]; [set_solver|].
    destruct (Hsec "output") as [? ->]; [set_solver|].
    by destruct (Hsec "copykat") as [? ->]; [set_solver|]. }
  intros Hin. cbn [app] in Hin.
  rewrite Forall_forall in Hmore.
  specialize (Hmore _ Hin).
  destruct Hmore as [H|[H|[H|[[s H]|[H|[H|H]]]]]];
    vm_compute in H; discriminate H.
Qed.

(** X17: an [input] section that is [None], a boolean or a number (the
    [None] of an empty section in the file) makes [validate_config] raise
    a [TypeError] instead of reporting an error. *)
Theorem validate_config_section_not_iterable (w : World)
    (config : gmap string value) section :
  config !! "input" = Some section →
  match section with
  | VNone | VBool _ | VInt _ | VFloat _ => True
  | VStr _ | VDict _ => False
  end →
  ∃ e, validate_config w config = Raise e ∧ exc_class e = "TypeError".
Proof.
  intros Hin Hsec. unfold validate_config, require_field. rewrite Hin.
  destruct section; try done; by eexists.
Qed.

Lemma validate_config_section_not_iterable_witness :
  ∃ e, validate_config (world_exiting 0 "")
         (<["input" := VNone]> get_default_config) = Raise e
       ∧ exc_class e = "TypeError".
Proof.
  apply (validate_config_section_not_iterable (world_exiting 0 "")
           (<["input" := VNone]> get_default_config) VNone);
    [reflexivity|exact I].
Defined.

(** ** [validate_parameters] *)

Lemma append_if_length cond msg errors :
  (length errors ≤ length (append_if cond msg errors))%nat.
Proof. destruct cond; cbn [append_if]; [rewrite length_app|]; lia. Qed.

Lemma append_if_elem cond msg errors m :
  m ∈ errors → m ∈ append_if cond msg errors.
Proof. destruct cond; cbn [append_if]; [|done]. intros. apply elem_of_app. by left. Qed.

Lemma elem_nonempty (m : string) (l : list string) :
  m ∈ l → length l ≠ 0%nat.
Proof. destruct l; [by intros ?%elem_of_nil|done]. Qed.

Lemma out_of_range_number (v lo hi : value) :
  is_Some (as_number v) → is_Some (as_number lo) → is_Some (as_number hi) →
  ∃ b, out_of_range v lo hi = Ok b.
Proof.
  intros [nv Hv] [nl Hl] [nh Hh]. unfold out_of_range, py_or, py_gt, py_lt.
  rewrite Hv, Hl, Hh.
  destruct nv as [x|], nl as [y|]; cbn [mbind res_bind mret res_ret];
    try destruct (Qlt_bool _ _); cbn [mbind res_bind mret res_ret];
    try (by eexists); destruct nh; by eexists.
Qed.

(** X18: when [up_dr] is below [low_dr], [validate_parameters] never
    accepts: when it returns, the error ["UP.DR must be >= LOW.DR"] is
    reported and the parameters are invalid; and it returns when the sample
    name is a string, the genome is [hg20] or [mm10], and [n_cores], the
    two rates and [win_size] are numbers (it raises a [TypeError] on one
    that is not). *)
Theorem validate_parameters_rates_order (w : World)
    (params : gmap string value) low_dr up_dr :
  params !! "low_dr" = Some low_dr →
  params !! "up_dr" = Some up_dr →
  py_lt up_dr low_dr = Ok true →
  (∀ valid errors,
     validate_parameters w params = Ok (valid, errors) →
     "UP.DR must be >= LOW.DR" ∈ errors ∧ valid = false)
  ∧ ((∃ s, params !! "sample_name" = Some (VStr s)) →
     in_strings (default (VStr "") (params !! "genome")) ["hg20"; "mm10"] = true →
     is_Some (as_number (default (VInt 0) (params !! "n_cores"))) →
     is_Some (as_number low_dr) → is_Some (as_number up_dr) →
     is_Some (as_number (default (VInt 0) (params !! "win_size"))) →
     ∃ errors,
       validate_parameters w params = Ok (false, errors)
       ∧ "UP.DR must be >= LOW.DR" ∈ errors).
Proof.
  intros Hlow Hup Hlt.
  assert (∀ valid errors,
            validate_parameters w params = Ok (valid, errors) →
            "UP.DR must be >= LOW.DR" ∈ errors ∧ valid = false) as Hreported.
  { intros valid errors Hv. unfold validate_parameters in Hv.
    cbv zeta in Hv. rewrite Hlow, Hup in Hv. cbn [from_option id] in Hv.
    rewrite Hlt in Hv.
    destruct (validate_parameters_sample_name params) as [e0|];
      cbn [mbind res_bind] in Hv; [|done].
    match type of Hv with
    | mbind _ ?g = _ =>
        destruct g as [e1|]; cbn [mbind res_bind] in Hv; [|done]
    end.
    destruct (out_of_range _ (VInt 1) _) as [b1|]; cbn [mbind res_bind] in Hv; [|done].
    destruct (out_of_range low_dr _ _) as [b2|]; cbn [mbind res_bind] in Hv; [|done].
    destruct (out_of_range up_dr _ _) as [b3|]; cbn [mbind res_bind] in Hv; [|done].
    destruct (out_of_range _ (VInt 10) _) as [b4|];
      cbn [mbind res_bind mret res_ret] in Hv; [|done].
    injection Hv as <- <-.
    assert ("UP.DR must be >= LOW.DR"
              ∈ append_if b4 "Window size must be between 10 and 200"
                  (append_if true "UP.DR must be >= LOW.DR"
                     (append_if b3 "UP.DR must be between 0.01 and 0.5"
                        (append_if b2 "LOW.DR must be between 0.01 and 0.5"
                           (append_if b1 "n_cores must be between 1 and 64" e1)))))
      as Hin.
    { apply append_if_elem. cbn [append_if]. apply elem_of_app. right. by left. }
    split; [exact Hin|].
    apply bool_decide_eq_false. exact (elem_nonempty _ _ Hin). }
  split; [exact Hreported|].
  intros [s Hs] Hg Hcores Hl Hu Hwin.
  destruct (validate_parameters w params) as [[valid errors]|e] eqn:Hv.
  - destruct (Hreported valid errors eq_refl) as [Hin ->]. by exists errors.
  - exfalso. revert Hv. unfold validate_parameters, validate_parameters_sample_name.
    cbv zeta. rewrite Hs, Hlow, Hup, Hg. cbn [from_option id negb].
    rewrite Hlt.
    destruct (out_of_range_number _ (VInt 1) (VInt 64) Hcores) as [b1 ->];
      [by eexists..|].
    destruct (out_of_range_number _ (VFloat (FNum (1 # 100)))
                (VFloat (FNum (1 # 2))) Hl) as [b2 ->]; [by eexists..|].
    destruct (out_of_range_number _ (VFloat (FNum (1 # 100)))
                (VFloat (FNum (1 # 2))) Hu) as [b3 ->]; [by eexists..|].
    destruct (out_of_range_number _ (VInt 10) (VInt 200) Hwin) as [b4 ->];
      [by eexists..|].
    cbn [truthy]. destruct (negb (negb (String.eqb s ""))); cbn [mbind res_bind];
      [done|].
    by destruct (negb (isalnum (replace "_" "" s))).
Qed.

Lemma validate_parameters_rates_order_witness :
  ∃ errors,
    validate_parameters (world_exiting 0 "") params_form_rates_swapped
    = Ok (false, errors)
    ∧ "UP.DR must be >= LOW.DR" ∈ errors.
Proof.
  apply (proj2 (validate_parameters_rates_order (world_exiting 0 "")
                  params_form_rates_swapped
                  (VFloat (FNum (10 # 100))) (VFloat (FNum (5 # 100)))
                  eq_refl eq_refl eq_refl));
    [by exists "sample_001"|reflexivity|by eexists..].
Defined.

Lemma sample_name_rule_passes (params : gmap string value) :
  validate_parameters_sample_name params = Ok []
  ↔ ∃ s, params !! "sample_name" = Some (VStr s)
         ∧ isalnum (replace "_" "" s) = true.
Proof.
  unfold validate_parameters_sample_name.
  destruct (params !! "sample_name") as [v|]; cbn [from_option id].
  - destruct v as [|b|z|f|s|d]; cbn [truthy negb].
    + split; [done|]. by intros (s & [=] & _).
    + destruct b; cbn [negb]; (split; [done|]); by intros (s & [=] & _).
    + destruct (z =? 0); cbn [negb]; (split; [done|]); by intros (s & [=] & _).
    + destruct f as [q|]; [destruct (Qeq_bool q 0)|]; cbn [negb];
        (split; [done|]); by intros (s & [=] & _).
    + destruct (String.eqb_spec s "") as [->|Hs]; cbn [negb].
      * split; [done|]. by intros (s & [= <-] & H).
      * destruct (isalnum (replace "_" "" s)) eqn:Hal; cbn [negb].
        -- split; [by exists s|done].
        -- split; [done|]. intros (s' & [= <-] & H). congruence.
    + destruct (bool_decide (size d = 0%nat)); cbn [negb];
        (split; [done|]); by intros (s & [=] & _).
  - cbn [truthy String.eqb negb]. split; [done|]. by intros (s & [=] & _).
Qed.

Lemma Qlt_bool_false (a b : Q) : Qlt_bool a b = false ↔ Qle_bool b a = true.
Proof. unfold Qlt_bool. by destruct (Qle_bool b a). Qed.

Lemma out_of_range_within (v lov hiv : value) (lo hi : Q) :
  as_number lov = Some (Some lo) → as_number hiv = Some (Some hi) →
  out_of_range v lov hiv = Ok false ↔ within v lo hi = true.
Proof.
  intros Hlo Hhi. unfold out_of_range, py_or, py_gt, py_lt, within.
  rewrite Hlo, Hhi.
  destruct (as_number v) as [[q|]|] eqn:Hv; cbn [mbind res_bind mret res_ret].
  - unfold Qlt_bool.
    destruct (Qle_bool lo q), (Qle_bool q hi);
      cbn [negb andb mbind res_bind mret res_ret]; by split.
  - done.
  - destruct v; try done; by destruct lov.
Qed.

Lemma py_lt_not_below (up low : value) lo hi :
  within up lo hi = true → within low lo hi = true →
  py_lt up low = Ok false ↔ not_below up low = true.
Proof.
  unfold within, py_lt, not_below.
  destruct (as_number up) as [[x|]|], (as_number low) as [[y|]|]; try done.
  intros _ _. rewrite <- Qlt_bool_false. split; [by intros [= ->]|by intros ->].
Qed.

Lemma append_if_nil cond msg errors :
  append_if cond msg errors = [] ↔ cond = false ∧ errors = [].
Proof.
  destruct cond; cbn [append_if].
  - split; [|by intros [? _]]. by destruct errors.
  - split; [done|by intros [_ ?]].
Qed.

(** X19: [validate_parameters] accepts the parameters exactly when the
    sample name is a string that passes the alphanumeric test, the genome
    is [hg20] or [mm10], [n_cores] lies in 1..64, [low_dr] and [up_dr] in
    0.01..0.5 with [up_dr] not below [low_dr], and [win_size] in 10..200; a
    missing numeric key counts as 0 and a NaN passes every range check. *)
Theorem validate_parameters_accepts (w : World) (params : gmap string value) :
  validate_parameters w params = Ok (true, [])
  ↔ (∃ s, params !! "sample_name" = Some (VStr s)
          ∧ isalnum (replace "_" "" s) = true)
    ∧ in_strings (default (VStr "") (params !! "genome")) ["hg20"; "mm10"] = true
    ∧ within (default (VInt 0) (params !! "n_cores")) 1 64 = true
    ∧ within (default (VInt 0) (params !! "low_dr")) (1 # 100) (1 # 2) = true
    ∧ within (default (VInt 0) (params !! "up_dr")) (1 # 100) (1 # 2) = true
    ∧ not_below (default (VInt 0) (params !! "up_dr"))
        (default (VInt 0) (params !! "low_dr")) = true
    ∧ within (default (VInt 0) (params !! "win_size")) 10 200 = true.
Proof.
  rewrite <- sample_name_rule_passes.
  rewrite <- (out_of_range_within _ (VInt 1) (VInt 64)) by done.
  rewrite <- !(out_of_range_within _ (VFloat (FNum (1 # 100)))
                 (VFloat (FNum (1 # 2)))) by done.
  rewrite <- (out_of_range_within _ (VInt 10) (VInt 200)) by done.
  unfold validate_parameters. cbv zeta.
  set (genome := default (VStr "") (params !! "genome")).
  set (n_cores := default (VInt 0) (params !! "n_cores")).
  set (low_dr := default (VInt 0) (params !! "low_dr")).
  set (up_dr := default (VInt 0) (params !! "up_dr")).
  set (win_size := default (VInt 0) (params !! "win_size")).
  split.
  - destruct (validate_parameters_sample_name params) as [e0|];
      cbn [mbind res_bind]; [|done].
    destruct (in_strings genome ["hg20"; "mm10"]) eqn:Hgenome; cbn [negb].
    2:{ destruct (py_str w genome) as [shown|]; cbn [mbind res_bind mret res_ret];
          [|done].
        destruct (out_of_range n_cores _ _) as [b1|]; cbn [mbind res_bind]; [|done].
        destruct (out_of_range low_dr _ _) as [b2|]; cbn [mbind res_bind]; [|done].
        destruct (out_of_range up_dr _ _) as [b3|]; cbn [mbind res_bind]; [|done].
        destruct (py_lt up_dr low_dr) as [b5|]; cbn [mbind res_bind]; [|done].
        destruct (out_of_range win_size _ _) as [b4|];
          cbn [mbind res_bind mret res_ret]; [|done].
        intros [= _ Hnil].
        do 5 apply append_if_nil in Hnil as [_ Hnil].
        by destruct e0. }
    cbn [mbind res_bind mret res_ret].
    destruct (out_of_range n_cores _ _) as [b1|] eqn:H1; cbn [mbind res_bind]; [|done].
    destruct (out_of_range low_dr _ _) as [b2|] eqn:H2; cbn [mbind res_bind]; [|done].
    destruct (out_of_range up_dr _ _) as [b3|] eqn:H3; cbn [mbind res_bind]; [|done].
    destruct (py_lt up_dr low_dr) as [b5|] eqn:H5; cbn [mbind res_bind]; [|done].
    destruct (out_of_range win_size _ _) as [b4|] eqn:H4;
      cbn [mbind res_bind mret res_ret]; [|done].
    intros [= _ Hnil].
    apply append_if_nil in Hnil as [-> Hnil].
    apply append_if_nil in Hnil as [-> Hnil].
    apply append_if_nil in Hnil as [-> Hnil].
    apply append_if_nil in Hnil as [-> Hnil].
    apply append_if_nil in Hnil as [-> ->].
    repeat split; try done.
    apply (py_lt_not_below _ _ (1 # 100) (1 # 2)); [| |done].
    + by apply (out_of_range_within _ (VFloat (FNum (1 # 100)))
                  (VFloat (FNum (1 # 2)))).
    + by apply (out_of_range_within _ (VFloat (FNum (1 # 100)))
                  (VFloat (FNum (1 # 2)))).
  - intros (-> & Hg & -> & H2 & H3 & H5 & ->). rewrite H2, H3.
    apply (py_lt_not_below _ _ (1 # 100) (1 # 2)) in H5 as ->.
    + rewrite Hg. cbn [negb mbind res_bind mret res_ret]. reflexivity.
    + by apply (out_of_range_within _ (VFloat (FNum (1 # 100)))
                  (VFloat (FNum (1 # 2)))).
    + by apply (out_of_range_within _ (VFloat (FNum (1 # 100)))
                  (VFloat (FNum (1 # 2)))).
Qed.

Lemma validate_parameters_accepts_witness :
  validate_parameters (world_exiting 0 "") params_form = Ok (true, []).
Proof.
  apply (proj2 (validate_parameters_accepts (world_exiting 0 "") params_form)).
  split; [by exists "sample_001"|]. repeat split.
Defined.

(** X20: [validate_parameters] looks at six keys only ([sample_name],
    [genome], [n_cores], [low_dr], [up_dr], [win_size]); a value under any
    other key, such as the [LOW_DR] that the command line is built from,
    changes nothing. *)
Theorem validate_parameters_other_key (w : World)
    (params : gmap string value) key v :
  key ∉ ["sample_name"; "genome"; "n_cores"; "low_dr"; "up_dr"; "win_size"] →
  validate_parameters w (<[key := v]> params) = validate_parameters w params.
Proof.
  intros Hkey.
  assert (∀ k, k ∈ validated_keys → <[key := v]> params !! k = params !! k)
    as Hlook.
  { intros k Hk. apply lookup_insert_ne. by intros ->. }
  unfold validate_parameters, validate_parameters_sample_name.
  rewrite !Hlook by (apply list_elem_of_In; cbn;
                      repeat (first [left; reflexivity | right])).
  done.
Qed.

Lemma validate_parameters_other_key_witness :
  validate_parameters (world_exiting 0 "")
    (<["LOW_DR" := VFloat (FNum (9 # 10))]> params_form)
  = validate_parameters (world_exiting 0 "") params_form.
Proof.
  apply (validate_parameters_other_key (world_exiting 0 "") params_form
           "LOW_DR" (VFloat (FNum (9 # 10)))).
  intros H. apply list_elem_of_In in H. cbn in H. intuition discriminate.
Defined.

(** ** Validated sample names and the rest of the code *)

Lemma name_char_not_magic (c : ascii) :
  name_char c = true →
  negb (Ascii.eqb c "*" || Ascii.eqb c "?" || Ascii.eqb c "[" || Ascii.eqb c "/")
  = true.
Proof.
  destruct c as [[] [] [] [] [] [] [] []]; intros H;
    solve [reflexivity | discriminate H].
Qed.

Lemma accepted_name_chars (name : string) :
  (validate_sample_name name).1 = true →
  isalnum (replace "_" "" name) = true.
Proof.
  unfold validate_sample_name.
  destruct (String.eqb name ""); [done|].
  by destruct (isalnum (replace "_" "" name)).
Qed.

Lemma name_chars_literal (name : string) :
  str_all name_char name = true → glob_literal name = true.
Proof.
  unfold glob_literal. induction name as [|c name IH]; [done|].
  cbn [str_all]. intros [Hc Hs]%andb_true_iff.
  by rewrite (name_char_not_magic c Hc), IH.
Qed.

(** X21: a sample name accepted by [validate_sample_name] holds no glob
    metacharacter, so the pattern the locators build from it matches
    exactly the entries whose name starts with the name and an
    underscore. *)
Theorem accepted_name_matches_prefix (w : World) (dir name : string) :
  (validate_sample_name name).1 = true →
  glob_literal name = true
  ∧ glob w dir (name +:+ "_*") = Ok (candidates w dir name).
Proof.
  intros Hok. apply accepted_name_chars in Hok.
  rewrite replace_underscore_isalnum in Hok.
  apply andb_true_iff in Hok as [Hchars _].
  pose proof (name_chars_literal name Hchars) as Hlit.
  split; [exact Hlit|]. by apply glob_candidates.
Qed.

Lemma accepted_name_matches_prefix_witness :
  glob_literal "sampleA" = true
  ∧ glob (world_listing listing_two_runs) "results" ("sampleA" +:+ "_*")
    = Ok (candidates (world_listing listing_two_runs) "results" "sampleA").
Proof.
  apply (accepted_name_matches_prefix (world_listing listing_two_runs)
           "results" "sampleA").
  reflexivity.
Defined.

(** X22: the sample-name test of [validate_parameters] passes every name
    [validate_sample_name] accepts, and the names it passes beyond those
    are exactly the ones [validate_sample_name] rejects as too long. *)
Theorem sample_name_rules_agree (params : gmap string value) (name : string) :
  params !! "sample_name" = Some (VStr name) →
  validate_parameters_sample_name params = Ok []
  ↔ (validate_sample_name name).1 = true
    ∨ validate_sample_name name
      = (false, "Sample name too long (max 50 characters)").
Proof.
  intros Hname. unfold validate_parameters_sample_name, validate_sample_name.
  rewrite Hname. cbn [from_option id truthy].
  destruct (String.eqb name ""); cbn [negb].
  - split; [done|]. by intros [|].
  - destruct (isalnum (replace "_" "" name)); cbn [negb].
    + split; [|done]. intros _.
      destruct (50 <? String.length name)%nat; [by right|by left].
    + split; [done|]. by intros [|].
Qed.

Lemma sample_name_rules_agree_witness :
  validate_parameters_sample_name {[ "sample_name" := VStr name_too_long ]}
    = Ok []
  ↔ (validate_sample_name name_too_long).1 = true
    ∨ validate_sample_name name_too_long
      = (false, "Sample name too long (max 50 characters)").
Proof.
  apply (sample_name_rules_agree {[ "sample_name" := VStr name_too_long ]}
           name_too_long).
  reflexivity.
Defined.

(** ** Files and sizes: [list_result_directories], [validate_file_path],
    the size formatters, [truncate_text] *)

Section SortDescending.

Context {A : Type}.
Variable key : A → Q.

Lemma insert_desc_perm (x : A) (l : list A) :
  insert_desc key x l ≡ₚ x :: l.
Proof.
  induction l as [|y l IH]; [done|]. cbn [insert_desc].
  destruct (Qle_bool (key y) (key x)); [done|].
  rewrite IH. apply Permutation_swap.
Qed.

Lemma insert_desc_Forall (P : A → Prop) (x : A) (l : list A) :
  P x → Forall P l → Forall P (insert_desc key x l).
Proof.
  intros Hx Hl. rewrite insert_desc_perm. by constructor.
Qed.

Lemma insert_desc_sorted (x : A) (l : list A) :
  StronglySorted (key_desc key) l → StronglySorted (key_desc key) (insert_desc key x l).
Proof.
  induction 1 as [|y l Hl IH Hy]; [repeat constructor|].
  cbn [insert_desc]. destruct (Qle_bool (key y) (key x)) eqn:Hle.
  - apply Qle_bool_iff in Hle. constructor; [by constructor|].
    constructor; [exact Hle|].
    eapply Forall_impl; [exact Hy|]. intros z Hz. unfold key_desc in *.
    by eapply Qle_trans.
  - constructor; [exact IH|].
    apply insert_desc_Forall; [|exact Hy].
    unfold key_desc. apply Qlt_le_weak, Qnot_le_lt.
    intros H%Qle_bool_iff. congruence.
Qed.

Lemma sort_desc_perm (l : list A) : sort_desc key l ≡ₚ l.
Proof.
  induction l as [|x l IH]; [done|]. cbn [sort_desc fold_right].
  rewrite insert_desc_perm. by constructor.
Qed.

Lemma sort_desc_sorted (l : list A) : StronglySorted (key_desc key) (sort_desc key l).
Proof.
  induction l as [|x l IH]; [constructor|]. by apply insert_desc_sorted.
Qed.

End SortDescending.

Lemma map_res_ok {A B} (f : A → res B) (l : list A) (r : list B) :
  map_res f l = Ok r → Forall2 (fun x y => f x = Ok y) l r.
Proof.
  revert r. induction l as [|x l IH]; intros r; [intros [= <-]; constructor|].
  cbn [map_res]. destruct (f x) as [y|e] eqn:Hx; cbn [mbind res_bind]; [|done].
  destruct (map_res f l) as [rest|e]; cbn [mbind res_bind]; [|done].
  intros [= <-]. constructor; [exact Hx|by apply IH].
Qed.

Lemma map_res_raise {A B} (f : A → res B) (l : list A) e :
  map_res f l = Raise e → ∃ x, x ∈ l ∧ f x = Raise e.
Proof.
  induction l as [|x l IH]; [done|]. cbn [map_res].
  destruct (f x) as [y|e'] eqn:Hx; cbn [mbind res_bind].
  - destruct (map_res f l) as [rest|e'']; cbn [mbind res_bind]; [done|].
    intros [= <-]. destruct (IH eq_refl) as (z & Hz & Hf).
    exists z. split; [by right|done].
  - intros [= <-]. exists x. split; [by left|done].
Qed.

(** The keys computed for a list, zipped with it: the list again on the
    right, and each element next to its own key. *)
Lemma zip_keys {A} (f : A → res Q) (l : list A) (keys : list Q) :
  Forall2 (fun x k => f x = Ok k) l keys →
  map snd (zip keys l) = l ∧ Forall (fun kx => f kx.2 = Ok kx.1) (zip keys l).
Proof.
  induction 1 as [|x k l keys Hx _ [IH1 IH2]]; [by split|].
  cbn [zip zip_with map snd]. split; [by rewrite IH1|by constructor].
Qed.

(** A list sorted by its keys stays sorted, in the order the keys stand
    for, when the keys are dropped. *)
Lemma sorted_by_computed_key (h : Host) (l : list (Q * string)) :
  Forall (fun kx => path_mtime h kx.2 = Ok kx.1) l →
  StronglySorted (key_desc fst) l →
  StronglySorted (modified_desc h) (map snd l).
Proof.
  intros Hkeys Hsorted. induction Hsorted as [|[k x] l _ IH Hx]; [constructor|].
  apply Forall_cons in Hkeys as [Hk Hkeys]. cbn [map snd].
  constructor; [by apply IH|].
  apply Forall_fmap, Forall_forall. intros [u y] Hy. cbn [compose snd].
  exists k, u. split; [exact Hk|]. split.
  - by apply (proj1 (Forall_forall _ _) Hkeys (u, y)).
  - by apply (proj1 (Forall_forall _ _) Hx (u, y)).
Qed.

(** X23: when [list_result_directories] returns, the results directory
    either does not exist and the list is empty, or it exists and the list
    holds the paths of its entries that are directories, each once (a
    permutation of them), most recently modified first.  It returns unless
    one of the questions it asks raises: the existence check of the results
    directory, its listing, the directory check of one of the entries, or
    the modification time of one of the directories; then it raises the
    same. *)
Theorem list_result_directories_sorted (h : Host) (results_dir : string) :
  match UtilsFiles.list_result_directories h results_dir with
  | Ok l =>
      (path_exists h (get_absolute_path h results_dir) = Ok false ∧ l = [])
      ∨ (path_exists h (get_absolute_path h results_dir) = Ok true
         ∧ ∃ names,
             listdir h (get_absolute_path h results_dir) = Ok names
             ∧ l ≡ₚ filter (fun p => answers_true (is_dir h p) = true)
                      (map (joinpath h (get_absolute_path h results_dir)) names)
             ∧ StronglySorted (modified_desc h) l
             ∧ Forall (fun p => is_dir h p = Ok true) l)
  | Raise e =>
      path_exists h (get_absolute_path h results_dir) = Raise e
      ∨ (path_exists h (get_absolute_path h results_dir) = Ok true
         ∧ (listdir h (get_absolute_path h results_dir) = Raise e
            ∨ ∃ names p,
                listdir h (get_absolute_path h results_dir) = Ok names
                ∧ p ∈ map (joinpath h (get_absolute_path h results_dir)) names
                ∧ (is_dir h p = Raise e
                   ∨ (is_dir h p = Ok true ∧ path_mtime h p = Raise e))))
  end.
Proof.
  unfold UtilsFiles.list_result_directories.
  destruct (path_exists h (get_absolute_path h results_dir)) as [[|]|e0];
    cbn [mbind res_bind negb]; [|by left|by left].
  destruct (listdir h (get_absolute_path h results_dir)) as [names|e0];
    cbn [mbind res_bind]; [|right; split; [done|by left]].
  destruct (filter_res (is_dir h)
              (map (joinpath h (get_absolute_path h results_dir)) names))
    as [dirs|e0] eqn:Hdirs; cbn [mbind res_bind].
  2:{ apply filter_res_raise in Hdirs as (p & Hp & Hraise).
      right. split; [done|]. right. exists names, p. by auto. }
  apply filter_res_ok in Hdirs.
  assert (Forall (fun p => is_dir h p = Ok true) dirs) as Hall.
  { apply Forall_forall. intros p Hp. rewrite Hdirs in Hp.
    apply list_elem_of_filter in Hp as [Hp _].
    by destruct (is_dir h p) as [[|]|]. }
  destruct (map_res (path_mtime h) dirs) as [keys|e0] eqn:Hkeys;
    cbn [mbind res_bind mret res_ret].
  2:{ apply map_res_raise in Hkeys as (p & Hp & Hraise).
      right. split; [done|]. right. exists names, p. split; [done|]. split.
      - rewrite Hdirs in Hp. by apply list_elem_of_filter in Hp as [_ Hp].
      - right. split; [|done]. by apply (proj1 (Forall_forall _ _) Hall). }
  apply map_res_ok, zip_keys in Hkeys as [Hsnd Hzip].
  right. split; [done|]. exists names. split; [done|].
  assert (map snd (sort_desc fst (zip keys dirs)) ≡ₚ dirs) as Hperm.
  { rewrite <- Hsnd at 2. apply fmap_Permutation, sort_desc_perm. }
  split; [by rewrite Hperm, Hdirs|]. split.
  - apply sorted_by_computed_key; [|apply sort_desc_sorted].
    by rewrite sort_desc_perm.
  - by rewrite Hperm.
Qed.

Example list_two_runs :
  UtilsFiles.list_result_directories (host_listing listing_two_runs)
    "backend/results"
  = Ok ["/srv/app/backend/results/sampleA_20240115";
        "/srv/app/backend/results/sampleA_20240101"].
Proof. reflexivity. Qed.

Lemma list_result_directories_sorted_witness :
  StronglySorted (modified_desc (host_listing listing_two_runs))
    ["/srv/app/backend/results/sampleA_20240115";
     "/srv/app/backend/results/sampleA_20240101"].
Proof.
  pose proof (list_result_directories_sorted (host_listing listing_two_runs)
                "backend/results") as H.
  change (UtilsFiles.list_result_directories (host_listing listing_two_runs)
            "backend/results")
    with (@Ok (list string)
            ["/srv/app/backend/results/sampleA_20240115";
             "/srv/app/backend/results/sampleA_20240101"]) in H.
  destruct H as [[H _]|(_ & names & _ & _ & H & _)]; [discriminate H|exact H].
Defined.

(** X24: [validate_file_path] of [shared/utils.py] accepts a path exactly
    when it is not empty, [Path.exists] and [Path.is_file] answer yes and it
    is readable, and it raises exactly what [Path.exists] raises or, on a
    path that exists, [Path.is_file]; the one of [validators.py] asks
    [os.path.exists] instead, which never raises, and does not ask for a
    regular file: it accepts exactly the non-empty readable paths on which
    [os.path.exists] answers yes, and never raises.  So it accepts what the
    first accepts wherever [os.path.exists] answers yes as well.  Both
    reject with a non-empty message and accept with an empty one. *)
Theorem validate_file_path_rules (h : Host) (file_path : string) :
  (UtilsFiles.validate_file_path h file_path = Ok (true, "")
   ↔ file_path ≠ "" ∧ path_exists h file_path = Ok true
     ∧ is_file h file_path = Ok true ∧ readable h file_path = true)
  ∧ (∀ e, UtilsFiles.validate_file_path h file_path = Raise e
          ↔ file_path ≠ ""
            ∧ (path_exists h file_path = Raise e
               ∨ (path_exists h file_path = Ok true
                  ∧ is_file h file_path = Raise e)))
  ∧ (Frontend.validate_file_path h file_path = (true, "")
     ↔ file_path ≠ "" ∧ os_path_exists h file_path = true
       ∧ readable h file_path = true)
  ∧ (UtilsFiles.validate_file_path h file_path = Ok (true, "") →
     os_path_exists h file_path = true →
     Frontend.validate_file_path h file_path = (true, ""))
  ∧ (∀ valid message,
       UtilsFiles.validate_file_path h file_path = Ok (valid, message) →
       (valid = true ↔ message = ""))
  ∧ ((Frontend.validate_file_path h file_path).1 = true
     ↔ (Frontend.validate_file_path h file_path).2 = "").
Proof.
  unfold UtilsFiles.validate_file_path, Frontend.validate_file_path.
  destruct (String.eqb_spec file_path "") as [->|Hne].
  { repeat split; intros;
      repeat match goal with H : _ ∧ _ |- _ => destruct H end;
      unfold mret, res_ret in *; by simplify_eq. }
  destruct (path_exists h file_path) as [[|]|e0],
    (is_file h file_path) as [[|]|e1], (os_path_exists h file_path),
    (readable h file_path); cbn [negb fst snd mbind res_bind mret res_ret].
  all: repeat split; intros;
    repeat match goal with
    | H : _ ∧ _ |- _ => destruct H
    | H : _ ∨ _ |- _ => destruct H
    end; unfold mret, res_ret in *; try congruence; try done;
    simplify_eq; auto;
    match goal with
    | H : _ +:+ _ = "" |- _ => by rewrite append_cons in H
    end.
Qed.

Lemma validate_file_path_rules_witness :
  Frontend.validate_file_path host_regular_files "data/sample.txt.gz" = (true, "").
Proof.
  apply (proj1 (proj2 (proj2 (proj2 (validate_file_path_rules host_regular_files
                                       "data/sample.txt.gz")))));
    reflexivity.
Defined.

Lemma Qlt_bool_iff (a b : Q) : Qlt_bool a b = true ↔ (a < b)%Q.
Proof.
  unfold Qlt_bool. rewrite negb_true_iff. split.
  - intros H. apply Qnot_le_lt. intros Hle%Qle_bool_iff. congruence.
  - intros H. apply not_true_is_false. intros Hle%Qle_bool_iff.
    by apply Qlt_not_le in H.
Qed.

(** Below which size the number divided [k] times by 1024 is under
    1024. *)
Lemma scaled_below (z : Z) :
  (Qlt_bool (scaled 0 (inject_Z z)) 1024 = true ↔ z < 1024 ^ 1)
  ∧ (Qlt_bool (scaled 1 (inject_Z z)) 1024 = true ↔ z < 1024 ^ 2)
  ∧ (Qlt_bool (scaled 2 (inject_Z z)) 1024 = true ↔ z < 1024 ^ 3)
  ∧ (Qlt_bool (scaled 3 (inject_Z z)) 1024 = true ↔ z < 1024 ^ 4)
  ∧ (Qlt_bool (scaled 4 (inject_Z z)) 1024 = true ↔ z < 1024 ^ 5).
Proof.
  rewrite !Qlt_bool_iff. unfold Qlt. cbn. repeat split; lia.
Qed.

Lemma float_overflow_large : 1024 ^ 5 < UtilsFiles.float_overflow.
Proof. reflexivity. Qed.

(** An integer within the range of the floats converts. *)
Lemma to_float_in_range (z : Z) :
  Z.abs z < UtilsFiles.float_overflow →
  UtilsFiles.to_float (UtilsFiles.SInt z) = Ok (inject_Z z).
Proof.
  intros Hz. unfold UtilsFiles.to_float.
  by rewrite (proj2 (Z.ltb_lt _ _) Hz).
Qed.

(** One beyond it does not, and the loop stops there, whatever the unit
    it has reached. *)
Lemma size_loop_overflow fmt (units : list string) (last : string) (z : Z) :
  UtilsFiles.float_overflow ≤ Z.abs z →
  UtilsFiles.size_loop fmt units last (UtilsFiles.SInt z)
  = Raise (PyError "OverflowError" "int too large to convert to float").
Proof.
  intros Hz.
  assert (UtilsFiles.to_float (UtilsFiles.SInt z)
          = Raise (PyError "OverflowError" "int too large to convert to float"))
    as Hraise.
  { unfold UtilsFiles.to_float. by rewrite (proj2 (Z.ltb_ge _ _) Hz). }
  destruct units as [|unit units]; cbn [UtilsFiles.size_loop]; rewrite Hraise;
    [done|]. by destruct (Qlt_bool _ _).
Qed.

(** X25: for a size within the range of the floats,
    [bytes_to_human_readable] shows it in the largest unit it fills: the
    number shown is the size divided [k] times by 1024, with the [k]-th
    unit of B, KB, MB, GB, TB, PB, where [1024^k <= size] (for [k > 0]) and
    [size < 1024^(k+1)] (up to TB).  For an integer beyond that range, of
    either sign, it raises the [OverflowError] of the conversion to
    float. *)
Theorem bytes_to_human_readable_unit (h : Host) (size_bytes : Z) :
  (Z.abs size_bytes < UtilsFiles.float_overflow →
   ∃ (k : nat) (unit : string),
     ["B"; "KB"; "MB"; "GB"; "TB"; "PB"] !! k = Some unit
     ∧ UtilsFiles.bytes_to_human_readable h size_bytes
       = Ok (format1 h (scaled k (inject_Z size_bytes)) +:+ " " +:+ unit)
     ∧ ((k < 5)%nat → size_bytes < 1024 ^ (Z.of_nat k + 1))
     ∧ ((0 < k)%nat → 1024 ^ Z.of_nat k ≤ size_bytes))
  ∧ (UtilsFiles.float_overflow ≤ Z.abs size_bytes →
     UtilsFiles.bytes_to_human_readable h size_bytes
     = Raise (PyError "OverflowError" "int too large to convert to float")).
Proof.
  split; [|by apply size_loop_overflow].
  intros Hrange.
  destruct (scaled_below size_bytes) as (H0 & H1 & H2 & H3 & H4).
  unfold UtilsFiles.bytes_to_human_readable.
  cbn [UtilsFiles.size_loop UtilsFiles.size_value].
  rewrite (to_float_in_range _ Hrange).
  cbn [mbind res_bind mret res_ret UtilsFiles.to_float].
  change (inject_Z size_bytes) with (scaled 0 (inject_Z size_bytes)) at 1.
  destruct (Qlt_bool (scaled 0 (inject_Z size_bytes)) 1024) eqn:C0.
  { exists 0%nat, "B". repeat split; [intros _; by apply H0|lia]. }
  change (inject_Z size_bytes / 1024)%Q with (scaled 1 (inject_Z size_bytes)).
  destruct (Qlt_bool (scaled 1 (inject_Z size_bytes)) 1024) eqn:C1.
  { exists 1%nat, "KB". repeat split; intros _; [by apply H1|].
    apply Z.nlt_ge. intros Hlt%H0. congruence. }
  change (scaled 1 (inject_Z size_bytes) / 1024)%Q
    with (scaled 2 (inject_Z size_bytes)).
  destruct (Qlt_bool (scaled 2 (inject_Z size_bytes)) 1024) eqn:C2.
  { exists 2%nat, "MB". repeat split; intros _; [by apply H2|].
    apply Z.nlt_ge. intros Hlt%H1. congruence. }
  change (scaled 2 (inject_Z size_bytes) / 1024)%Q
    with (scaled 3 (inject_Z size_bytes)).
  destruct (Qlt_bool (scaled 3 (inject_Z size_bytes)) 1024) eqn:C3.
  { exists 3%nat, "GB". repeat split; intros _; [by apply H3|].
    apply Z.nlt_ge. intros Hlt%H2. congruence. }
  change (scaled 3 (inject_Z size_bytes) / 1024)%Q
    with (scaled 4 (inject_Z size_bytes)).
  destruct (Qlt_bool (scaled 4 (inject_Z size_bytes)) 1024) eqn:C4.
  { exists 4%nat, "TB". repeat split; intros _; [by apply H4|].
    apply Z.nlt_ge. intros Hlt%H3. congruence. }
  exists 5%nat, "PB". repeat split; [lia|]. intros _.
  apply Z.nlt_ge. intros Hlt%H4. congruence.
Qed.

Lemma bytes_to_human_readable_unit_witness :
  ∃ (k : nat) (unit : string),
    ["B"; "KB"; "MB"; "GB"; "TB"; "PB"] !! k = Some unit
    ∧ UtilsFiles.bytes_to_human_readable (host_listing []) 5368709120
      = Ok (format1 (host_listing []) (scaled k (inject_Z 5368709120))
            +:+ " " +:+ unit)
    ∧ ((k < 5)%nat → 5368709120 < 1024 ^ (Z.of_nat k + 1))
    ∧ ((0 < k)%nat → 1024 ^ Z.of_nat k ≤ 5368709120).
Proof.
  apply (proj1 (bytes_to_human_readable_unit (host_listing []) 5368709120)).
  reflexivity.
Defined.

Lemma append_length (a b : string) :
  String.length (a +:+ b) = (String.length a + String.length b)%nat.
Proof.
  induction a as [|c a IH]; [done|]. rewrite append_cons. cbn. by rewrite IH.
Qed.

(** Two texts that end in suffixes of the same length are equal only if
    the suffixes are. *)
Lemma append_suffix_eq (a b s t : string) :
  String.length s = String.length t → a +:+ s = b +:+ t → s = t.
Proof.
  intros Hlen. revert b. induction a as [|c a IH]; intros [|d b] H.
  - exact H.
  - apply (f_equal String.length) in H.
    rewrite !append_length in H. cbn [String.length] in H. lia.
  - apply (f_equal String.length) in H.
    rewrite !append_length in H. cbn [String.length] in H. lia.
  - rewrite !append_cons in H. injection H as _ H. by apply (IH b).
Qed.

(** X26: [format_file_size] of the front end and [bytes_to_human_readable]
    behave alike exactly for the sizes below [1024^5] bytes, where they
    give the same text (or, for a negative integer beyond the range of the
    floats, the same error), and for the integers too large for a float,
    where both raise the [OverflowError]; in between the first stays in TB
    where the second goes on to PB.  Both return a text exactly for the
    sizes within the range of the floats. *)
Theorem size_formatters_agree (h : Host) (size_bytes : Z) :
  (Frontend.format_file_size h size_bytes
   = UtilsFiles.bytes_to_human_readable h size_bytes
   ↔ size_bytes < 1024 ^ 5 ∨ UtilsFiles.float_overflow ≤ size_bytes)
  ∧ ((∃ s, Frontend.format_file_size h size_bytes = Ok s)
     ↔ Z.abs size_bytes < UtilsFiles.float_overflow)
  ∧ ((∃ s, UtilsFiles.bytes_to_human_readable h size_bytes = Ok s)
     ↔ Z.abs size_bytes < UtilsFiles.float_overflow).
Proof.
  pose proof float_overflow_large as Hlarge.
  destruct (Z.lt_ge_cases (Z.abs size_bytes) UtilsFiles.float_overflow)
    as [Hrange|Hover].
  2:{ unfold Frontend.format_file_size, UtilsFiles.bytes_to_human_readable.
      rewrite !size_loop_overflow by done.
      split; [split; [lia|done]|]. split; (split; [by intros [s [=]]|lia]). }
  destruct (scaled_below size_bytes) as (H0 & H1 & H2 & H3 & H4).
  cbn [scaled] in H0, H1, H2, H3, H4.
  unfold Frontend.format_file_size, UtilsFiles.bytes_to_human_readable.
  cbn [UtilsFiles.size_loop UtilsFiles.size_value].
  rewrite (to_float_in_range _ Hrange).
  cbn [mbind res_bind mret res_ret UtilsFiles.to_float].
  split; [split|].
  - intros Heq. destruct (Z.lt_ge_cases size_bytes (1024 ^ 5)) as [|Hge]; [by left|].
    destruct (Qlt_bool (inject_Z size_bytes) 1024) eqn:C0; [pose proof (proj1 H0 eq_refl); lia|].
    destruct (Qlt_bool (inject_Z size_bytes / 1024) 1024) eqn:C1;
      [pose proof (proj1 H1 eq_refl); lia|].
    destruct (Qlt_bool (inject_Z size_bytes / 1024 / 1024) 1024) eqn:C2;
      [pose proof (proj1 H2 eq_refl); lia|].
    destruct (Qlt_bool (inject_Z size_bytes / 1024 / 1024 / 1024) 1024) eqn:C3;
      [pose proof (proj1 H3 eq_refl); lia|].
    destruct (Qlt_bool (inject_Z size_bytes / 1024 / 1024 / 1024 / 1024) 1024)
      eqn:C4; [pose proof (proj1 H4 eq_refl); lia|].
    injection Heq as Heq. by apply append_suffix_eq in Heq.
  - intros [Hsize|Hsize]; [|lia]. apply H4 in Hsize. rewrite Hsize.
    by repeat match goal with
              | |- context [Qlt_bool ?a 1024] => destruct (Qlt_bool a 1024)
              end.
  - split; (split; [done|]); intros _;
      repeat match goal with
             | |- context [Qlt_bool ?a 1024] => destruct (Qlt_bool a 1024)
             end; by eexists.
Qed.

Lemma size_formatters_agree_witness :
  Frontend.format_file_size (host_listing []) 5368709120
  = UtilsFiles.bytes_to_human_readable (host_listing []) 5368709120.
Proof.
  apply (proj2 (proj1 (size_formatters_agree (host_listing []) 5368709120))).
  left. reflexivity.
Defined.

Lemma take_chars_length (n : nat) (s : string) :
  String.length (take_chars n s) = (n `min` String.length s)%nat.
Proof.
  revert s. induction n as [|n IH]; intros [|c s]; cbn; try done.
  by rewrite IH.
Qed.

(** X27: [truncate_text] returns a text of at most [max_length] characters
    unchanged; a longer one is cut to exactly [max_length] characters, the
    last three being dots, when [max_length] is at least 3; for a
    [max_length] of 0, 1 or 2 (and a text of at least [3 - max_length]
    characters) the result of cutting is longer than the text itself was:
    it has [len(text) + max_length] characters. *)
Theorem truncate_text_length (text : string) (max_length : Z) :
  (Z.of_nat (String.length text) ≤ max_length →
   Frontend.truncate_text text max_length = text)
  ∧ (3 ≤ max_length < Z.of_nat (String.length text) →
     Frontend.truncate_text text max_length
       = take_chars (Z.to_nat (max_length - 3)) text +:+ "..."
     ∧ Z.of_nat (String.length (Frontend.truncate_text text max_length))
       = max_length)
  ∧ (0 ≤ max_length < 3 → max_length < Z.of_nat (String.length text) →
     3 ≤ Z.of_nat (String.length text) + max_length →
     Z.of_nat (String.length (Frontend.truncate_text text max_length))
     = Z.of_nat (String.length text) + max_length).
Proof.
  unfold Frontend.truncate_text, slice_to. split; [|split].
  - intros H. by apply Z.leb_le in H as ->.
  - intros [H3 Hlen]. apply Z.leb_gt in Hlen as Hgt. rewrite Hgt.
    replace (0 <=? max_length - 3) with true by (symmetry; apply Z.leb_le; lia).
    split; [done|].
    rewrite append_length, take_chars_length. cbn [String.length]. lia.
  - intros Hmax Hlen Hsum. apply Z.leb_gt in Hlen as Hgt. rewrite Hgt.
    replace (0 <=? max_length - 3) with false by (symmetry; apply Z.leb_gt; lia).
    rewrite append_length, take_chars_length. cbn [String.length]. lia.
Qed.

Lemma truncate_text_length_witness :
  Frontend.truncate_text "GSE57872_GBM_data_matrix.txt.gz" 20
    = take_chars (Z.to_nat (20 - 3)) "GSE57872_GBM_data_matrix.txt.gz" +:+ "..."
  ∧ Z.of_nat (String.length
                (Frontend.truncate_text "GSE57872_GBM_data_matrix.txt.gz" 20))
    = 20.
Proof.
  apply (proj1 (proj2 (truncate_text_length
                         "GSE57872_GBM_data_matrix.txt.gz" 20))).
  cbn. lia.
Defined.

(** ** The chromosome summary: [extract_chromosome_summary] *)

Lemma cell_same_refl (a : cell) : Parsed.cell_same a a = true.
Proof.
  destruct a; cbn; [apply Qeq_bool_refl|apply String.eqb_refl|done].
Qed.

Lemma cell_same_sym (a b : cell) : Parsed.cell_same a b = Parsed.cell_same b a.
Proof.
  destruct a, b; cbn; try done.
  - apply eq_true_iff_eq. rewrite !Qeq_bool_iff. split; intros H; by symmetry.
  - apply String.eqb_sym.
Qed.

Lemma cell_same_trans (a b c : cell) :
  Parsed.cell_same a b = true → Parsed.cell_same b c = true →
  Parsed.cell_same a c = true.
Proof.
  destruct a, b, c; cbn; try done.
  - rewrite !Qeq_bool_iff. intros H1 H2. by rewrite H1.
  - intros ->%String.eqb_eq. done.
Qed.

Lemma cell_eq_same (a b : cell) :
  Parsed.cell_eq a b = true → Parsed.cell_same a b = true.
Proof. by destruct a, b. Qed.

Lemma cell_same_present (a b : cell) :
  cell_missing a = false → Parsed.cell_same a b = Parsed.cell_eq a b.
Proof. by destruct a, b. Qed.

Lemma cell_eq_missing (a b : cell) :
  cell_missing b = true → Parsed.cell_eq a b = false.
Proof. by destruct a, b. Qed.

Lemma cell_same_missing (a b : cell) :
  Parsed.cell_same a b = true → cell_missing a = cell_missing b.
Proof. by destruct a, b. Qed.

Lemma count_equal_cons (u x : cell) (l : list cell) :
  count_equal u (x :: l)
  = ((if Parsed.cell_eq x u then 1 else 0) + count_equal u l)%nat.
Proof.
  unfold count_equal. rewrite filter_cons.
  destruct (Parsed.cell_eq x u); case_decide; done.
Qed.

Lemma count_present_cons (x : cell) (l : list cell) :
  count_present (x :: l)
  = ((if cell_missing x then 0 else 1) + count_present l)%nat.
Proof.
  unfold count_present. rewrite filter_cons.
  destruct (cell_missing x); case_decide; done.
Qed.

Lemma count_equal_same (x u : cell) (l : list cell) :
  cell_missing x = false → Parsed.cell_same x u = true →
  count_equal u l = count_equal x l.
Proof.
  intros Hx Hxu. induction l as [|c l IH]; [done|].
  rewrite !count_equal_cons, IH. f_equal.
  assert (Parsed.cell_eq c u = Parsed.cell_eq c x) as ->; [|done].
  pose proof (cell_same_missing _ _ Hxu) as Hu. rewrite Hx in Hu.
  destruct (cell_missing c) eqn:Hc; [by destruct c, u, x|].
  rewrite <- !(cell_same_present c) by done.
  apply eq_true_iff_eq. split; intros H.
  - eapply cell_same_trans; [exact H|]. by rewrite cell_same_sym.
  - eapply cell_same_trans; [exact H|done].
Qed.

Lemma count_total_cons_other (x : cell) (us l : list cell) :
  Forall (fun u => Parsed.cell_same x u = false) us →
  count_total us (x :: l) = count_total us l.
Proof.
  induction 1 as [|u us Hu _ IH]; [done|]. cbn [count_total].
  rewrite count_equal_cons, IH.
  destruct (Parsed.cell_eq x u) eqn:Heq; [|done].
  apply cell_eq_same in Heq. congruence.
Qed.

Lemma count_total_split (x : cell) (us l : list cell) :
  count_total us l
  = (count_total (filter (fun u => Parsed.cell_same x u = true) us) l
     + count_total (filter (fun u => Parsed.cell_same x u = false) us) l)%nat.
Proof.
  induction us as [|u us IH]; [done|]. rewrite !filter_cons. cbn [count_total].
  destruct (Parsed.cell_same x u); repeat case_decide; try done;
    cbn [count_total]; lia.
Qed.

Lemma filter_none {A} (P : A → Prop) `{∀ x, Decision (P x)} (l : list A) :
  Forall (fun z => ¬ P z) l → filter P l = [].
Proof.
  induction 1 as [|z l Hz _ IH]; [done|]. rewrite filter_cons.
  by case_decide.
Qed.

Lemma filter_filter_length {A} (P Q : A → Prop) `{∀ x, Decision (P x)}
    `{∀ x, Decision (Q x)} (l : list A) :
  (length (filter P (filter Q l)) ≤ length (filter P l))%nat.
Proof.
  induction l as [|z l IH]; [done|]. rewrite !filter_cons.
  repeat case_decide; rewrite ?filter_cons; repeat case_decide;
    cbn [length]; try done; lia.
Qed.

Lemma unique_same_once (x : cell) (l : list cell) :
  (length (filter (fun u => Parsed.cell_same x u = true) (Parsed.unique l)) ≤ 1)%nat.
Proof.
  induction l as [|y l IH]; [cbn; lia|]. cbn [Parsed.unique].
  rewrite filter_cons. case_decide as Hxy.
  - cbn [length]. rewrite filter_none; [done|].
    apply Forall_forall. intros z Hz Hxz.
    apply list_elem_of_filter in Hz as [Hyz _].
    rewrite cell_same_sym in Hxy.
    by rewrite (cell_same_trans _ _ _ Hxy Hxz) in Hyz.
  - etrans; [apply filter_filter_length|exact IH].
Qed.

Lemma unique_represents (c : cell) (l : list cell) :
  c ∈ l → ∃ u, u ∈ Parsed.unique l ∧ Parsed.cell_same u c = true.
Proof.
  induction l as [|y l IH]; [by intros ?%elem_of_nil|].
  intros [->|Hc]%elem_of_cons.
  - exists y. split; [by left|apply cell_same_refl].
  - destruct (IH Hc) as (u & Hu & Huc). cbn [Parsed.unique].
    destruct (Parsed.cell_same y u) eqn:Hyu.
    + exists y. split; [by left|]. by eapply cell_same_trans.
    + exists u. split; [|done]. right. by apply list_elem_of_filter.
Qed.

Lemma count_equal_positive (x : cell) (l : list cell) :
  (0 < count_equal x l)%nat → ∃ c, c ∈ l ∧ Parsed.cell_eq c x = true.
Proof.
  unfold count_equal. intros H.
  destruct (filter _ l) as [|c f] eqn:Hf; [cbn in H; lia|].
  exists c.
  assert (c ∈ filter (fun c => Parsed.cell_eq c x = true) l) as Hin
    by (rewrite Hf; by left).
  apply list_elem_of_filter in Hin as [? ?]. by split.
Qed.

Lemma count_total_same (x : cell) (l : list cell) :
  cell_missing x = false →
  count_total (filter (fun u => Parsed.cell_same x u = true) (Parsed.unique l)) l
  = count_equal x l.
Proof.
  intros Hx. pose proof (unique_same_once x l) as Hone.
  destruct (filter _ (Parsed.unique l)) as [|u [|v g]] eqn:Hg;
    [| |cbn [length] in Hone; lia].
  - cbn [count_total].
    destruct (count_equal x l) as [|n] eqn:Hn; [done|].
    destruct (count_equal_positive x l) as (c & Hc & Hcx); [lia|].
    destruct (unique_represents c l Hc) as (u & Hu & Huc).
    assert (Parsed.cell_same x u = true) as Hxu.
    { rewrite cell_same_sym. eapply cell_same_trans; [exact Huc|].
      by apply cell_eq_same. }
    assert (u ∈ filter (fun u => Parsed.cell_same x u = true) (Parsed.unique l))
      as Hin by by apply list_elem_of_filter.
    rewrite Hg in Hin. by apply elem_of_nil in Hin.
  - cbn [count_total]. rewrite Nat.add_0_r.
    apply count_equal_same; [done|].
    assert (u ∈ filter (fun u => Parsed.cell_same x u = true) (Parsed.unique l))
      as Hin by (rewrite Hg; by left).
    by apply list_elem_of_filter in Hin as [? _].
Qed.

Lemma count_equal_missing (u : cell) (l : list cell) :
  cell_missing u = true → count_equal u l = 0%nat.
Proof.
  intros Hu. unfold count_equal. rewrite filter_none; [done|].
  apply Forall_forall. intros c _. by rewrite cell_eq_missing.
Qed.

Lemma count_total_missing (x : cell) (us l : list cell) :
  cell_missing x = true →
  count_total (filter (fun u => Parsed.cell_same x u = true) us) l = 0%nat.
Proof.
  intros Hx. induction us as [|u us IH]; [done|]. rewrite filter_cons.
  case_decide as Hxu; [|done]. cbn [count_total]. rewrite IH.
  apply cell_same_missing in Hxu. rewrite Hx in Hxu.
  by rewrite count_equal_missing.
Qed.

(** The distinct values of a series divide its cells that are not
    missing. *)
Lemma unique_partition (l : list cell) :
  count_total (Parsed.unique l) l = count_present l.
Proof.
  induction l as [|x l IH]; [done|].
  cbn [Parsed.unique count_total].
  rewrite count_total_cons_other
    by (apply Forall_forall; intros u Hu;
        by apply list_elem_of_filter in Hu as [? _]).
  rewrite count_equal_cons, count_present_cons.
  rewrite (count_total_split x) in IH.
  destruct (cell_missing x) eqn:Hx.
  - rewrite count_total_missing in IH by done.
    rewrite cell_eq_missing, count_equal_missing by done. lia.
  - rewrite count_total_same in IH by done.
    rewrite <- cell_same_present, cell_same_refl by done. lia.
Qed.

Lemma rows_where_columns (name : string) (c : cell) (df : DataFrame) :
  df_columns (Parsed.rows_where name c df) = df_columns df.
Proof. unfold Parsed.rows_where. by destruct (column_index _ _). Qed.

Lemma rows_where_len (name : string) (c : cell) (df : DataFrame) :
  len (Parsed.rows_where name c df) = Z.of_nat (count_equal c (column name df)).
Proof.
  unfold Parsed.rows_where, column, count_equal, len.
  destruct (column_index name (df_columns df)) as [j|]; [|done].
  cbn [df_rows]. f_equal.
  induction (df_rows df) as [|row rows IH]; [done|].
  cbn [map]. rewrite !filter_cons. repeat case_decide; cbn [length]; congruence.
Qed.

(** What the loop adds for the chromosomes it visits. *)
Lemma summarize_chromosomes_items (df : DataFrame) (chroms : list cell)
    (s0 s : list (cell * Parsed.chrom_info)) :
  has_column "copyNumber" df = true →
  Parsed.summarize_chromosomes df chroms s0 = Ok s →
  ∃ added,
    s = s0 ++ added
    ∧ map fst added = chroms
    ∧ Forall (fun item =>
                Parsed.n_segments item.2
                = Z.of_nat (count_equal item.1 (column "chrom" df))
                ∧ Parsed.status item.2
                  = Parsed.classify (Parsed.mean_copy_number item.2)) added.
Proof.
  intros Hcn. revert s0.
  induction chroms as [|c chroms IH]; intros s0 H.
  - injection H as <-. exists []. by rewrite app_nil_r.
  - cbn [Parsed.summarize_chromosomes] in H.
    unfold Parsed.summarize_chromosome in H.
    unfold has_column in H at 1. rewrite rows_where_columns in H.
    fold (has_column "copyNumber" df) in H. rewrite Hcn in H.
    destruct (mean _) as [m|] eqn:Hm; cbn [mbind res_bind mret res_ret] in H;
      [|done].
    destruct (IH _ H) as (added & -> & Hkeys & Hall).
    eexists (_ :: added). split; [by rewrite <- app_assoc|].
    split; [cbn [map fst]; by rewrite Hkeys|].
    constructor; [|done]. split; [apply rows_where_len|done].
Qed.

Lemma segments_total_counts (l : list cell)
    (items : list (cell * Parsed.chrom_info)) :
  Forall (fun item =>
            Parsed.n_segments item.2 = Z.of_nat (count_equal item.1 l)
            ∧ Parsed.status item.2
              = Parsed.classify (Parsed.mean_copy_number item.2)) items →
  segments_total items = Z.of_nat (count_total (map fst items) l).
Proof.
  induction 1 as [|item items [Hn _] _ IH]; [done|].
  cbn [segments_total fold_right map count_total].
  fold (segments_total items). rewrite Hn, IH. lia.
Qed.


(** ** The results directory: [parse_copykat_results] *)

(** A pattern of one component with wildcards only is searched without an
    error. *)
Lemma find_file_plain (w : World) (directory pattern : string) :
  plain_pattern pattern = true →
  ∃ found, Parsed.find_file w directory pattern = Ok found.
Proof.
  intros Hplain. unfold Parsed.find_file, glob. rewrite Hplain.
  cbn [mbind res_bind]. destruct (filter _ _); by eexists.
Qed.

(** X28: [parse_copykat_results] raises what the existence check of the
    directory raises, and a [ValueError] when the directory does not
    exist, and also when the first predictions file it finds does not
    parse, or when that one parses (or there is none) and the first CNA
    file does not: one bad table fails the whole directory, whatever else
    is there. *)
Theorem parse_copykat_results_errors (w : World) (output_dir : string) :
  (∀ e, path_exists w output_dir = Raise e →
        Parsed.parse_copykat_results w output_dir = Raise e)
  ∧ (path_exists w output_dir = Ok false →
     Parsed.parse_copykat_results w output_dir
     = Raise (PyError "ValueError" ("Output directory not found: " +:+ output_dir)))
  ∧ (∀ f e,
       path_exists w output_dir = Ok true →
       Parsed.find_file w output_dir "*_copykat_prediction.txt" = Ok (Some f) →
       read_csv w f = Raise e →
       Parsed.parse_copykat_results w output_dir
       = Raise (PyError "ValueError"
                  ("Error parsing predictions file: " +:+ exc_str e)))
  ∧ (∀ f e,
       path_exists w output_dir = Ok true →
       match Parsed.find_file w output_dir "*_copykat_prediction.txt" with
       | Ok (Some p) => ∃ df, read_csv w p = Ok df
       | Ok None => True
       | Raise _ => False
       end →
       Parsed.find_file w output_dir "*_copykat_CNA_results.txt" = Ok (Some f) →
       read_csv w f = Raise e →
       Parsed.parse_copykat_results w output_dir
       = Raise (PyError "ValueError"
                  ("Error parsing CNA segments file: " +:+ exc_str e))).
Proof.
  unfold Parsed.parse_copykat_results. split; [|split; [|split]].
  - by intros e ->.
  - by intros ->.
  - intros f e -> -> Hread. cbn [negb mbind res_bind]. unfold parse_predictions.
    by rewrite Hread.
  - intros f e -> Hpred -> Hread. cbn [negb mbind res_bind].
    unfold Parsed.parse_cna_segments. rewrite Hread.
    destruct (Parsed.find_file w output_dir "*_copykat_prediction.txt")
      as [[p|]|]; [| |done]; cbn [mbind res_bind mret res_ret]; [|done].
    destruct Hpred as [df Hdf]. unfold parse_predictions. by rewrite Hdf.
Qed.

Lemma parse_copykat_results_errors_witness :
  Parsed.parse_copykat_results (world_listing listing_results) "results"
  = Raise (PyError "ValueError"
             ("Error parsing predictions file: "
              +:+ exc_str (PyError "ParserError" "Error tokenizing data"))).
Proof.
  apply (proj1 (proj2 (proj2 (parse_copykat_results_errors
                                (world_listing listing_results) "results")))
           "results/sampleA_copykat_prediction.txt"); reflexivity.
Defined.

(** X29: when [parse_copykat_results] returns, the directory exists; the
    predictions table is the first matching file, read, and it is recorded
    under [predictions] in [file_paths] together with the summary
    [generate_summary] makes of it; without a matching file there is no
    table, no such path and an empty summary.  The same holds for the CNA
    table and [cna_results]. *)
Theorem parse_copykat_results_returns (w : World) (output_dir : string)
    (r : Parsed.results) :
  Parsed.parse_copykat_results w output_dir = Ok r →
  path_exists w output_dir = Ok true
  ∧ match Parsed.find_file w output_dir "*_copykat_prediction.txt" with
    | Ok (Some f) =>
        ∃ df, read_csv w f = Ok df
              ∧ Parsed.predictions r = Some df
              ∧ Parsed.file_paths r !! "predictions" = Some f
              ∧ generate_summary df = Ok (Parsed.summary r)
    | Ok None =>
        Parsed.predictions r = None
        ∧ Parsed.file_paths r !! "predictions" = None
        ∧ Parsed.summary r = ∅
    | Raise _ => False
    end
  ∧ match Parsed.find_file w output_dir "*_copykat_CNA_results.txt" with
    | Ok (Some f) =>
        ∃ df, read_csv w f = Ok df
              ∧ Parsed.cna_segments r = Some df
              ∧ Parsed.file_paths r !! "cna_results" = Some f
    | Ok None =>
        Parsed.cna_segments r = None
        ∧ Parsed.file_paths r !! "cna_results" = None
    | Raise _ => False
    end.
Proof.
  unfold Parsed.parse_copykat_results.
  destruct (find_file_plain w output_dir "*_copykat_prediction.txt" eq_refl)
    as [pf ->].
  destruct (find_file_plain w output_dir "*_copykat_CNA_results.txt" eq_refl)
    as [cf ->].
  destruct (find_file_plain w output_dir "*_copykat_heatmap.jpeg" eq_refl)
    as [hf ->].
  destruct (find_file_plain w output_dir "*_report.html" eq_refl) as [rf ->].
  destruct (path_exists w output_dir) as [[|]|]; [|done|done].
  cbn [negb mbind res_bind]. intros H. split; [done|].
  unfold parse_predictions, Parsed.parse_cna_segments in H.
  destruct pf as [pf|];
    [destruct (read_csv w pf) as [pdf|] eqn:Hp; [|done]|];
    cbn [mbind res_bind mret res_ret] in H;
    (destruct cf as [cf|];
     [destruct (read_csv w cf) as [cdf|] eqn:Hc; [|done]|]);
    cbn [mbind res_bind mret res_ret] in H;
    (destruct (path_exists w _) as [log_found|]; [|done]);
    cbn [mbind res_bind mret res_ret] in H;
    try (destruct (generate_summary pdf) as [s|] eqn:Hs; [|done]);
    cbn [mbind res_bind mret res_ret] in H;
    injection H as <-;
    cbn [Parsed.predictions Parsed.cna_segments Parsed.summary
         Parsed.file_paths];
    destruct log_found, hf, rf;
    rewrite ?lookup_insert_ne by done; rewrite ?lookup_insert_eq;
    (split; [try (exists pdf); done|try (exists cdf); done]).
Qed.

Lemma parse_copykat_results_returns_witness :
  ∃ r,
    Parsed.parse_copykat_results world_results "results" = Ok r
    ∧ Parsed.predictions r = Some table_three_cells
    ∧ Parsed.file_paths r !! "predictions"
      = Some "results/sampleA_copykat_prediction.txt"
    ∧ Parsed.cna_segments r = None.
Proof.
  destruct (Parsed.parse_copykat_results world_results "results") as [r|] eqn:Hr;
    [|discriminate Hr].
  exists r. split; [done|].
  destruct (parse_copykat_results_returns world_results "results" r Hr)
    as (_ & Hp & Hc).
  change (Parsed.find_file world_results "results" "*_copykat_prediction.txt")
    with (Ok (Some "results/sampleA_copykat_prediction.txt")) in Hp.
  change (Parsed.find_file world_results "results" "*_copykat_CNA_results.txt")
    with (Ok (@None string)) in Hc.
  destruct Hp as (df & Hdf & Hpred & Hpath & _). injection Hdf as <-.
  destruct Hc as [Hcna _]. by repeat split.
Defined.


(** ** The chromosome summary: [extract_chromosome_summary] *)

(** X30: on a table with the columns [chrom] and [copyNumber], when
    [extract_chromosome_summary] returns, its keys are the distinct values
    of [chrom] in order of first appearance, every entry counts the rows
    equal to its key and has the status its own mean gives, and the counts
    add up to the number of rows whose [chrom] is not missing: a row
    without a chromosome is counted nowhere. *)
Theorem chromosome_summary_partition (cna_segments : DataFrame)
    (summary : list (cell * Parsed.chrom_info)) :
  has_column "chrom" cna_segments = true →
  has_column "copyNumber" cna_segments = true →
  Parsed.extract_chromosome_summary cna_segments = Ok summary →
  map fst summary = Parsed.unique (column "chrom" cna_segments)
  ∧ Forall (fun item =>
              Parsed.n_segments item.2
              = Z.of_nat (count_equal item.1 (column "chrom" cna_segments))
              ∧ Parsed.status item.2
                = Parsed.classify (Parsed.mean_copy_number item.2)) summary
  ∧ segments_total summary
    = Z.of_nat (count_present (column "chrom" cna_segments)).
Proof.
  intros Hchrom Hcn. unfold Parsed.extract_chromosome_summary.
  rewrite Hchrom. cbn [negb]. intros H.
  destruct (summarize_chromosomes_items _ _ _ _ Hcn H) as (added & -> & Hk & Hall).
  cbn [app]. split; [done|]. split; [done|].
  by rewrite (segments_total_counts _ _ Hall), Hk, unique_partition.
Qed.

Lemma chromosome_summary_partition_witness :
  ∃ summary,
    Parsed.extract_chromosome_summary table_segments = Ok summary
    ∧ map fst summary = [CNum 1; CNum 2; CNaN]
    ∧ segments_total summary = 3.
Proof.
  destruct (Parsed.extract_chromosome_summary table_segments) as [s|] eqn:Hs;
    [|discriminate Hs].
  exists s. split; [done|].
  destruct (chromosome_summary_partition table_segments s eq_refl eq_refl Hs)
    as (Hk & _ & Ht).
  split; [exact Hk|exact Ht].
Defined.

(** A table without the column [copyNumber] (or without [chrom])
    has the empty chromosome summary. *)
Theorem chromosome_summary_needs_both_columns (cna_segments : DataFrame) :
  has_column "chrom" cna_segments && has_column "copyNumber" cna_segments = false →
  Parsed.extract_chromosome_summary cna_segments = Ok [].
Proof.
  unfold Parsed.extract_chromosome_summary.
  destruct (has_column "chrom" cna_segments); [|done]. cbn [andb negb].
  intros Hcn. generalize (@nil (cell * Parsed.chrom_info)).
  induction (Parsed.unique _) as [|c chroms IH]; intros s0; [done|].
  cbn [Parsed.summarize_chromosomes]. unfold Parsed.summarize_chromosome.
  unfold has_column at 1. rewrite rows_where_columns.
  fold (has_column "copyNumber" cna_segments). rewrite Hcn.
  cbn [mbind res_bind mret res_ret]. apply IH.
Qed.

Lemma chromosome_summary_needs_both_columns_witness :
  Parsed.extract_chromosome_summary table_three_cells = Ok [].
Proof. apply chromosome_summary_needs_both_columns. reflexivity. Defined.
